(** * Finite-difference stencils: a shallow embedding of [findiff/stencils.py]

    The Python class [Stencil] keeps a two-level table of weights
    ([self.data]: pattern -> local stencil, local stencil: offset -> weight),
    builds it eagerly in its constructor, applies it to numpy arrays and
    combines tables with [+] and [-].  Dictionaries and arrays are mutable
    objects that the code shares by reference, so they live in an explicit
    store and every method is a computation in a state-and-exception monad. *)

From Stdlib Require Import ZArith List Bool Lia.
From Stdlib Require Import PrimFloat Uint63 FloatOps SpecFloat FloatAxioms.
From stdpp Require Import base option list gmap.

#[local] Open Scope Z_scope.

(** ** Exceptions and results *)

(** The Python exceptions the module can raise.  [CoefficientError] stands for
    whatever the external coefficient generator raises; [InvalidRef] (a
    reference to an object that is not in the store) and [Unmodelled] (numpy
    behaviour outside scalar indexing) cannot be produced by a Python run on
    well-typed arguments and mark the border of the model. *)
Inductive exn : Set :=
  | AssertionError
  | KeyError
  | IndexError
  | TypeError
  | ValueError
  | OverflowError
  | ZeroDivisionError
  | CoefficientError
  | InvalidRef
  | Unmodelled.

Definition result (A : Type) : Type := (exn + A)%type.

Definition rbind {A B : Type} (m : result A) (f : A -> result B) : result B :=
  match m with
  | inl e => inl e
  | inr a => f a
  end.

Notation "'let?' x := m 'in' k" := (rbind m (fun x => k))
  (at level 10, x pattern, m at level 100, k at level 200, only parsing).

Definition of_option {A : Type} (e : exn) (o : option A) : result A :=
  match o with
  | Some a => inr a
  | None => inl e
  end.

(** A list comprehension whose body may raise: the first exception wins. *)
Fixpoint rmap {A B : Type} (f : A -> result B) (l : list A) : result (list B) :=
  match l with
  | [] => inr []
  | x :: l' => let? y := f x in let? ys := rmap f l' in inr (y :: ys)
  end.

(** ** Python dictionaries

    A [dict] keeps its keys in insertion order, and the order is observable
    here: [apply] adds floating-point products in the order of [items()].
    So a dictionary is an association list without repeated keys;
    [d[k] = v] overwrites in place or appends. *)
Section dict.
Context {K V : Type} `{EqDecision K}.

Fixpoint dict_get (d : list (K * V)) (k : K) : option V :=
  match d with
  | [] => None
  | (k', v) :: d' => if decide (k = k') then Some v else dict_get d' k
  end.

Fixpoint dict_set (d : list (K * V)) (k : K) (v : V) : list (K * V) :=
  match d with
  | [] => [(k, v)]
  | (k', v') :: d' =>
      if decide (k = k') then (k, v) :: d' else (k', v') :: dict_set d' k v
  end.
End dict.

(** ** Patterns, offsets, indices *)

(** The symbols ['L'], ['C'], ['H'] of a boundary pattern. *)
Inductive sym : Set := LOW | CENTER | HIGH.

#[global] Instance sym_eq_dec : EqDecision sym.
Proof. solve_decision. Defined.

Abbreviation pattern := (list sym) (only parsing).
Abbreviation offset := (list Z) (only parsing).

(** A grid index as the callers pass it: a bare [int] or a tuple of ints. *)
Inductive index : Set :=
  | IdxInt (i : Z)
  | IdxTuple (t : list Z).

(** [l[i]] on a Python sequence: negative positions count from the end. *)
Definition py_index {A : Type} (l : list A) (i : Z) : result A :=
  let n := Z.of_nat (length l) in
  if (0 <=? i) && (i <? n) then of_option IndexError (l !! Z.to_nat i)
  else if (- n <=? i) && (i <? 0) then of_option IndexError (l !! Z.to_nat (n + i))
  else inl IndexError.

(** [range(n)] *)
Definition range (n : Z) : list Z := map Z.of_nat (seq 0 (Z.to_nat n)).

(** [itertools.product] over a list of axes: the first axis varies slowest. *)
Fixpoint product {A : Type} (axes : list (list A)) : list (list A) :=
  match axes with
  | [] => [[]]
  | xs :: axes' => flat_map (fun x => map (cons x) (product axes')) xs
  end.

(** ** Numbers

    Weights are Python floats.  The methods only add, subtract, multiply,
    divide and raise them to an integer power, promote integer array
    elements to floats and convert floats back on a store into an integer
    array, so the development is parametric in these operations; the IEEE
    binary64 instance is [float_arith] below. *)
Class Arith (W : Type) : Type := {
  wzero : W;               (* the literal [0.] *)
  wadd : W -> W -> W;
  wsub : W -> W -> W;
  wmul : W -> W -> W;
  wdiv : W -> W -> result W;   (* [c / q]: raises on a zero divisor *)
  wpow : W -> Z -> result W;   (* [h ** order]: raises on overflow *)
  wofZ : Z -> W;           (* an [int] operand promoted to a float *)
  wtoZ : W -> Z            (* a float stored into an integer array *)
}.

(** ** numpy arrays

    An array is its shape together with a flat buffer in row-major order;
    the constructor of the buffer is the [dtype]. *)
Inductive buffer (W : Type) : Type :=
  | IntData (l : list Z)
  | FloatData (l : list W).
Arguments IntData {W} l.
Arguments FloatData {W} l.

Record ndarray (W : Type) : Type := NdArray {
  ashape : list Z;
  adata : buffer W
}.
Arguments NdArray {W} ashape adata.
Arguments ashape {W} n.
Arguments adata {W} n.

Inductive scalar (W : Type) : Type :=
  | SInt (z : Z)
  | SFloat (w : W).
Arguments SInt {W} z.
Arguments SFloat {W} w.

Inductive dtype : Set := DInt | DFloat.

Definition buffer_dtype {W : Type} (b : buffer W) : dtype :=
  match b with
  | IntData _ => DInt
  | FloatData _ => DFloat
  end.

Definition buffer_get {W : Type} (b : buffer W) (pos : nat) : option (scalar W) :=
  match b with
  | IntData l => SInt <$> l !! pos
  | FloatData l => SFloat <$> l !! pos
  end.

Definition buffer_length {W : Type} (b : buffer W) : nat :=
  match b with
  | IntData l => length l
  | FloatData l => length l
  end.

(** Number of elements of an array of the given shape. *)
Definition size (shape : list Z) : Z := fold_right Z.mul 1 shape.

(** One component of a numpy index: negative values wrap around once. *)
Definition norm_index (n i : Z) : option Z :=
  let i' := if i <? 0 then i + n else i in
  if (0 <=? i') && (i' <? n) then Some i' else None.

(** Flat position of a full index tuple, [None] when a component is out of
    bounds or the lengths differ. *)
Fixpoint ravel (shape idx : list Z) : option Z :=
  match shape, idx with
  | [], [] => Some 0
  | n :: shape', i :: idx' =>
      match norm_index n i, ravel shape' idx' with
      | Some i', Some r => Some (i' * size shape' + r)
      | _, _ => None
      end
  | _, _ => None
  end.

(** [idx0 + o] where [idx0] is a 1-d integer array and [o] a tuple:
    elementwise, with numpy's broadcasting of a length-1 operand. *)
Definition np_add (a b : list Z) : result (list Z) :=
  if (length a =? length b)%nat then inr (zip_with Z.add a b)
  else match a, b with
       | [x], _ => inr (map (Z.add x) b)
       | _, [y] => inr (map (fun x => x + y) a)
       | _, _ => inl ValueError
       end.

Section arrays.
Context {W : Type} `{Arith W}.

(** The float a product [c * x] sees for an array element [x]. *)
Definition to_weight (x : scalar W) : W :=
  match x with
  | SInt z => wofZ z
  | SFloat w => w
  end.

(** [u[idx]] for a tuple of integers.  Fewer components than axes select a
    sub-array, which is outside the model. *)
Definition np_getitem (u : ndarray W) (idx : list Z) : result (scalar W) :=
  if (length (ashape u) <? length idx)%nat then inl IndexError
  else if (length idx <? length (ashape u))%nat then inl Unmodelled
  else match ravel (ashape u) idx with
       | None => inl IndexError
       | Some pos => of_option Unmodelled (buffer_get (adata u) (Z.to_nat pos))
       end.

(** The buffer after [du[pos] = v]: the value is converted to the dtype. *)
Definition buffer_set (b : buffer W) (pos : nat) (v : W) : buffer W :=
  match b with
  | IntData l => IntData (<[pos := wtoZ v]> l)
  | FloatData l => FloatData (<[pos := v]> l)
  end.

(** [du[idx] = v] for an integer or a tuple of integers. *)
Definition np_setitem (du : ndarray W) (idx : index) (v : W) : result (ndarray W) :=
  let t := match idx with IdxInt i => [i] | IdxTuple t => t end in
  if (length (ashape du) <? length t)%nat then inl IndexError
  else if (length t <? length (ashape du))%nat then inl Unmodelled
  else match ravel (ashape du) t with
       | None => inl IndexError
       | Some pos =>
           if (Z.to_nat pos <? buffer_length (adata du))%nat
           then inr (NdArray (ashape du) (buffer_set (adata du) (Z.to_nat pos) v))
           else inl Unmodelled
       end.

(** [np.zeros_like(u)] *)
Definition zeros_like (u : ndarray W) : ndarray W :=
  let n := Z.to_nat (size (ashape u)) in
  NdArray (ashape u)
    match adata u with
    | IntData _ => IntData (replicate n 0)
    | FloatData _ => FloatData (replicate n wzero)
    end.
End arrays.

(** ** The store and the monad of methods *)

Abbreviation loc := positive (only parsing).

(** Three kinds of mutable objects: the outer dictionaries [self.data]
    (pattern -> reference to a local stencil), the local stencils
    (offset -> weight) and numpy arrays. *)
Record heap (W : Type) : Type := Heap {
  tables : gmap loc (list (pattern * loc));
  locals : gmap loc (list (offset * W));
  arrays : gmap loc (ndarray W)
}.
Arguments Heap {W} tables locals arrays.
Arguments tables {W} h.
Arguments locals {W} h.
Arguments arrays {W} h.

Definition M (W A : Type) : Type := heap W -> result A * heap W.

Section monad.
Context {W : Type}.

Definition ret {A : Type} (a : A) : M W A := fun s => (inr a, s).

Definition raise {A : Type} (e : exn) : M W A := fun s => (inl e, s).

Definition bind {A B : Type} (m : M W A) (f : A -> M W B) : M W B :=
  fun s =>
    match m s with
    | (inl e, s') => (inl e, s')
    | (inr a, s') => f a s'
    end.

Definition lift {A : Type} (r : result A) : M W A := fun s => (r, s).

(** [assert b] *)
Definition assert (b : bool) : M W unit :=
  if b then ret tt else raise AssertionError.

(** [for x in l: body x] *)
Fixpoint forM_ {A : Type} (l : list A) (body : A -> M W unit) : M W unit :=
  match l with
  | [] => ret tt
  | x :: l' => bind (body x) (fun _ => forM_ l' body)
  end.

(** A loop that threads a local variable. *)
Fixpoint foldM {A S : Type} (body : S -> A -> M W S) (l : list A) (s : S) : M W S :=
  match l with
  | [] => ret s
  | x :: l' => bind (body s x) (foldM body l')
  end.

Definition read_table (l : loc) : M W (list (pattern * loc)) :=
  fun s => (of_option InvalidRef (tables s !! l), s).

Definition write_table (l : loc) (T : list (pattern * loc)) : M W unit :=
  fun s => (inr tt, Heap (<[l := T]> (tables s)) (locals s) (arrays s)).

Definition alloc_table (T : list (pattern * loc)) : M W loc :=
  fun s => let l := fresh (dom (tables s)) in
           (inr l, Heap (<[l := T]> (tables s)) (locals s) (arrays s)).

Definition read_local (l : loc) : M W (list (offset * W)) :=
  fun s => (of_option InvalidRef (locals s !! l), s).

Definition write_local (l : loc) (D : list (offset * W)) : M W unit :=
  fun s => (inr tt, Heap (tables s) (<[l := D]> (locals s)) (arrays s)).

Definition alloc_local (D : list (offset * W)) : M W loc :=
  fun s => let l := fresh (dom (locals s)) in
           (inr l, Heap (tables s) (<[l := D]> (locals s)) (arrays s)).

Definition read_array (l : loc) : M W (ndarray W) :=
  fun s => (of_option InvalidRef (arrays s !! l), s).

Definition write_array (l : loc) (a : ndarray W) : M W unit :=
  fun s => (inr tt, Heap (tables s) (locals s) (<[l := a]> (arrays s))).

Definition alloc_array (a : ndarray W) : M W loc :=
  fun s => let l := fresh (dom (arrays s)) in
           (inr l, Heap (tables s) (locals s) (<[l := a]> (arrays s))).
End monad.

Notation "'let!' x := m 'in' k" := (bind m (fun x => k))
  (at level 10, x pattern, m at level 100, k at level 200, only parsing).

(** ** The coefficient generator (module [coefs], external to this file) *)

(** One scheme of the generator's answer: [{'offsets': ..., 'coefficients': ...}]. *)
Record scheme_coefs (W : Type) : Type := SchemeCoefs {
  sc_offsets : list Z;
  sc_coefficients : list W
}.
Arguments SchemeCoefs {W} sc_offsets sc_coefficients.
Arguments sc_offsets {W} s.
Arguments sc_coefficients {W} s.

(** The answer of [coefficients(order, acc)]: one entry per scheme. *)
Record coef_table (W : Type) : Type := CoefTable {
  forward : scheme_coefs W;
  center : scheme_coefs W;
  backward : scheme_coefs W
}.
Arguments CoefTable {W} forward center backward.
Arguments forward {W} c.
Arguments center {W} c.
Arguments backward {W} c.

(** ** The class [Stencil] *)

Module Stencil.

(** The attributes of an instance.  All but [data] are plain values that no
    method reassigns after [__init__]; [data] is a reference to the outer
    dictionary.  ([char_pts] is an iterator that [__init__] itself exhausts;
    it is the list [_det_characteristic_points] below.) *)
Record t (W : Type) : Type := Make {
  shape : list Z;
  axis : Z;
  order : Z;
  h : W;
  acc : Z;
  data : loc
}.
Arguments Make {W} shape axis order h acc data.
Arguments shape {W} _.
Arguments axis {W} _.
Arguments order {W} _.
Arguments h {W} _.
Arguments acc {W} _.
Arguments data {W} _.

Section methods.
Context {W : Type} `{Arith W}.

(** The external generator: it answers with a table or raises. *)
Variable coefficients : Z -> Z -> result (coef_table W).

(** [smap = {'L': 'forward', 'C': 'center', 'H': 'backward'}] followed by
    the lookup of the scheme in the generator's answer. *)
Definition smap (s : sym) (c : coef_table W) : scheme_coefs W :=
  match s with
  | LOW => forward c
  | CENTER => center c
  | HIGH => backward c
  end.

(** [_det_characteristic_points]: the product of [ndim] copies of
    [("L", "C", "H")]. *)
Definition _det_characteristic_points (shape : list Z) : list pattern :=
  let ndim := length shape in
  product (replicate ndim [LOW; CENTER; HIGH]).

(** [type_for_point]: the loop runs over [range(len(idx))], so a bare
    integer raises [TypeError]; [self.shape[axis]] is only read when
    [idx[axis]] is not [0]. *)
Definition type_for_point (self : t W) (idx : index) : result pattern :=
  match idx with
  | IdxInt _ => inl TypeError
  | IdxTuple idx =>
      rmap (fun axis : nat =>
              let? i := of_option IndexError (idx !! axis) in
              if i =? 0 then inr LOW
              else
                let? n := of_option IndexError (shape self !! axis) in
                if i =? n - 1 then inr HIGH else inr CENTER)
           (seq 0 (length idx))
  end.

(** [for_point]: the reference to the local stencil of the point. *)
Definition for_point (self : t W) (idx : index) : M W loc :=
  let! typ := lift (type_for_point self idx) in
  let! T := read_table (data self) in
  lift (of_option KeyError (dict_get T typ)).

(** Lines 60-71 of [apply]: wrap a bare integer, then classify with a loop
    over [range(len(self.shape))]. *)
Definition apply_tuple (idx0 : index) : list Z :=
  match idx0 with
  | IdxInt i => [i]
  | IdxTuple t => t
  end.

Definition apply_typ (self : t W) (idx0 : list Z) : result pattern :=
  rmap (fun axis : nat =>
          let? i := of_option IndexError (idx0 !! axis) in
          if i =? 0 then inr LOW
          else
            let? n := of_option IndexError (shape self !! axis) in
            if i =? n - 1 then inr HIGH else inr CENTER)
       (seq 0 (length (shape self))).

(** Lines 78-79 of [apply]: one turn of the loop over [stl.items()]. *)
Definition apply_term (u : loc) (idx0 : list Z) (du : W) (oc : offset * W) : M W W :=
  let '(o, c) := oc in
  let! idx := lift (np_add idx0 o) in
  let! ua := read_array u in
  let! x := lift (np_getitem ua idx) in
  ret (wadd du (wmul c (to_weight x))).

(** Lines 75-81 of [apply]: the weighted sum. *)
Definition apply_sum (stl : loc) (u : loc) (idx0 : list Z) : M W W :=
  let! items := read_local stl in
  foldM (apply_term u idx0) items wzero.

Definition apply (self : t W) (u : loc) (idx0 : index) : M W W :=
  let idx0 := apply_tuple idx0 in
  let! typ := lift (apply_typ self idx0) in
  let! T := read_table (data self) in
  let! stl := lift (of_option KeyError (dict_get T typ)) in
  apply_sum stl u idx0.

(** The list [indices] of [apply_all]. *)
Definition all_indices (ushape : list Z) : list index :=
  let ndims := length ushape in
  if (ndims =? 1)%nat then map IdxInt (range (default 0 (head ushape)))
  else map IdxTuple (product (map range ushape)).

(** Line 109: [du[idx] = self.apply(u, idx)]. *)
Definition apply_store (self : t W) (u du : loc) (idx : index) : M W unit :=
  let! v := apply self u idx in
  let! a := read_array du in
  let! a' := lift (np_setitem a idx v) in
  write_array du a'.

Definition apply_all (self : t W) (u : loc) : M W loc :=
  let! ua := read_array u in
  let! _ := assert (bool_decide (shape self = ashape ua)) in
  let indices := all_indices (ashape ua) in
  let! du := alloc_array (zeros_like ua) in
  let! _ := forM_ indices (apply_store self u du) in
  ret du.

(** [long_off = [0] * ndim; long_off[axis] += off; tuple(long_off)] *)
Definition long_off (ndim : nat) (axis off : Z) : result offset :=
  let zeros := replicate ndim 0 in
  let n := Z.of_nat ndim in
  let pos := if axis <? 0 then axis + n else axis in
  if (0 <=? pos) && (pos <? n)
  then inr (<[Z.to_nat pos := 0 + off]> zeros)
  else inl IndexError.

(** [c / h ** order]: the power is evaluated first, and either operation
    may raise. *)
Definition weight (h : W) (order : Z) (c : W) : result W :=
  let? q := wpow h order in
  wdiv c q.

(** Lines 157-164: the body of the inner loop of [_create_stencil], on
    the local stencil [lstl].  In [lstl[long_off] += c / h ** order] the
    stored weight is read before the right-hand side is evaluated, and
    nothing is written when the right-hand side raises. *)
Definition accumulate_one (self : t W) (lstl : loc) (oc : Z * W) : M W unit :=
  let '(off, c) := oc in
  let ndim := length (shape self) in
  let! lo := lift (long_off ndim (axis self) off) in
  let! D := read_local lstl in
  match dict_get D lo with
  | Some w =>
      let! x := lift (weight (h self) (order self) c) in
      write_local lstl (dict_set D lo (wadd w x))
  | None =>
      let! x := lift (weight (h self) (order self) c) in
      write_local lstl (dict_set D lo x)
  end.

(** Lines 148-165: the body of the outer loop, for one pattern [pt]. *)
Definition create_one (self : t W) (pt : pattern) : M W unit :=
  let! s := lift (py_index pt (axis self)) in
  let! ct := lift (coefficients (order self) (acc self)) in
  let coefs := smap s ct in
  let! T := read_table (data self) in
  let! lstl := match dict_get T pt with
               | Some l => ret l
               | None => alloc_local []
               end in
  let! _ := forM_ (zip (sc_offsets coefs) (sc_coefficients coefs))
                  (accumulate_one self lstl) in
  let! T' := read_table (data self) in
  write_table (data self) (dict_set T' pt lstl).

Definition _create_stencil (self : t W) (char_pts : list pattern) : M W unit :=
  forM_ char_pts (create_one self).

(** [__init__]: with a seed, [self.data = old_stl.data] binds the seed's
    dictionary itself. *)
Definition __init__ (shape : list Z) (axis order : Z) (h : W) (acc : Z)
    (old_stl : option (t W)) : M W (t W) :=
  let char_pts := _det_characteristic_points shape in
  let! d := match old_stl with
            | Some old => ret (data old)
            | None => alloc_table []
            end in
  let self := Make shape axis order h acc d in
  let! _ := _create_stencil self char_pts in
  ret self.

(** [deepcopy(self)]: a new outer dictionary and, through the memo, one
    new local stencil per distinct local stencil of the original; tuples
    and numbers are immutable and shared. *)
Definition deepcopy_entry (d' : loc) (memo : gmap loc loc) (entry : pattern * loc)
    : M W (gmap loc loc) :=
  let '(p, l) := entry in
  let! l' := match memo !! l with
             | Some l' => ret l'
             | None => let! D := read_local l in alloc_local D
             end in
  let! T' := read_table d' in
  let! _ := write_table d' (dict_set T' p l') in
  ret (<[l := l']> memo).

Definition deepcopy (self : t W) : M W (t W) :=
  let! T := read_table (data self) in
  let! d' := alloc_table [] in
  let! _ := foldM (deepcopy_entry d') T ∅ in
  ret (Make (shape self) (axis self) (order self) (h self) (acc self) d').

(** Lines 186-189: the body of the inner loop of [_binaryop]. *)
Definition binaryop_one (op : W -> W -> W) (single_stl : loc) (oc : offset * W)
    : M W unit :=
  let '(o, c) := oc in
  let! D := read_local single_stl in
  match dict_get D o with
  | Some w => write_local single_stl (dict_set D o (op w c))
  | None => write_local single_stl (dict_set D o (op (wofZ 0) c))
  end.

(** Lines 184-189: the body of the outer loop. *)
Definition binaryop_pattern (other : t W) (op : W -> W -> W)
    (entry : pattern * loc) : M W unit :=
  let '(char_pt, single_stl) := entry in
  let! To := read_table (data other) in
  let! other_single_stl := lift (of_option KeyError (dict_get To char_pt)) in
  let! items := read_local other_single_stl in
  forM_ items (binaryop_one op single_stl).

Definition _binaryop (self other : t W) (op : W -> W -> W) : M W (t W) :=
  let! stl := deepcopy self in
  let! _ := assert (bool_decide (shape stl = shape other)) in
  let! T := read_table (data stl) in
  let! _ := forM_ T (binaryop_pattern other op) in
  ret stl.

Definition __add__ (self other : t W) : M W (t W) := _binaryop self other wadd.

Definition __sub__ (self other : t W) : M W (t W) := _binaryop self other wsub.
End methods.

End Stencil.

(** ** IEEE binary64 weights

    The instance of the arithmetic the Python code runs on.  Sums, products
    and quotients are the kernel's correctly rounded binary64 operations;
    [/] on Python floats raises [ZeroDivisionError] on a zero divisor and
    returns an infinity on overflow.  [h ** order] follows CPython's
    [float_pow]: the exponent is converted to a float, the special
    operands are decided first, the C library's [pow] is taken as the
    correctly rounded power, and a power that overflows raises
    [OverflowError] while one that underflows is zero.  The conversion of a
    float to an integer array element truncates toward zero and yields
    [-2^63] outside the int64 range, as numpy's cast does on the usual
    platforms. *)
Definition float_of_Z (z : Z) : float :=
  SF2Prim (binary_normalize prec emax z 0 false).

Definition float_to_Z (x : float) : Z :=
  match Prim2SF x with
  | S754_zero _ => 0
  | S754_finite s m e =>
      let mag := if 0 <=? e then Z.shiftl (Z.pos m) e else Z.shiftr (Z.pos m) (- e) in
      let z := if s then - mag else mag in
      if (- 2 ^ 63 <=? z) && (z <? 2 ^ 63) then z else - 2 ^ 63
  | _ => - 2 ^ 63
  end.

(** [c / q] on Python floats. *)
Definition float_div (c q : float) : result float :=
  if PrimFloat.is_zero q then inl ZeroDivisionError else inr (PrimFloat.div c q).

(** The correctly rounded value of [(m * 2^e) ^ k], or of its inverse. *)
Definition rounded_power (m : positive) (e : Z) (k : positive) (inverse : bool)
    : spec_float :=
  if inverse
  then SFdiv prec emax (S754_finite false 1 0) (S754_finite false (m ^ k) (e * Z.pos k))
  else binary_normalize prec emax (Z.pos (m ^ k)) (e * Z.pos k) false.

(** [x ** n] for a float [x] and an int [n]. *)
Definition float_pow (x : float) (n : Z) : result float :=
  match Prim2SF (float_of_Z n) with
  | S754_infinity _ | S754_nan => inl OverflowError
  | S754_zero _ => inr PrimFloat.one
  | S754_finite negative mn en =>
      let k := if 0 <=? en then Z.shiftl (Z.pos mn) en else Z.shiftr (Z.pos mn) (- en) in
      let odd := Z.odd k in
      match Prim2SF x with
      | S754_nan => inr x
      | S754_infinity sx =>
          inr (if negative
               then (if odd && sx then PrimFloat.opp PrimFloat.zero else PrimFloat.zero)
               else (if odd then x else PrimFloat.infinity))
      | S754_zero sx =>
          if negative then inl ZeroDivisionError
          else inr (if odd then x else PrimFloat.zero)
      | S754_finite sx m e =>
          let negate := sx && odd in
          if PrimFloat.eqb (PrimFloat.abs x) PrimFloat.one
          then inr (if negate then PrimFloat.opp PrimFloat.one else PrimFloat.one)
          else
            match rounded_power m e (Z.to_pos k) negative with
            | S754_infinity _ => inl OverflowError
            | r => inr (SF2Prim (if negate then SFopp r else r))
            end
      end
  end.

(** Neither an infinity nor a NaN. *)
Definition finite (x : float) : bool :=
  match Prim2SF x with
  | S754_zero _ | S754_finite _ _ _ => true
  | _ => false
  end.

#[global] Instance float_arith : Arith float := {|
  wzero := PrimFloat.zero;
  wadd := PrimFloat.add;
  wsub := PrimFloat.sub;
  wmul := PrimFloat.mul;
  wdiv := float_div;
  wpow := float_pow;
  wofZ := float_of_Z;
  wtoZ := float_to_Z
|}.

(** Modelled from the spec: the module [coefs] is not part of the sources;
    section 6 fixes the generator's interface.  For [order = 1] and
    [acc = 2] the answer is the classical second-order first-derivative
    table (forward [-3/2, 2, -1/2] on offsets [0, 1, 2], central
    [-1/2, 0, 1/2] on [-1, 0, 1], backward [1/2, -2, 3/2] on [-2, -1, 0]);
    every other request is refused. *)
Definition coefficients_1_2 : coef_table float :=
  CoefTable
    (SchemeCoefs [0; 1; 2] [(-1.5)%float; 2%float; (-0.5)%float])
    (SchemeCoefs [-1; 0; 1] [(-0.5)%float; 0%float; 0.5%float])
    (SchemeCoefs [-2; -1; 0] [0.5%float; (-2)%float; 1.5%float]).

Definition coefficients (order acc : Z) : result (coef_table float) :=
  if (order =? 1) && (acc =? 2) then inr coefficients_1_2 else inl CoefficientError.

(** The classical second-order table of the second derivative (forward
    [2, -5, 4, -1] on offsets [0, 1, 2, 3], central [1, -2, 1] on
    [-1, 0, 1], backward [-1, 4, -5, 2] on [-3, -2, -1, 0]), and the
    generator that answers this request as well. *)
Definition coefficients_2_2 : coef_table float :=
  CoefTable
    (SchemeCoefs [0; 1; 2; 3] [2%float; (-5)%float; 4%float; (-1)%float])
    (SchemeCoefs [-1; 0; 1] [1%float; (-2)%float; 1%float])
    (SchemeCoefs [-3; -2; -1; 0] [(-1)%float; 4%float; (-5)%float; 2%float]).

Definition coefficients_second (order acc : Z) : result (coef_table float) :=
  if (order =? 2) && (acc =? 2) then inr coefficients_2_2 else coefficients order acc.

(** The store before any object is created. *)
Definition empty_heap {W : Type} : heap W := Heap ∅ ∅ ∅.

(** ** Views used in the statements *)

(** The classification rule in the words of the specification: index [0]
    is LOW, index [n - 1] is HIGH, anything else CENTER, LOW first. *)
Definition sym_of (i n : Z) : sym :=
  if i =? 0 then LOW else if i =? n - 1 then HIGH else CENTER.

(** The pattern of an index, axis by axis. *)
Definition pattern_of (shape idx : list Z) : list sym := zip_with sym_of idx shape.

(** An index tuple with one component per axis, each within the extent. *)
Fixpoint in_range (shape idx : list Z) : bool :=
  match shape, idx with
  | [], [] => true
  | n :: shape', i :: idx' => (0 <=? i) && (i <? n) && in_range shape' idx'
  | _, _ => false
  end.

(** Row-major position of an in-range index. *)
Fixpoint flat_pos (shape idx : list Z) : Z :=
  match shape, idx with
  | _ :: shape', i :: idx' => i * size shape' + flat_pos shape' idx'
  | _, _ => 0
  end.

(** The buffer of an array has one element per grid point. *)
Definition array_ok {W : Type} (u : ndarray W) : bool :=
  (buffer_length (adata u) =? Z.to_nat (size (ashape u)))%nat.

Section views.
Context {W : Type} `{Arith W}.

(** The element of [u] at an in-range index. *)
Definition array_elem (u : ndarray W) (idx : list Z) : scalar W :=
  default (SInt 0) (buffer_get (adata u) (Z.to_nat (flat_pos (ashape u) idx))).

(** The sum of [weight * u[idx0 + offset]] over the pairs of a local
    stencil, added to [0.] in the order of the pairs. *)
Definition weighted_sum (u : ndarray W) (idx0 : list Z) (items : list (offset * W)) : W :=
  fold_left (fun du '(o, c) =>
               wadd du (wmul c (to_weight (array_elem u (zip_with Z.add idx0 o)))))
            items wzero.

(** Every offset of a local stencil has one component per axis and stays
    inside the grid when added to [idx0]. *)
Definition offsets_in_bounds (shape idx0 : list Z) (items : list (offset * W)) : bool :=
  forallb (fun oc => (length (fst oc) =? length idx0)%nat
                     && in_range shape (zip_with Z.add idx0 (fst oc))) items.

(** What a store of the float [v] into a buffer leaves there: the float
    itself, or its conversion to an integer. *)
Definition buffer_cast (b : buffer W) (v : W) : scalar W :=
  match b with
  | IntData _ => SInt (wtoZ v)
  | FloatData _ => SFloat v
  end.

(** Two stores that [apply] cannot tell apart: the same dictionaries and
    the same array behind [u]. *)
Definition same_inputs (u : loc) (s s' : heap W) : Prop :=
  tables s' = tables s /\ locals s' = locals s /\ arrays s' !! u = arrays s !! u.

(** A run that ends without an exception. *)
Definition succeeds {A : Type} (r : result A * heap W) : bool :=
  match fst r with
  | inr _ => true
  | inl _ => false
  end.

(** The offset tuple of a one-dimensional offset: [ndim] components, zero
    except at [axis]. *)
Definition unit_offset (ndim : nat) (axis off : Z) : list Z :=
  <[Z.to_nat axis := off]> (replicate ndim 0).

(** Adding a weight into a local stencil: it is summed with the weight
    already stored at the offset, if any. *)
Definition dict_add (D : list (offset * W)) (lo : offset) (w : W) : list (offset * W) :=
  match dict_get D lo with
  | Some w0 => dict_set D lo (wadd w0 w)
  | None => dict_set D lo w
  end.

Definition accumulate_all (D : list (offset * W)) (cs : list (offset * W))
    : list (offset * W) :=
  fold_left (fun D '(lo, w) => dict_add D lo w) cs D.

(** The weight a list of contributions leaves at one offset: the first
    contribution is stored, the later ones are added to it. *)
Definition summed (lo : offset) (cs : list (offset * W)) (w0 : option W) : option W :=
  fold_left (fun acc '(lo', w) =>
               if decide (lo' = lo)
               then Some (match acc with Some a => wadd a w | None => w end)
               else acc)
            cs w0.

(** The value of [c / h ** order] where it is computed without an
    exception. *)
Definition weight_of (h : W) (order : Z) (c : W) : W :=
  match Stencil.weight h order c with
  | inr w => w
  | inl _ => wzero
  end.

(** [c / h ** order] raises for no coefficient of the table. *)
Definition weights_defined (h : W) (order : Z) (ct : coef_table W) : bool :=
  forallb (fun c => match Stencil.weight h order c with
                    | inr _ => true
                    | inl _ => false
                    end)
          (sc_coefficients (forward ct) ++ sc_coefficients (center ct)
           ++ sc_coefficients (backward ct)).

(** The contributions of one scheme of the generator for an instance: each
    offset placed along [axis], each coefficient divided by [h ** order]. *)
Definition contributions (self : Stencil.t W) (sc : scheme_coefs W) : list (offset * W) :=
  map (fun '(off, c) =>
         (unit_offset (length (Stencil.shape self)) (Stencil.axis self) off,
          weight_of (Stencil.h self) (Stencil.order self) c))
      (zip (sc_offsets sc) (sc_coefficients sc)).

(** The scheme of a pattern: LOW -> forward, CENTER -> center,
    HIGH -> backward, by the symbol at [axis]. *)
Definition scheme_of_pattern (self : Stencil.t W) (ct : coef_table W) (pt : pattern)
    : scheme_coefs W :=
  match pt !! Z.to_nat (Stencil.axis self) with
  | Some LOW => forward ct
  | Some CENTER => center ct
  | Some HIGH => backward ct
  | None => forward ct
  end.

(** The local stencil of a pattern after construction, from the local
    stencil [D0] the seed had there. *)
Definition local_of (self : Stencil.t W) (ct : coef_table W) (pt : pattern)
    (D0 : list (offset * W)) : list (offset * W) :=
  accumulate_all D0 (contributions self (scheme_of_pattern self ct pt)).

(** The table after construction over the patterns [pts], from the seed's
    table [R]. *)
Definition create_view (self : Stencil.t W) (ct : coef_table W) (pts : list pattern)
    (R : list (pattern * list (offset * W))) : list (pattern * list (offset * W)) :=
  fold_left (fun R pt => dict_set R pt (local_of self ct pt (default [] (dict_get R pt))))
            pts R.

(** The content of an outer dictionary with its references followed. *)
Fixpoint resolve (ls : gmap loc (list (offset * W))) (T : list (pattern * loc))
    : option (list (pattern * list (offset * W))) :=
  match T with
  | [] => Some []
  | (p, l) :: T' =>
      match ls !! l, resolve ls T' with
      | Some D, Some R => Some ((p, D) :: R)
      | _, _ => None
      end
  end.

Definition table_view (s : heap W) (d : loc)
    : option (list (pattern * list (offset * W))) :=
  match tables s !! d with
  | Some T => resolve (locals s) T
  | None => None
  end.
(** The weight [_binaryop] leaves at an offset, from the weights of the two
    operands there: lines 186-189. *)
Definition merged_weight (op : W -> W -> W) (a b : option W) : option W :=
  match a, b with
  | Some x, Some y => Some (op x y)
  | Some x, None => Some x
  | None, Some y => Some (op (wofZ 0) y)
  | None, None => None
  end.

(** The same in the words of the specification: an offset missing from one
    side counts as weight zero. *)
Definition offsetwise (op : W -> W -> W) (a b : option W) : option W :=
  match a, b with
  | None, None => None
  | _, _ => Some (op (default (wofZ 0) a) (default (wofZ 0) b))
  end.

Definition merge_one (op : W -> W -> W) (D : list (offset * W)) (oc : offset * W)
    : list (offset * W) :=
  match dict_get D (fst oc) with
  | Some w => dict_set D (fst oc) (op w (snd oc))
  | None => dict_set D (fst oc) (op (wofZ 0) (snd oc))
  end.

(** A local stencil of the left operand after the inner loop over the
    items of the right operand's local stencil. *)
Definition merge_local (op : W -> W -> W) (D items : list (offset * W))
    : list (offset * W) :=
  fold_left (merge_one op) items D.

(** The table of the result, from the tables of the two operands. *)
Definition merge_view (op : W -> W -> W) (R Ro : list (pattern * list (offset * W)))
    : list (pattern * list (offset * W)) :=
  map (fun pD => (fst pD, merge_local op (snd pD) (default [] (dict_get Ro (fst pD))))) R.

(** The representation invariant of a table in the store: an outer
    dictionary [T] of pairwise distinct references to local dictionaries,
    with content [R]. *)
Definition stencil_ok (s : heap W) (d : loc) (T : list (pattern * loc))
    (R : list (pattern * list (offset * W))) : Prop :=
  tables s !! d = Some T
  /\ resolve (locals s) T = Some R
  /\ NoDup T.*1
  /\ NoDup T.*2
  /\ Forall (fun pD => NoDup (snd pD).*1) R.

(** The local stencil a table holds for a pattern. *)
Definition for_all_view (s : heap W) (d : loc) (p : pattern)
    : option (list (offset * W)) :=
  match table_view s d with
  | Some R => dict_get R p
  | None => None
  end.

(** The frame condition a copying constructor would satisfy: the seed's
    table reads as before and is not the table of the new instance. *)
Definition seed_untouched (s s' : heap W) (old st : Stencil.t W) : Prop :=
  table_view s' (Stencil.data old) = table_view s (Stencil.data old)
  /\ Stencil.data st <> Stencil.data old.
End views.

(** ** A running example: the first derivative on five points

    [Stencil((5,), 0, 1, 1.0, 2)] built in the empty store, next to the
    integer array [[0, 1, 2, 3, 4]], its float twin and the integer array
    [[0, 0, 1, 0, 0]], whose derivative is a half-integer at four points. *)
Definition ramp : ndarray float := NdArray [5] (IntData [0; 1; 2; 3; 4]).

Definition ramp_float : ndarray float :=
  NdArray [5] (FloatData [0%float; 1%float; 2%float; 3%float; 4%float]).

Definition bump : ndarray float := NdArray [5] (IntData [0; 0; 1; 0; 0]).

Definition example_stencil : Stencil.t float :=
  Stencil.Make [5] 0 1 1%float 2 1%positive.

Definition example_store : heap float :=
  snd ((let! _ := Stencil.__init__ coefficients [5] 0 1 1%float 2 None in
        let! _ := alloc_array ramp in
        let! _ := alloc_array ramp_float in
        alloc_array bump) empty_heap).

(** A three-point stencil to seed a second construction with. *)
Definition seed_stencil : Stencil.t float := Stencil.Make [3] 0 1 1%float 2 1%positive.

Definition seed_store : heap float :=
  snd (Stencil.__init__ coefficients [3] 0 1 1%float 2 None empty_heap).

(** Two three-point stencils in one store: spacing [1.0] and spacing [2.0]. *)
Definition coarse_stencil : Stencil.t float := Stencil.Make [3] 0 1 2%float 2 2%positive.

Definition wide_stencil : Stencil.t float := Stencil.Make [4] 0 1 1%float 2 3%positive.

Definition pair_store : heap float :=
  snd ((let! _ := Stencil.__init__ coefficients [3] 0 1 1%float 2 None in
        let! _ := Stencil.__init__ coefficients [3] 0 1 2%float 2 None in
        let! _ := Stencil.__init__ coefficients [4] 0 1 1%float 2 None in
        alloc_array ramp) empty_heap).

Definition seed_table : list (pattern * loc) :=
  [([LOW], 1%positive); ([CENTER], 2%positive); ([HIGH], 3%positive)].

Definition seed_view : list (pattern * list (offset * float)) :=
  [([LOW], [([0], (-1.5)%float); ([1], 2%float); ([2], (-0.5)%float)]);
   ([CENTER], [([-1], (-0.5)%float); ([0], 0%float); ([1], 0.5%float)]);
   ([HIGH], [([-2], 0.5%float); ([-1], (-2)%float); ([0], 1.5%float)])].

Definition coarse_table : list (pattern * loc) :=
  [([LOW], 4%positive); ([CENTER], 5%positive); ([HIGH], 6%positive)].

Definition coarse_view : list (pattern * list (offset * float)) :=
  [([LOW], [([0], (-0.75)%float); ([1], 1%float); ([2], (-0.25)%float)]);
   ([CENTER], [([-1], (-0.25)%float); ([0], 0%float); ([1], 0.25%float)]);
   ([HIGH], [([-2], 0.25%float); ([-1], (-1)%float); ([0], 0.75%float)])].

(** The smallest positive float, [5e-324], as a grid spacing. *)
Definition tiny : float := 0x1p-1074%float.

(** ** Views used in the further properties *)

(** A numpy index with its negative components counted from the end. *)
Definition wrap_index (shape idx : list Z) : list Z :=
  zip_with (fun n i => if i <? 0 then i + n else i) shape idx.

Section more_views.
Context {W : Type} `{Arith W}.

(** Every offset of a local stencil has one component per axis. *)
Definition offsets_full (idx0 : list Z) (items : list (offset * W)) : bool :=
  forallb (fun oc => (length (fst oc) =? length idx0)%nat) items.

(** Every target [idx0 + offset] is an index numpy accepts: each component
    within [-n, n) for the extent [n] of its axis. *)
Definition offsets_accepted (shape idx0 : list Z) (items : list (offset * W)) : bool :=
  forallb (fun oc => in_range shape (wrap_index shape (zip_with Z.add idx0 (fst oc)))) items.

(** The sum [apply] computes when targets may be negative: the element read
    for a target is the one at its wrapped index. *)
Definition wrapped_sum (u : ndarray W) (idx0 : list Z) (items : list (offset * W)) : W :=
  fold_left (fun du '(o, c) =>
               wadd du (wmul c (to_weight
                 (array_elem u (wrap_index (ashape u) (zip_with Z.add idx0 o))))))
            items wzero.
End more_views.

Section frames.
Context {W : Type}.

(** A computation keeps an invariant [P] of the store, however it ends, and
    its value, if any, satisfies [Q]. *)
Definition keeps {A : Type} (P : heap W -> Prop) (Q : A -> Prop) (m : M W A) : Prop :=
  forall s, P s -> P (snd (m s)) /\ forall a, fst (m s) = inr a -> Q a.

(** The store during a construction without a seed, relative to the store
    [s0] before it: the new table [d] refers to local stencils that did not
    exist in [s0], and everything of [s0] is still there. *)
Definition building (s0 : heap W) (d : loc) (s : heap W) : Prop :=
  (forall d0, d0 <> d -> tables s !! d0 = tables s0 !! d0)
  /\ arrays s = arrays s0
  /\ locals s0 ⊆ locals s
  /\ exists T, tables s !! d = Some T /\ forall l, l ∈ T.*2 -> locals s0 !! l = None.
End frames.

(** A one-axis stencil seeded with a two-axis one, and a one-axis stencil
    of its own, in one store: the table of the first also holds the nine
    two-letter patterns of its seed. *)
Definition mixed_store : heap float :=
  snd ((let! plane := Stencil.__init__ coefficients [3; 3] 0 1 1%float 2 None in
        let! _ := Stencil.__init__ coefficients [3] 0 1 1%float 2 (Some plane) in
        Stencil.__init__ coefficients [3] 0 1 1%float 2 None) empty_heap).

Definition mixed_stencil : Stencil.t float := Stencil.Make [3] 0 1 1%float 2 1%positive.

Definition plain_stencil : Stencil.t float := Stencil.Make [3] 0 1 1%float 2 2%positive.

Definition mixed_table : list (pattern * loc) :=
  default [] (tables mixed_store !! Stencil.data mixed_stencil).

Definition mixed_view : list (pattern * list (offset * float)) :=
  default [] (resolve (locals mixed_store) mixed_table).

Definition plain_table : list (pattern * loc) :=
  default [] (tables mixed_store !! Stencil.data plain_stencil).

Definition plain_view : list (pattern * list (offset * float)) :=
  default [] (resolve (locals mixed_store) plain_table).

(** A two-point grid, too short for the three-point schemes. *)
Definition short_stencil : Stencil.t float := Stencil.Make [2] 0 1 1%float 2 1%positive.

(** The integer array [[0, 1, 3, 2, 0]] beside the five-point stencil: its
    derivative is [1.5] at index [1] and [-1.5] at index [3]. *)
Definition hill : ndarray float := NdArray [5] (IntData [0; 1; 3; 2; 0]).

Definition hill_store : heap float :=
  snd ((let! _ := Stencil.__init__ coefficients [5] 0 1 1%float 2 None in
        alloc_array hill) empty_heap).

Definition short_array : ndarray float := NdArray [2] (FloatData [10%float; 20%float]).

Definition short_store : heap float :=
  snd ((let! _ := Stencil.__init__ coefficients [2] 0 1 1%float 2 None in
        alloc_array short_array) empty_heap).

(** * Properties

    ** Dictionaries *)

Section dict_facts.
Context {K V : Type} `{EqDecision K}.
Implicit Types (d : list (K * V)) (k : K) (v : V).

Lemma dict_get_set_eq d k v : dict_get (dict_set d k v) k = Some v.
Proof.
  induction d as [|[k' v'] d IH]; simpl.
  - by rewrite decide_True.
  - destruct (decide (k = k')) as [->|Hne]; simpl.
    + by rewrite decide_True.
    + by rewrite decide_False.
Qed.

Lemma dict_get_set_ne d k k' v :
  k <> k' -> dict_get (dict_set d k v) k' = dict_get d k'.
Proof.
  intros Hne. induction d as [|[k0 v0] d IH]; simpl.
  - rewrite decide_False; [done | congruence].
  - destruct (decide (k = k0)) as [->|Hne0]; simpl.
    + rewrite !decide_False; [done | congruence | congruence].
    + destruct (decide (k' = k0)); [done | apply IH].
Qed.

Lemma dict_get_None d k : dict_get d k = None <-> k ∉ d.*1.
Proof.
  induction d as [|[k' v'] d IH]; simpl.
  - split; [intros _; apply not_elem_of_nil | done].
  - destruct (decide (k = k')) as [->|Hne].
    + split; [done | intros Hn; destruct Hn; left].
    + rewrite IH. rewrite not_elem_of_cons. tauto.
Qed.

Lemma dict_get_Some_elem d k v : dict_get d k = Some v -> (k, v) ∈ d.
Proof.
  induction d as [|[k' v'] d IH]; simpl; [done|].
  destruct (decide (k = k')) as [->|Hne].
  - intros [= ->]. left.
  - intros Hd. right. by apply IH.
Qed.

Lemma dict_get_is_Some d k : is_Some (dict_get d k) <-> k ∈ d.*1.
Proof.
  rewrite <- not_eq_None_Some, dict_get_None.
  split; [apply dec_stable | tauto].
Qed.

(** Setting a missing key appends it. *)
Lemma dict_set_fresh d k v : dict_get d k = None -> dict_set d k v = d ++ [(k, v)].
Proof.
  induction d as [|[k' v'] d IH]; simpl; [done|].
  destruct (decide (k = k')); [done|]. intros Hd. by rewrite IH.
Qed.

(** Storing back the value a key already has changes nothing. *)
Lemma dict_set_same d k v : dict_get d k = Some v -> dict_set d k v = d.
Proof.
  induction d as [|[k' v'] d IH]; simpl; [done|].
  destruct (decide (k = k')) as [->|Hne].
  - by intros [= ->].
  - intros Hd. by rewrite IH.
Qed.

Lemma dict_set_keys_present d k v :
  is_Some (dict_get d k) -> (dict_set d k v).*1 = d.*1.
Proof.
  induction d as [|[k' v'] d IH]; simpl.
  - by intros [? ?].
  - destruct (decide (k = k')) as [->|Hne]; [done|].
    intros Hd. rewrite !fmap_cons. f_equal. by apply IH.
Qed.

Lemma dict_set_NoDup d k v : NoDup d.*1 -> NoDup (dict_set d k v).*1.
Proof.
  intros Hd. destruct (dict_get d k) as [w|] eqn:E.
  - rewrite dict_set_keys_present; [done | by rewrite E].
  - rewrite dict_set_fresh by done. rewrite fmap_app. simpl.
    apply NoDup_app. split; [done|]. split.
    + intros x Hx Hx'. apply list_elem_of_singleton in Hx' as ->.
      by apply dict_get_None in E.
    + apply NoDup_singleton.
Qed.
End dict_facts.

(** ** The monad *)

Section monad_facts.
Context {W : Type}.

Lemma bind_inr {A B : Type} (m : M W A) (f : A -> M W B) s a s' :
  m s = (inr a, s') -> bind m f s = f a s'.
Proof. intros Hm. unfold bind. by rewrite Hm. Qed.

Lemma bind_lift_inr {A B : Type} (r : result A) (f : A -> M W B) s a :
  r = inr a -> bind (lift r) f s = f a s.
Proof. by intros ->. Qed.
End monad_facts.

Lemma rmap_inr {A B : Type} (f : A -> result B) (g : A -> B) (l : list A) :
  (forall x, x ∈ l -> f x = inr (g x)) -> rmap f l = inr (map g l).
Proof.
  induction l as [|x l IH]; intros Hf; simpl; [done|].
  rewrite Hf by left. simpl. rewrite IH; [done|].
  intros y Hy. apply Hf. by right.
Qed.

(** ** Boundary classification *)

Lemma in_range_length shape idx : in_range shape idx = true -> length idx = length shape.
Proof.
  revert idx. induction shape as [|n shape IH]; intros [|i idx]; simpl; try done.
  rewrite andb_true_iff. intros [_ Hr]. f_equal. by apply IH.
Qed.

Section classification.
Context {W : Type}.
Implicit Types (self : Stencil.t W) (idx : list Z).

(** The loop of [type_for_point] on an index no longer than the shape. *)
Lemma type_for_point_run self idx :
  (length idx <= length (Stencil.shape self))%nat ->
  Stencil.type_for_point self (IdxTuple idx)
  = inr (map (fun a => sym_of (default 0 (idx !! a)) (default 0 (Stencil.shape self !! a)))
             (seq 0 (length idx))).
Proof.
  intros Hlen. unfold Stencil.type_for_point. apply rmap_inr.
  intros a Ha. apply elem_of_seq in Ha as [_ Ha]. simpl in Ha.
  destruct (lookup_lt_is_Some_2 idx a) as [i Hi]; [lia|].
  destruct (lookup_lt_is_Some_2 (Stencil.shape self) a) as [n Hn]; [lia|].
  rewrite Hi, Hn. simpl. unfold sym_of.
  destruct (i =? 0); [done|]. simpl. by destruct (i =? n - 1).
Qed.

(** C3: for an in-range index with one component per axis,
    [type_for_point] returns a pattern of the same length whose symbol at
    axis [a] is LOW when [idx[a] = 0], HIGH when [idx[a] = shape[a] - 1]
    and [idx[a] <> 0], and CENTER otherwise; the only index of a
    one-point axis is LOW; and the pattern depends on the instance through
    its shape only. *)
Theorem type_for_point_classifies self idx :
  in_range (Stencil.shape self) idx = true ->
  exists typ,
    Stencil.type_for_point self (IdxTuple idx) = inr typ
    /\ length typ = length idx
    /\ (forall a i n,
          idx !! a = Some i -> Stencil.shape self !! a = Some n ->
          (i = 0 -> typ !! a = Some LOW)
          /\ (i = n - 1 -> i <> 0 -> typ !! a = Some HIGH)
          /\ (i <> 0 -> i <> n - 1 -> typ !! a = Some CENTER))
    /\ (forall a,
          idx !! a = Some 0 -> Stencil.shape self !! a = Some 1 ->
          typ !! a = Some LOW)
    /\ (forall other : Stencil.t W,
          Stencil.shape other = Stencil.shape self ->
          Stencil.type_for_point other (IdxTuple idx) = inr typ).
Proof.
  intros Hr. pose proof (in_range_length _ _ Hr) as Hlen.
  eexists. split; [apply type_for_point_run; lia|].
  assert (Hat : forall a i n,
    idx !! a = Some i -> Stencil.shape self !! a = Some n ->
    map (fun a => sym_of (default 0 (idx !! a)) (default 0 (Stencil.shape self !! a)))
        (seq 0 (length idx)) !! a = Some (sym_of i n)).
  { intros a i n Hi Hn. rewrite list_lookup_fmap.
    rewrite lookup_seq_lt by (by apply lookup_lt_Some in Hi).
    simpl. by rewrite Hi, Hn. }
  split; [by rewrite length_map, length_seq|].
  split; [|split].
  - intros a i n Hi Hn. rewrite (Hat a i n Hi Hn). unfold sym_of.
    repeat split.
    + intros ->. done.
    + intros -> Hne. rewrite Z.eqb_refl.
      destruct (n - 1 =? 0) eqn:E; [apply Z.eqb_eq in E; lia | done].
    + intros Hne1 Hne2.
      destruct (i =? 0) eqn:E1; [apply Z.eqb_eq in E1; lia|].
      destruct (i =? n - 1) eqn:E2; [apply Z.eqb_eq in E2; lia | done].
  - intros a Hi Hn. by rewrite (Hat a 0 1 Hi Hn).
  - intros other Hs. rewrite type_for_point_run by (rewrite Hs; lia).
    by rewrite Hs.
Qed.
End classification.

(** The last point of a 5 x 1 grid: HIGH along the first axis, LOW along
    the one-point axis. *)
Lemma type_for_point_classifies_witness :
  in_range [5; 1] [4; 0] = true
  /\ exists typ,
       Stencil.type_for_point (Stencil.Make [5; 1] 0 1 1%float 2 1%positive)
         (IdxTuple [4; 0]) = inr typ
       /\ typ !! 0%nat = Some HIGH /\ typ !! 1%nat = Some LOW.
Proof.
  split; [reflexivity|].
  destruct (type_for_point_classifies
              (Stencil.Make [5; 1] 0 1 1%float 2 1%positive) [4; 0] eq_refl)
    as (typ & Hrun & _ & Hcases & Hone & _).
  exists typ. split; [exact Hrun|]. split.
  - apply (Hcases 0%nat 4 5); [reflexivity | reflexivity | reflexivity | lia].
  - apply Hone; reflexivity.
Defined.

Lemma classify_map_zip shape idx :
  length idx = length shape ->
  map (fun a => sym_of (default 0 (idx !! a)) (default 0 (shape !! a)))
      (seq 0 (length idx))
  = pattern_of shape idx.
Proof.
  intros Hlen. unfold pattern_of. apply list_eq. intros a.
  rewrite list_lookup_fmap, lookup_zip_with.
  destruct (decide (a < length idx)%nat) as [Ha|Ha].
  - rewrite lookup_seq_lt by done. simpl.
    destruct (lookup_lt_is_Some_2 idx a) as [i Hi]; [lia|].
    destruct (lookup_lt_is_Some_2 shape a) as [n Hn]; [lia|].
    by rewrite Hi, Hn.
  - rewrite lookup_seq_ge by lia. simpl.
    by rewrite (lookup_ge_None_2 idx a) by lia.
Qed.

Section apply_classification.
Context {W : Type} `{Arith W}.
Implicit Types (self : Stencil.t W) (idx : list Z) (s : heap W).

Lemma apply_typ_type_for_point self idx :
  length idx = length (Stencil.shape self) ->
  Stencil.apply_typ self idx = Stencil.type_for_point self (IdxTuple idx).
Proof.
  intros Hlen. unfold Stencil.apply_typ, Stencil.type_for_point. by rewrite Hlen.
Qed.

Lemma apply_typ_run self idx :
  length idx = length (Stencil.shape self) ->
  Stencil.apply_typ self idx = inr (pattern_of (Stencil.shape self) idx).
Proof.
  intros Hlen. rewrite apply_typ_type_for_point by done.
  rewrite type_for_point_run by lia. by rewrite classify_map_zip.
Qed.

(** C10: on an in-range tuple with one component per axis the pattern that
    [apply] computes inline is the one [type_for_point] returns, and
    [apply] is [for_point] followed by the weighted sum over the local
    stencil [for_point] returned. *)
Theorem apply_uses_for_point self (u : loc) idx s :
  in_range (Stencil.shape self) idx = true ->
  Stencil.apply_typ self (Stencil.apply_tuple (IdxTuple idx))
  = Stencil.type_for_point self (IdxTuple idx)
  /\ Stencil.apply self u (IdxTuple idx) s
     = (let! stl := Stencil.for_point self (IdxTuple idx) in
        Stencil.apply_sum stl u idx) s.
Proof.
  intros Hr. apply in_range_length in Hr.
  split; [by apply apply_typ_type_for_point|].
  unfold Stencil.apply, Stencil.for_point. simpl Stencil.apply_tuple.
  rewrite apply_typ_type_for_point by done.
  unfold bind, lift.
  destruct (Stencil.type_for_point self (IdxTuple idx)) as [e|typ]; [done|].
  by destruct (read_table (Stencil.data self) s) as [[e|T] s'].
Qed.
End apply_classification.

(** The corner point of a 3 x 3 grid in a store where the instance has no
    table yet: both sides stop at the same failed lookup. *)
Lemma apply_uses_for_point_witness :
  in_range [3; 3] [0; 2] = true
  /\ Stencil.apply_typ (Stencil.Make [3; 3] 1 1 1%float 2 1%positive)
       (Stencil.apply_tuple (IdxTuple [0; 2]))
     = inr [LOW; HIGH].
Proof.
  split; [reflexivity|].
  destruct (apply_uses_for_point
              (Stencil.Make [3; 3] 1 1 1%float 2 1%positive) 1%positive [0; 2]
              empty_heap eq_refl) as [Htyp _].
  rewrite Htyp. reflexivity.
Defined.

(** ** Array indexing *)

Lemma ravel_in_range shape idx :
  in_range shape idx = true ->
  ravel shape idx = Some (flat_pos shape idx)
  /\ 0 <= flat_pos shape idx < size shape.
Proof.
  revert idx. induction shape as [|n shape IH]; intros [|i idx]; simpl; try done.
  rewrite !andb_true_iff. intros [[Hlo Hhi] Hr].
  apply Z.leb_le in Hlo. apply Z.ltb_lt in Hhi.
  destruct (IH idx Hr) as [-> Hb]. unfold norm_index.
  destruct (i <? 0) eqn:E; [apply Z.ltb_lt in E; lia|].
  assert ((0 <=? i) && (i <? n) = true) as ->.
  { apply andb_true_iff. split; [by apply Z.leb_le | by apply Z.ltb_lt]. }
  split; [done|]. nia.
Qed.

Section indexing.
Context {W : Type} `{Arith W}.
Implicit Types (u : ndarray W) (idx : list Z).

Lemma buffer_get_lt (b : buffer W) pos :
  (pos < buffer_length b)%nat -> is_Some (buffer_get b pos).
Proof.
  destruct b as [l|l]; simpl; intros Hlt;
    destruct (lookup_lt_is_Some_2 l pos Hlt) as [x ->]; by eexists.
Qed.

Lemma np_getitem_in_range u idx :
  array_ok u = true -> in_range (ashape u) idx = true ->
  np_getitem u idx = inr (array_elem u idx).
Proof.
  intros Hok Hr. unfold np_getitem, array_elem.
  pose proof (in_range_length _ _ Hr) as Hlen.
  destruct (ravel_in_range _ _ Hr) as [-> Hb].
  rewrite Hlen, Nat.ltb_irrefl.
  apply Nat.eqb_eq in Hok.
  destruct (buffer_get_lt (adata u) (Z.to_nat (flat_pos (ashape u) idx))) as [x ->];
    [lia | done].
Qed.
End indexing.

(** ** Application at one point *)

Section apply_facts.
Context {W : Type} `{Arith W}.
Implicit Types (self : Stencil.t W) (s : heap W) (u stl : loc).

Lemma apply_term_run s u ua idx0 o c du :
  arrays s !! u = Some ua -> array_ok ua = true ->
  length o = length idx0 ->
  in_range (ashape ua) (zip_with Z.add idx0 o) = true ->
  Stencil.apply_term u idx0 du (o, c) s
  = (inr (wadd du (wmul c (to_weight (array_elem ua (zip_with Z.add idx0 o))))), s).
Proof.
  intros Hu Hok Hlen Hr.
  unfold Stencil.apply_term, bind, lift, read_array, ret, np_add.
  rewrite <- Hlen, Nat.eqb_refl, Hu. simpl.
  by rewrite np_getitem_in_range.
Qed.

(** The loop of [apply] neither fails nor writes when every offset stays
    inside the array. *)
Lemma apply_loop_run s u ua idx0 items du :
  arrays s !! u = Some ua -> array_ok ua = true ->
  offsets_in_bounds (ashape ua) idx0 items = true ->
  foldM (Stencil.apply_term u idx0) items du s
  = (inr (fold_left (fun du '(o, c) =>
            wadd du (wmul c (to_weight (array_elem ua (zip_with Z.add idx0 o)))))
          items du), s).
Proof.
  intros Hu Hok. revert du. induction items as [|[o c] items IH]; intros du; simpl; [done|].
  rewrite !andb_true_iff. intros [[Hlen Hr] Hrest].
  apply Nat.eqb_eq in Hlen.
  rewrite (bind_inr _ _ _ _ _ (apply_term_run s u ua idx0 o c du Hu Hok Hlen Hr)).
  by apply IH.
Qed.

(** C4: when [u] has the shape of the grid, [idx0] is an in-range index (a
    bare integer on a one-axis grid or a tuple) and every offset of the
    local stencil of [idx0]'s pattern stays in bounds, [apply] returns the
    sum of [weight * u[idx0 + offset]] over that local stencil and leaves
    the store, hence [u], as it was; the value depends on the store only
    through the table, the local stencil and [u]. *)
Theorem apply_weighted_sum self s u ua idx0 T stl items :
  arrays s !! u = Some ua ->
  array_ok ua = true ->
  ashape ua = Stencil.shape self ->
  in_range (Stencil.shape self) (Stencil.apply_tuple idx0) = true ->
  tables s !! Stencil.data self = Some T ->
  dict_get T (pattern_of (Stencil.shape self) (Stencil.apply_tuple idx0)) = Some stl ->
  locals s !! stl = Some items ->
  offsets_in_bounds (Stencil.shape self) (Stencil.apply_tuple idx0) items = true ->
  Stencil.apply self u idx0 s
  = (inr (weighted_sum ua (Stencil.apply_tuple idx0) items), s)
  /\ (forall s' : heap W,
        tables s' !! Stencil.data self = Some T ->
        locals s' !! stl = Some items ->
        arrays s' !! u = Some ua ->
        fst (Stencil.apply self u idx0 s') = fst (Stencil.apply self u idx0 s)).
Proof.
  intros Hu Hok Hshape Hr HT Hstl Hitems Hb.
  assert (Hrun : forall s0 : heap W,
    tables s0 !! Stencil.data self = Some T ->
    locals s0 !! stl = Some items ->
    arrays s0 !! u = Some ua ->
    Stencil.apply self u idx0 s0
    = (inr (weighted_sum ua (Stencil.apply_tuple idx0) items), s0)).
  { intros s0 HT0 Hitems0 Hu0. unfold Stencil.apply.
    rewrite (bind_lift_inr _ _ _ _ (apply_typ_run self _ (in_range_length _ _ Hr))).
    unfold bind at 1. unfold read_table at 1. rewrite HT0. simpl.
    rewrite (bind_lift_inr _ _ _ stl) by (by rewrite Hstl).
    unfold Stencil.apply_sum, bind at 1. unfold read_local at 1. rewrite Hitems0. simpl.
    apply (apply_loop_run s0 u ua); [done | done | by rewrite Hshape]. }
  split; [by apply Hrun|].
  intros s' HT' Hitems' Hu'. by rewrite (Hrun s'), (Hrun s).
Qed.
End apply_facts.

(** The forward stencil at the left end of the ramp: [-1.5 * 0 + 2 * 1 - 0.5 * 2]. *)
Lemma apply_weighted_sum_witness :
  Stencil.apply example_stencil 1%positive (IdxInt 0) example_store
  = (inr 1%float, example_store).
Proof.
  destruct (apply_weighted_sum example_stencil example_store 1%positive ramp (IdxInt 0)
              [([LOW], 1%positive); ([CENTER], 2%positive); ([HIGH], 3%positive)]
              1%positive
              [([0], (-1.5)%float); ([1], 2%float); ([2], (-0.5)%float)])
    as [Hrun _]; [vm_compute; reflexivity ..|].
  rewrite Hrun. reflexivity.
Defined.

(** ** The example scenario *)

(** C8: for [Stencil((5,), 0, 1, 1.0, 2)] over the second-order table of
    the generator, [apply_all] on [[0, 1, 2, 3, 4]] is [[1, 1, 1, 1, 1]],
    for the integer array as for its float twin, and the two one-sided
    values at the ends are exactly [1.0]. *)
Theorem apply_all_ramp :
  fst ((let! st := Stencil.__init__ coefficients [5] 0 1 1%float 2 None in
        let! u := alloc_array ramp in
        let! du := Stencil.apply_all st u in
        read_array du) empty_heap)
  = inr (NdArray [5] (IntData [1; 1; 1; 1; 1]))
  /\ fst ((let! st := Stencil.__init__ coefficients [5] 0 1 1%float 2 None in
           let! u := alloc_array ramp_float in
           let! du := Stencil.apply_all st u in
           read_array du) empty_heap)
     = inr (NdArray [5] (FloatData [1%float; 1%float; 1%float; 1%float; 1%float]))
  /\ fst ((let! st := Stencil.__init__ coefficients [5] 0 1 1%float 2 None in
           let! u := alloc_array ramp in
           let! lo := Stencil.apply st u (IdxInt 0) in
           let! hi := Stencil.apply st u (IdxInt 4) in
           ret (lo, hi)) empty_heap)
     = inr (1%float, 1%float).
Proof. repeat split; vm_compute; reflexivity. Qed.

(** ** [apply] only reads *)

Section apply_frame.
Context {W : Type} `{Arith W}.
Implicit Types (self : Stencil.t W) (s : heap W) (u stl : loc).

Lemma same_inputs_refl u s : same_inputs u s s.
Proof. done. Qed.

Lemma apply_term_frame u idx0 du oc s s' :
  same_inputs u s s' ->
  Stencil.apply_term u idx0 du oc s'
  = (fst (Stencil.apply_term u idx0 du oc s), s').
Proof.
  intros (_ & _ & Hu). destruct oc as [o c].
  unfold Stencil.apply_term, bind, lift, read_array, ret. rewrite Hu.
  destruct (np_add idx0 o) as [e|idx]; [done|].
  destruct (arrays s !! u) as [ua|]; simpl; [|done].
  by destruct (np_getitem ua idx).
Qed.

Lemma apply_loop_frame u idx0 items du s s' :
  same_inputs u s s' ->
  foldM (Stencil.apply_term u idx0) items du s'
  = (fst (foldM (Stencil.apply_term u idx0) items du s), s').
Proof.
  intros Hs. revert du. induction items as [|oc items IH]; intros du; simpl; [done|].
  unfold bind.
  rewrite (apply_term_frame u idx0 du oc s s' Hs).
  rewrite (apply_term_frame u idx0 du oc s s (same_inputs_refl u s)).
  destruct (fst (Stencil.apply_term u idx0 du oc s)) as [e|du']; [done|].
  apply IH.
Qed.

(** [apply] returns the store it was given, and its value depends on the
    store only through the dictionaries and the array [u]. *)
Lemma apply_frame self u idx0 s s' :
  same_inputs u s s' ->
  Stencil.apply self u idx0 s' = (fst (Stencil.apply self u idx0 s), s').
Proof.
  intros Hs. pose proof Hs as (HT & HL & _).
  unfold Stencil.apply, Stencil.apply_sum, bind, lift, read_table, read_local.
  rewrite HT, HL.
  destruct (Stencil.apply_typ self (Stencil.apply_tuple idx0)) as [e|typ]; [done|].
  destruct (tables s !! Stencil.data self) as [T|]; simpl; [|done].
  destruct (dict_get T typ) as [stl|]; simpl; [|done].
  destruct (locals s !! stl) as [items|]; simpl; [|done].
  apply apply_loop_frame, Hs.
Qed.

Lemma apply_readonly self u idx0 s :
  snd (Stencil.apply self u idx0 s) = s.
Proof. by rewrite (apply_frame self u idx0 s s (same_inputs_refl u s)). Qed.
End apply_frame.

(** ** The indices of [apply_all] *)

Lemma elem_of_range n i : i ∈ range n -> 0 <= i < n.
Proof.
  unfold range. rewrite list_elem_of_fmap. intros (k & -> & Hk).
  apply elem_of_seq in Hk. lia.
Qed.

Lemma product_in_range shape idx :
  idx ∈ product (map range shape) -> in_range shape idx = true.
Proof.
  revert idx. induction shape as [|n shape IH]; intros idx; simpl.
  - by intros ->%list_elem_of_singleton.
  - rewrite list_elem_of_In, in_flat_map. intros (i & Hi & Hidx).
    apply list_elem_of_In, elem_of_range in Hi.
    apply list_elem_of_In, list_elem_of_fmap in Hidx as (idx' & -> & Hidx').
    simpl. rewrite (IH idx' Hidx'), andb_true_r.
    apply andb_true_iff. split; [apply Z.leb_le | apply Z.ltb_lt]; lia.
Qed.

Lemma range_complete n i : 0 <= i < n -> i ∈ range n.
Proof.
  intros Hi. unfold range. apply list_elem_of_fmap. exists (Z.to_nat i).
  split; [lia|]. apply elem_of_seq. lia.
Qed.

Lemma in_range_product shape idx :
  in_range shape idx = true -> idx ∈ product (map range shape).
Proof.
  revert idx. induction shape as [|n shape IH]; intros [|i idx]; simpl; try done.
  - intros _. by apply list_elem_of_singleton.
  - intros [[Hlo Hhi]%andb_true_iff Hr]%andb_true_iff.
    apply Z.leb_le in Hlo. apply Z.ltb_lt in Hhi.
    apply list_elem_of_In, in_flat_map. exists i.
    split; [apply list_elem_of_In, range_complete; lia|].
    apply list_elem_of_In, list_elem_of_fmap. exists idx. split; [done | by apply IH].
Qed.

(** [indices] holds every index of the grid. *)
Lemma all_indices_complete shape idx :
  in_range shape idx = true ->
  exists i, i ∈ Stencil.all_indices shape /\ Stencil.apply_tuple i = idx.
Proof.
  intros Hr. unfold Stencil.all_indices.
  destruct (length shape =? 1)%nat eqn:E.
  - apply Nat.eqb_eq in E. destruct shape as [|n [|? ?]]; try done.
    destruct idx as [|i [|? ?]]; simpl in Hr; try done.
    + exists (IdxInt i). split; [|done]. simpl. apply list_elem_of_fmap.
      exists i. split; [done|]. apply range_complete.
      rewrite andb_true_r in Hr. apply andb_true_iff in Hr as [Hlo Hhi].
      apply Z.leb_le in Hlo. apply Z.ltb_lt in Hhi. lia.
    + by rewrite andb_false_r in Hr.
  - exists (IdxTuple idx). split; [|done]. apply list_elem_of_fmap.
    exists idx. split; [done | by apply in_range_product].
Qed.

Lemma all_indices_in_range shape idx :
  idx ∈ Stencil.all_indices shape ->
  in_range shape (Stencil.apply_tuple idx) = true.
Proof.
  unfold Stencil.all_indices.
  destruct (length shape =? 1)%nat eqn:E.
  - apply Nat.eqb_eq in E. destruct shape as [|n [|? ?]]; try done. simpl.
    rewrite list_elem_of_fmap. intros (i & -> & Hi). apply elem_of_range in Hi.
    simpl. rewrite andb_true_r.
    apply andb_true_iff. split; [apply Z.leb_le | apply Z.ltb_lt]; lia.
  - rewrite list_elem_of_fmap. intros (t & -> & Ht). by apply product_in_range.
Qed.

Lemma flat_pos_inj shape idx1 idx2 :
  in_range shape idx1 = true -> in_range shape idx2 = true ->
  flat_pos shape idx1 = flat_pos shape idx2 -> idx1 = idx2.
Proof.
  revert idx1 idx2.
  induction shape as [|n shape IH]; intros [|i1 idx1] [|i2 idx2]; simpl; try done.
  rewrite !andb_true_iff. intros [[Hlo1 Hhi1] Hr1] [[Hlo2 Hhi2] Hr2] Heq.
  destruct (ravel_in_range _ _ Hr1) as [_ Hb1].
  destruct (ravel_in_range _ _ Hr2) as [_ Hb2].
  assert (i1 = i2) as -> by nia.
  f_equal. apply IH; [done | done | lia].
Qed.

(** ** Stores into an array *)

Section setitem.
Context {W : Type} `{Arith W}.
Implicit Types (a : ndarray W) (b : buffer W) (v : W).

Lemma buffer_set_length b pos v : buffer_length (buffer_set b pos v) = buffer_length b.
Proof. destruct b; simpl; apply length_insert. Qed.

Lemma buffer_set_dtype b pos v : buffer_dtype (buffer_set b pos v) = buffer_dtype b.
Proof. by destruct b. Qed.

Lemma buffer_cast_set b pos v w : buffer_cast (buffer_set b pos v) w = buffer_cast b w.
Proof. by destruct b. Qed.

Lemma buffer_get_set_eq b pos v :
  (pos < buffer_length b)%nat ->
  buffer_get (buffer_set b pos v) pos = Some (buffer_cast b v).
Proof. destruct b; simpl; intros Hlt; by rewrite list_lookup_insert_eq. Qed.

Lemma buffer_get_set_ne b pos pos' v :
  pos <> pos' -> buffer_get (buffer_set b pos v) pos' = buffer_get b pos'.
Proof. destruct b; simpl; intros Hne; by rewrite list_lookup_insert_ne. Qed.

Lemma np_setitem_in_range a idx v :
  array_ok a = true -> in_range (ashape a) (Stencil.apply_tuple idx) = true ->
  np_setitem a idx v
  = inr (NdArray (ashape a)
           (buffer_set (adata a)
              (Z.to_nat (flat_pos (ashape a) (Stencil.apply_tuple idx))) v)).
Proof.
  intros Hok Hr. unfold np_setitem. fold (Stencil.apply_tuple idx).
  pose proof (in_range_length _ _ Hr) as Hlen.
  destruct (ravel_in_range _ _ Hr) as [-> Hb].
  rewrite Hlen, Nat.ltb_irrefl.
  apply Nat.eqb_eq in Hok.
  assert ((Z.to_nat (flat_pos (ashape a) (Stencil.apply_tuple idx))
           <? buffer_length (adata a))%nat = true) as ->; [|done].
  apply Nat.ltb_lt. lia.
Qed.

(** Reading an in-range element after a store at an in-range index. *)
Lemma array_elem_set a t t' v :
  array_ok a = true ->
  in_range (ashape a) t = true -> in_range (ashape a) t' = true ->
  array_elem (NdArray (ashape a)
                (buffer_set (adata a) (Z.to_nat (flat_pos (ashape a) t)) v)) t'
  = if decide (t = t') then buffer_cast (adata a) v else array_elem a t'.
Proof.
  intros Hok Hr Hr'. unfold array_elem. simpl.
  destruct (ravel_in_range _ _ Hr) as [_ Hb].
  destruct (ravel_in_range _ _ Hr') as [_ Hb'].
  apply Nat.eqb_eq in Hok.
  destruct (decide (t = t')) as [<-|Hne].
  - rewrite buffer_get_set_eq by lia. done.
  - rewrite buffer_get_set_ne; [done|].
    intros Heq. apply Hne. apply (flat_pos_inj (ashape a)); [done | done | lia].
Qed.
End setitem.

(** ** Application at every point *)

Section apply_all_facts.
Context {W : Type} `{Arith W}.
Implicit Types (self : Stencil.t W) (s : heap W) (u du : loc) (a : ndarray W).

Lemma apply_tuple_idem self u idx s :
  Stencil.apply self u (IdxTuple (Stencil.apply_tuple idx)) s = Stencil.apply self u idx s.
Proof. done. Qed.

(** The loop of [apply_all]: every turn reads [u] and the dictionaries as
    they were before the loop and overwrites one cell of [du]. *)
Lemma apply_all_loop self u du T L A indices a :
  du <> u ->
  array_ok a = true ->
  (forall idx, idx ∈ indices ->
     in_range (ashape a) (Stencil.apply_tuple idx) = true
     /\ succeeds (Stencil.apply self u idx (Heap T L A)) = true) ->
  exists a',
    forM_ indices (Stencil.apply_store self u du) (Heap T L (<[du := a]> A))
    = (inr tt, Heap T L (<[du := a']> A))
    /\ ashape a' = ashape a
    /\ array_ok a' = true
    /\ buffer_dtype (adata a') = buffer_dtype (adata a)
    /\ forall t, in_range (ashape a) t = true ->
         (forall v, t ∈ map Stencil.apply_tuple indices ->
                    fst (Stencil.apply self u (IdxTuple t) (Heap T L A)) = inr v ->
                    array_elem a' t = buffer_cast (adata a) v)
         /\ (t ∉ map Stencil.apply_tuple indices -> array_elem a' t = array_elem a t).
Proof.
  intros Hne. revert a. induction indices as [|idx rest IH]; intros a Hok Hall.
  - exists a. simpl. repeat split; try done.
    intros v Hin. by apply elem_of_nil in Hin.
  - destruct (Hall idx) as [Hr Hsucc]; [left|].
    unfold succeeds in Hsucc.
    destruct (fst (Stencil.apply self u idx (Heap T L A))) as [e|v] eqn:Hv; [done|].
    assert (Hsame : same_inputs u (Heap T L A) (Heap T L (<[du := a]> A))).
    { repeat split; simpl. by rewrite lookup_insert_ne. }
    set (a1 := NdArray (ashape a)
                 (buffer_set (adata a)
                    (Z.to_nat (flat_pos (ashape a) (Stencil.apply_tuple idx))) v)).
    assert (Hok1 : array_ok a1 = true).
    { unfold array_ok, a1 in *. simpl. by rewrite buffer_set_length. }
    destruct (IH a1 Hok1) as (a' & Hrun & Hshape & Hok' & Hdt & Helem).
    { intros idx' Hin. apply Hall. by right. }
    exists a'. split; [|split; [done | split; [done | split]]].
    + simpl. unfold bind at 1. unfold Stencil.apply_store at 1. unfold bind at 1.
      rewrite (apply_frame self u idx _ _ Hsame), Hv.
      unfold bind at 1. unfold read_array at 1. simpl arrays.
      rewrite lookup_insert_eq. simpl.
      unfold bind at 1. unfold lift at 1.
      rewrite (np_setitem_in_range a idx v Hok Hr). fold a1.
      unfold write_array. simpl. rewrite insert_insert_eq. exact Hrun.
    + rewrite Hdt. unfold a1. simpl. apply buffer_set_dtype.
    + intros t Ht. simpl in Hshape.
      destruct (Helem t Ht) as [Hin Hout].
      split.
      * intros w Hmem Hw. simpl in Hmem.
        destruct (decide (t ∈ map Stencil.apply_tuple rest)) as [Hrest|Hrest].
        -- rewrite (Hin w Hrest Hw). unfold a1. simpl. apply buffer_cast_set.
        -- apply elem_of_cons in Hmem as [->|Hmem]; [|done].
           rewrite (Hout Hrest). unfold a1.
           rewrite array_elem_set by done. rewrite decide_True by done.
           rewrite apply_tuple_idem in Hw. congruence.
      * intros Hmem. simpl in Hmem. apply not_elem_of_cons in Hmem as [Hneq Hrest].
        rewrite (Hout Hrest). unfold a1.
        rewrite array_elem_set by done. by rewrite decide_False.
Qed.
End apply_all_facts.

Section apply_all_result.
Context {W : Type} `{Arith W}.
Implicit Types (self : Stencil.t W) (s : heap W) (u du : loc) (a : ndarray W).

Lemma zeros_like_ok (ua : ndarray W) : array_ok (zeros_like ua) = true.
Proof.
  unfold array_ok, zeros_like. simpl. apply Nat.eqb_eq.
  destruct (adata ua); simpl; apply length_replicate.
Qed.

(** The assertion of [apply_all] fails before anything is allocated. *)
Lemma apply_all_shape_mismatch self u ua s :
  arrays s !! u = Some ua ->
  Stencil.shape self <> ashape ua ->
  Stencil.apply_all self u s = (inl AssertionError, s).
Proof.
  intros Hu Hne. unfold Stencil.apply_all, bind, read_array. rewrite Hu. simpl.
  by rewrite bool_decide_false.
Qed.

(** C9: when [u] has the grid's shape and [apply] succeeds at every point,
    [apply_all] returns a reference [du] that was not allocated before (so it
    is not [u], and [u] still holds the same array), to an array of the
    shape and element type of [u]; the cell of every index of the grid holds
    the value of [apply] there, converted to an integer when [u] is an
    integer array. *)
Theorem apply_all_fresh_array self u ua s :
  arrays s !! u = Some ua ->
  Stencil.shape self = ashape ua ->
  forallb (fun idx => succeeds (Stencil.apply self u idx s))
          (Stencil.all_indices (ashape ua)) = true ->
  exists du a,
    Stencil.apply_all self u s
    = (inr du, Heap (tables s) (locals s) (<[du := a]> (arrays s)))
    /\ arrays s !! du = None
    /\ du <> u
    /\ <[du := a]> (arrays s) !! u = Some ua
    /\ ashape a = ashape ua
    /\ buffer_dtype (adata a) = buffer_dtype (adata ua)
    /\ forall idx v,
         in_range (ashape ua) idx = true ->
         fst (Stencil.apply self u (IdxTuple idx) s) = inr v ->
         np_getitem a idx = inr (buffer_cast (adata ua) v).
Proof.
  intros Hu Hshape Hall. destruct s as [T L A]. simpl in *.
  set (du := fresh (dom A)).
  assert (Hfresh : A !! du = None).
  { apply not_elem_of_dom. apply is_fresh. }
  assert (Hne : du <> u) by congruence.
  destruct (apply_all_loop self u du T L A (Stencil.all_indices (ashape ua))
              (zeros_like ua) Hne (zeros_like_ok ua))
    as (a & Hrun & Hsh & Hok & Hdt & Helem).
  { intros idx Hin. split; [by apply all_indices_in_range|].
    rewrite forallb_forall in Hall. apply Hall. by apply list_elem_of_In. }
  exists du, a. split; [|repeat split].
  - unfold Stencil.apply_all. unfold bind at 1. unfold read_array at 1. simpl arrays.
    rewrite Hu. simpl. rewrite bool_decide_true by done. unfold bind at 1. simpl.
    unfold bind at 1. unfold alloc_array at 1. simpl. fold du.
    unfold bind at 1. by rewrite Hrun.
  - done.
  - done.
  - by rewrite lookup_insert_ne.
  - done.
  - rewrite Hdt. unfold zeros_like. simpl. by destruct (adata ua).
  - intros idx v Hr Hv.
    destruct (all_indices_complete _ _ Hr) as (i & Hin & Hi).
    rewrite np_getitem_in_range; [|done | by rewrite Hsh].
    destruct (Helem idx Hr) as [Hset _].
    rewrite (Hset v).
    + unfold zeros_like. simpl. by destruct (adata ua).
    + rewrite <- Hi. apply list_elem_of_In, in_map, list_elem_of_In, Hin.
    + done.
Qed.
End apply_all_result.

(** On the integer array [[0, 1, 3, 2, 0]] the central difference is [1.5]
    at index [1] and [-1.5] at index [3]; the cells of the new integer
    array hold [1] and [-1]. *)
Lemma apply_all_fresh_array_witness :
  exists du a,
    Stencil.apply_all example_stencil 1%positive hill_store
    = (inr du, Heap (tables hill_store) (locals hill_store)
                 (<[du := a]> (arrays hill_store)))
    /\ du <> 1%positive
    /\ buffer_dtype (adata a) = DInt
    /\ fst (Stencil.apply example_stencil 1%positive (IdxInt 1) hill_store)
       = inr 1.5%float
    /\ np_getitem a [1] = inr (SInt 1)
    /\ fst (Stencil.apply example_stencil 1%positive (IdxInt 3) hill_store)
       = inr (-1.5)%float
    /\ np_getitem a [3] = inr (SInt (-1)).
Proof.
  destruct (apply_all_fresh_array example_stencil 1%positive hill hill_store)
    as (du & a & Hrun & _ & Hne & _ & _ & Hdt & Hel); [vm_compute; reflexivity ..|].
  exists du, a.
  split; [exact Hrun|]. split; [exact Hne|]. split; [exact Hdt|].
  split; [vm_compute; reflexivity|].
  split; [apply (Hel [1] 1.5%float); vm_compute; reflexivity|].
  split; [vm_compute; reflexivity|].
  apply (Hel [3] (-1.5)%float); vm_compute; reflexivity.
Defined.

(** C9 fails as stated: on the two-point array, which has the grid's shape,
    [apply_all] raises [IndexError] and returns no array. *)
Lemma apply_all_matching_shape_raises :
  arrays short_store !! 1%positive = Some short_array
  /\ Stencil.shape short_stencil = ashape short_array
  /\ fst (Stencil.apply_all short_stencil 1%positive short_store) = inl IndexError.
Proof. split; [|split]; vm_compute; reflexivity. Qed.

(** ** Outer dictionaries and the local stencils they refer to *)

Section resolve_facts.
Context {W : Type}.
Implicit Types (ls : gmap loc (list (offset * W))) (T : list (pattern * loc))
  (R : list (pattern * list (offset * W))) (l : loc) (pt : pattern).

Lemma resolve_keys ls T R : resolve ls T = Some R -> R.*1 = T.*1.
Proof.
  revert R. induction T as [|[p l] T IH]; intros R; simpl.
  - by intros [= <-].
  - destruct (ls !! l) as [D|]; [|done].
    destruct (resolve ls T) as [R'|]; [|done].
    intros [= <-]. cbn. f_equal. by apply IH.
Qed.

Lemma resolve_locs ls T R l : resolve ls T = Some R -> l ∈ T.*2 -> is_Some (ls !! l).
Proof.
  revert R. induction T as [|[p l'] T IH]; intros R HR Hin; simpl in HR.
  - by apply elem_of_nil in Hin.
  - destruct (ls !! l') as [D|] eqn:E; [|done].
    destruct (resolve ls T) as [R'|]; [|done].
    rewrite fmap_cons in Hin.
    apply elem_of_cons in Hin as [->|Hin]; [by eexists | by eapply IH].
Qed.

Lemma resolve_get_Some ls T R pt l :
  resolve ls T = Some R -> dict_get T pt = Some l -> dict_get R pt = ls !! l.
Proof.
  revert R. induction T as [|[p l'] T IH]; intros R; simpl; [done|].
  destruct (ls !! l') as [D|] eqn:E; [|done].
  destruct (resolve ls T) as [R'|]; [|done].
  intros [= <-]. simpl. destruct (decide (pt = p)); [congruence | by apply IH].
Qed.

Lemma resolve_get_None ls T R pt :
  resolve ls T = Some R -> dict_get T pt = None -> dict_get R pt = None.
Proof.
  intros HR. rewrite !dict_get_None. by rewrite (resolve_keys _ _ _ HR).
Qed.

Lemma resolve_insert_notin ls T l D :
  l ∉ T.*2 -> resolve (<[l := D]> ls) T = resolve ls T.
Proof.
  induction T as [|[p l'] T IH]; [done|].
  rewrite fmap_cons. intros [Hne Hnin]%not_elem_of_cons. simpl in Hne.
  simpl. rewrite lookup_insert_ne by done. by rewrite IH.
Qed.

Lemma resolve_insert_in ls T R pt l D :
  NoDup T.*2 -> resolve ls T = Some R -> dict_get T pt = Some l ->
  resolve (<[l := D]> ls) T = Some (dict_set R pt D).
Proof.
  revert R. induction T as [|[p l'] T IH]; intros R; [done|].
  rewrite fmap_cons. intros [Hnin Hnd]%NoDup_cons. simpl in Hnin. simpl.
  destruct (ls !! l') as [D'|] eqn:E; [|done].
  destruct (resolve ls T) as [R'|] eqn:ER; [|done].
  intros [= <-]. simpl. destruct (decide (pt = p)) as [->|Hne].
  - intros [= ->]. rewrite lookup_insert_eq.
    by rewrite resolve_insert_notin, ER.
  - intros Hget.
    assert (l <> l') as Hl.
    { intros ->. apply Hnin. apply dict_get_Some_elem in Hget.
      apply list_elem_of_fmap. by exists (pt, l'). }
    rewrite lookup_insert_ne by done. rewrite E.
    by rewrite (IH R' Hnd eq_refl Hget).
Qed.

Lemma resolve_snoc ls T R pt l D :
  resolve ls T = Some R -> ls !! l = Some D ->
  resolve ls (T ++ [(pt, l)]) = Some (R ++ [(pt, D)]).
Proof.
  revert R. induction T as [|[p l'] T IH]; intros R; simpl.
  - intros [= <-] ->. done.
  - destruct (ls !! l') as [D'|]; [|done].
    destruct (resolve ls T) as [R'|]; [|done].
    intros [= <-] Hl. by rewrite (IH R' eq_refl Hl).
Qed.

Lemma resolve_mono ls ls' T R :
  ls ⊆ ls' -> resolve ls T = Some R -> resolve ls' T = Some R.
Proof.
  intros Hsub. revert R. induction T as [|[p l] T IH]; intros R; simpl; [done|].
  destruct (ls !! l) as [D|] eqn:E; [|done].
  destruct (resolve ls T) as [R'|]; [|done].
  intros [= <-]. rewrite (lookup_weaken _ _ _ _ E Hsub). by rewrite (IH R').
Qed.
End resolve_facts.

(** ** Construction *)

Section create_facts.
Context {W : Type} `{Arith W}.
Variable coefficients : Z -> Z -> result (coef_table W).
Implicit Types (self : Stencil.t W) (s : heap W) (lstl : loc).

Lemma long_off_run ndim axis off :
  0 <= axis < Z.of_nat ndim ->
  Stencil.long_off ndim axis off = inr (unit_offset ndim axis off).
Proof.
  intros Hax. unfold Stencil.long_off, unit_offset.
  destruct (axis <? 0) eqn:E; [apply Z.ltb_lt in E; lia|].
  assert ((0 <=? axis) && (axis <? Z.of_nat ndim) = true) as ->; [|done].
  apply andb_true_iff. split; [apply Z.leb_le | apply Z.ltb_lt]; lia.
Qed.

(** Where [c / h ** order] does not raise, its value is [weight_of]. *)
Lemma weight_of_defined (h : W) order c :
  match Stencil.weight h order c with inr _ => true | inl _ => false end = true ->
  Stencil.weight h order c = inr (weight_of h order c).
Proof. unfold weight_of. by destruct (Stencil.weight h order c). Qed.

Lemma weights_defined_scheme (h : W) order ct sy :
  weights_defined h order ct = true ->
  Forall (fun oc => Stencil.weight h order (snd oc) = inr (weight_of h order (snd oc)))
         (zip (sc_offsets (Stencil.smap sy ct)) (sc_coefficients (Stencil.smap sy ct))).
Proof.
  intros Hdef. apply Forall_forall. intros [off c] Hin. simpl.
  apply weight_of_defined.
  unfold weights_defined in Hdef. rewrite forallb_forall in Hdef. apply Hdef.
  apply list_elem_of_In. apply elem_of_zip_r in Hin. simpl in Hin.
  rewrite !elem_of_app.
  destruct sy; simpl in Hin; [by left | right; by left | right; by right].
Qed.

Lemma weights_defined_pattern (h : W) order ct self pt off c :
  weights_defined h order ct = true ->
  (off, c) ∈ zip (sc_offsets (scheme_of_pattern self ct pt))
                 (sc_coefficients (scheme_of_pattern self ct pt)) ->
  Stencil.weight h order c = inr (weight_of h order c).
Proof.
  intros Hdef Hin.
  assert (Hsy : exists sy, scheme_of_pattern self ct pt = Stencil.smap sy ct).
  { unfold scheme_of_pattern.
    destruct (pt !! Z.to_nat (Stencil.axis self)) as [[| |]|];
      [by exists LOW | by exists CENTER | by exists HIGH | by exists LOW]. }
  destruct Hsy as [sy Hsy]. rewrite Hsy in Hin.
  pose proof (weights_defined_scheme h order ct sy Hdef) as Hws.
  rewrite Forall_forall in Hws. apply (Hws (off, c) Hin).
Qed.

Lemma accumulate_one_run self lstl s D off c :
  0 <= Stencil.axis self < Z.of_nat (length (Stencil.shape self)) ->
  Stencil.weight (Stencil.h self) (Stencil.order self) c
  = inr (weight_of (Stencil.h self) (Stencil.order self) c) ->
  locals s !! lstl = Some D ->
  Stencil.accumulate_one self lstl (off, c) s
  = (inr tt,
     Heap (tables s)
       (<[lstl := dict_add D
            (unit_offset (length (Stencil.shape self)) (Stencil.axis self) off)
            (weight_of (Stencil.h self) (Stencil.order self) c)]> (locals s))
       (arrays s)).
Proof.
  intros Hax Hw HD. unfold Stencil.accumulate_one.
  rewrite (bind_lift_inr _ _ _ _ (long_off_run _ _ off Hax)).
  unfold bind at 1. unfold read_local at 1. rewrite HD. simpl. unfold dict_add.
  destruct (dict_get D _); by rewrite (bind_lift_inr _ _ _ _ Hw).
Qed.

Lemma accumulate_run self lstl ocs s D :
  0 <= Stencil.axis self < Z.of_nat (length (Stencil.shape self)) ->
  Forall (fun oc => Stencil.weight (Stencil.h self) (Stencil.order self) (snd oc)
                    = inr (weight_of (Stencil.h self) (Stencil.order self) (snd oc))) ocs ->
  locals s !! lstl = Some D ->
  forM_ ocs (Stencil.accumulate_one self lstl) s
  = (inr tt,
     Heap (tables s)
       (<[lstl := accumulate_all D
            (map (fun '(off, c) =>
                    (unit_offset (length (Stencil.shape self)) (Stencil.axis self) off,
                     weight_of (Stencil.h self) (Stencil.order self) c)) ocs)]>
          (locals s))
       (arrays s)).
Proof.
  intros Hax Hws. revert s D.
  induction ocs as [|[off c] ocs IH]; intros s D HD; simpl.
  - unfold ret. f_equal. destruct s as [T L A]. simpl in *. f_equal.
    by rewrite insert_id.
  - apply Forall_cons in Hws as [Hw Hws]. simpl in Hw.
    rewrite (bind_inr _ _ _ _ _ (accumulate_one_run self lstl s D off c Hax Hw HD)).
    rewrite (IH Hws _ (dict_add D
              (unit_offset (length (Stencil.shape self)) (Stencil.axis self) off)
              (weight_of (Stencil.h self) (Stencil.order self) c))).
    + simpl. by rewrite insert_insert_eq.
    + simpl. by rewrite lookup_insert_eq.
Qed.
End create_facts.

Lemma py_index_in_range {A : Type} (l : list A) (i : Z) (x : A) :
  0 <= i -> l !! Z.to_nat i = Some x -> py_index l i = inr x.
Proof.
  intros Hi Hx. unfold py_index.
  pose proof (lookup_lt_Some _ _ _ Hx) as Hlt.
  assert ((0 <=? i) && (i <? Z.of_nat (length l)) = true) as ->.
  { apply andb_true_iff. split; [apply Z.leb_le | apply Z.ltb_lt]; lia. }
  by rewrite Hx.
Qed.

Section create_one_facts.
Context {W : Type} `{Arith W}.
Variable coefficients : Z -> Z -> result (coef_table W).
Implicit Types (self : Stencil.t W) (s : heap W) (pt : pattern).

(** One turn of the outer loop of [_create_stencil], seen through
    [resolve]: the local stencil of [pt] receives the contributions of its
    scheme, in place when the table already has the pattern. *)
Lemma create_one_run self ct s T R pt :
  0 <= Stencil.axis self < Z.of_nat (length (Stencil.shape self)) ->
  length pt = length (Stencil.shape self) ->
  coefficients (Stencil.order self) (Stencil.acc self) = inr ct ->
  weights_defined (Stencil.h self) (Stencil.order self) ct = true ->
  tables s !! Stencil.data self = Some T ->
  resolve (locals s) T = Some R ->
  NoDup T.*2 ->
  exists T' L',
    Stencil.create_one coefficients self pt s
    = (inr tt, Heap (<[Stencil.data self := T']> (tables s)) L' (arrays s))
    /\ resolve L' T'
       = Some (dict_set R pt (local_of self ct pt (default [] (dict_get R pt))))
    /\ NoDup T'.*2.
Proof.
  intros Hax Hlen Hct Hdef HT HR Hnd.
  destruct (lookup_lt_is_Some_2 pt (Z.to_nat (Stencil.axis self))) as [sy Hsy]; [lia|].
  assert (Hscheme : Stencil.smap sy ct = scheme_of_pattern self ct pt).
  { unfold scheme_of_pattern. rewrite Hsy. by destruct sy. }
  pose proof (weights_defined_scheme _ _ ct sy Hdef) as Hws. rewrite Hscheme in Hws.
  unfold Stencil.create_one.
  rewrite (bind_lift_inr _ _ _ sy) by (apply py_index_in_range; [lia | done]).
  rewrite (bind_lift_inr _ _ _ ct) by done.
  unfold bind at 1. unfold read_table at 1. rewrite HT. simpl. rewrite Hscheme.
  destruct (dict_get T pt) as [l|] eqn:Hget.
  - pose proof (resolve_get_Some _ _ _ _ _ HR Hget) as HRget.
    destruct (resolve_locs _ _ _ l HR) as [D HD].
    { apply dict_get_Some_elem in Hget. apply list_elem_of_fmap. by exists (pt, l). }
    rewrite HD in HRget.
    unfold bind at 1. unfold ret at 1.
    rewrite (bind_inr _ _ _ _ _ (accumulate_run self l _ s D Hax Hws HD)).
    unfold bind, read_table, write_table. simpl. rewrite HT. simpl.
    rewrite (dict_set_same T pt l Hget).
    eexists T, _. split; [reflexivity|]. split; [|done].
    rewrite HRget. simpl. by apply resolve_insert_in.
  - pose proof (resolve_get_None _ _ _ _ HR Hget) as HRget.
    set (l := fresh (dom (locals s))).
    assert (Hl : locals s !! l = None) by (apply not_elem_of_dom, is_fresh).
    assert (Hnin : l ∉ T.*2).
    { intros Hin. destruct (resolve_locs _ _ _ l HR Hin) as [D HD]. congruence. }
    unfold bind at 1. unfold alloc_local at 1. fold l.
    rewrite (bind_inr _ _ _ _ _
               (accumulate_run self l _
                  (Heap (tables s) (<[l := []]> (locals s)) (arrays s)) []
                  Hax Hws (lookup_insert_eq _ _ _))).
    unfold bind, read_table, write_table. simpl. rewrite HT. simpl.
    rewrite insert_insert_eq.
    rewrite (dict_set_fresh T pt l Hget).
    eexists _, _. split; [reflexivity|]. split.
    + rewrite HRget. simpl. rewrite (dict_set_fresh R pt _ HRget).
      apply resolve_snoc; [|by rewrite lookup_insert_eq].
      by rewrite resolve_insert_notin.
    + rewrite fmap_app. apply NoDup_app. split; [done|]. split.
      * intros x Hx Hx'. apply list_elem_of_singleton in Hx'. by subst.
      * apply NoDup_singleton.
Qed.
End create_one_facts.

Section create_loop_facts.
Context {W : Type} `{Arith W}.
Variable coefficients : Z -> Z -> result (coef_table W).
Implicit Types (self : Stencil.t W) (s : heap W) (pt : pattern).

(** The whole loop of [_create_stencil]. *)
Lemma create_stencil_run self ct pts s T R :
  0 <= Stencil.axis self < Z.of_nat (length (Stencil.shape self)) ->
  (forall pt, pt ∈ pts -> length pt = length (Stencil.shape self)) ->
  coefficients (Stencil.order self) (Stencil.acc self) = inr ct ->
  weights_defined (Stencil.h self) (Stencil.order self) ct = true ->
  tables s !! Stencil.data self = Some T ->
  resolve (locals s) T = Some R ->
  NoDup T.*2 ->
  exists T' L',
    Stencil._create_stencil coefficients self pts s
    = (inr tt, Heap (<[Stencil.data self := T']> (tables s)) L' (arrays s))
    /\ resolve L' T' = Some (create_view self ct pts R)
    /\ NoDup T'.*2.
Proof.
  intros Hax Hlen Hct Hdef. revert s T R.
  induction pts as [|pt pts IH]; intros s T R HT HR Hnd.
  - exists T, (locals s). split; [|done].
    unfold Stencil._create_stencil. simpl. unfold ret. f_equal.
    destruct s as [TT L A]. simpl in *. f_equal. by rewrite insert_id.
  - destruct (create_one_run coefficients self ct s T R pt) as (T1 & L1 & Hrun & HR1 & Hnd1);
      try done.
    { apply Hlen. left. }
    destruct (IH (fun p Hp => Hlen p (list_elem_of_further _ _ _ Hp))
                 (Heap (<[Stencil.data self := T1]> (tables s)) L1 (arrays s)) T1 _
                 (lookup_insert_eq _ _ _) HR1 Hnd1)
      as (T' & L' & Hrun' & HR' & Hnd').
    exists T', L'. split; [|done].
    unfold Stencil._create_stencil in *. simpl.
    rewrite (bind_inr _ _ _ _ _ Hrun). rewrite Hrun'. simpl.
    by rewrite insert_insert_eq.
Qed.
End create_loop_facts.

(** ** The patterns *)

Lemma product_replicate_length {A : Type} (xs : list A) (n : nat) (p : list A) :
  p ∈ product (replicate n xs) -> length p = n.
Proof.
  revert p. induction n as [|n IH]; intros p; simpl.
  - by intros ->%list_elem_of_singleton.
  - rewrite list_elem_of_In, in_flat_map. intros (x & _ & Hp).
    apply list_elem_of_In, list_elem_of_fmap in Hp as (q & -> & Hq).
    simpl. f_equal. by apply IH.
Qed.

Lemma product_replicate_complete {A : Type} (xs : list A) (n : nat) (p : list A) :
  length p = n -> (forall x, x ∈ p -> x ∈ xs) -> p ∈ product (replicate n xs).
Proof.
  revert p. induction n as [|n IH]; intros [|x p]; simpl; try done.
  - intros _ _. left.
  - intros [= Hlen] Hall. apply list_elem_of_In, in_flat_map. exists x. split.
    + apply list_elem_of_In, Hall. left.
    + apply list_elem_of_In, list_elem_of_fmap. exists p. split; [done|].
      apply IH; [done|]. intros y Hy. apply Hall. by right.
Qed.

Lemma product_replicate_count {A : Type} (xs : list A) (n : nat) :
  length (product (replicate n xs)) = (length xs ^ n)%nat.
Proof.
  induction n as [|n IH]; simpl; [done|].
  rewrite <- IH. generalize (product (replicate n xs)). clear IH. intros ps.
  induction xs as [|x xs IHx]; simpl; [done|].
  by rewrite length_app, length_map, IHx.
Qed.

Lemma product_replicate_NoDup {A : Type} (xs : list A) (n : nat) :
  NoDup xs -> NoDup (product (replicate n xs)).
Proof.
  intros Hxs. induction n as [|n IH]; simpl; [apply NoDup_singleton|].
  generalize dependent (product (replicate n xs)). intros ps Hps.
  induction Hxs as [|x xs Hx Hxs IHx]; simpl; [apply NoDup_nil_2|].
  apply NoDup_app. split; [|split; [|done]].
  - apply NoDup_fmap_2; [|done]. by intros ?? [=].
  - intros p Hp Hp'.
    apply list_elem_of_fmap in Hp as (q & -> & Hq).
    apply list_elem_of_In, in_flat_map in Hp' as (y & Hy & Hp').
    apply list_elem_of_In, list_elem_of_fmap in Hp' as (q' & [= -> ->] & Hq').
    apply Hx. by apply list_elem_of_In.
Qed.

Lemma sym_all (x : sym) : x ∈ [LOW; CENTER; HIGH].
Proof. destruct x; [left | right; left | right; right; left]. Qed.

Lemma sym_NoDup : NoDup [LOW; CENTER; HIGH].
Proof. by apply (bool_decide_unpack _). Qed.

(** ** Accumulated weights *)

Section accumulate_facts.
Context {W : Type} `{Arith W}.
Implicit Types (D cs : list (offset * W)) (lo : offset) (w : W).

Lemma dict_get_add D lo' w lo :
  dict_get (dict_add D lo' w) lo
  = if decide (lo' = lo)
    then Some (match dict_get D lo with Some a => wadd a w | None => w end)
    else dict_get D lo.
Proof.
  unfold dict_add. destruct (decide (lo' = lo)) as [->|Hne].
  - destruct (dict_get D lo); by rewrite dict_get_set_eq.
  - destruct (dict_get D lo'); by rewrite dict_get_set_ne.
Qed.

(** Weights landing on the same offset are summed, in order. *)
Lemma dict_get_accumulate_all D cs lo :
  dict_get (accumulate_all D cs) lo = summed lo cs (dict_get D lo).
Proof.
  revert D. induction cs as [|[lo' w] cs IH]; intros D; simpl; [done|].
  unfold accumulate_all, summed in *. simpl. rewrite IH. by rewrite dict_get_add.
Qed.

Lemma summed_is_Some lo cs (w0 : option W) :
  is_Some (summed lo cs w0) <-> is_Some w0 \/ lo ∈ cs.*1.
Proof.
  revert w0. induction cs as [|[lo' w] cs IH]; intros w0.
  - simpl. split; [by left | intros [?|Hin]; [done | by apply elem_of_nil in Hin]].
  - rewrite fmap_cons, elem_of_cons. unfold summed in *. cbn [fold_left fst]. rewrite IH.
    destruct (decide (lo' = lo)) as [->|Hne].
    + split; [intros _; right; by left | intros _; left; by eexists].
    + split; [intros [?|?]; auto | intros [?|[?|?]]; auto; congruence].
Qed.

(** The offsets of an accumulated local stencil are those it had and those
    of the contributions. *)
Lemma accumulate_all_keys D cs lo :
  lo ∈ (accumulate_all D cs).*1 <-> lo ∈ D.*1 \/ lo ∈ cs.*1.
Proof.
  rewrite <- (dict_get_is_Some (accumulate_all D cs)), <- (dict_get_is_Some D).
  rewrite dict_get_accumulate_all. apply summed_is_Some.
Qed.

Lemma dict_add_fresh D lo w : lo ∉ D.*1 -> dict_add D lo w = D ++ [(lo, w)].
Proof.
  intros Hnin%dict_get_None. unfold dict_add. rewrite Hnin. by apply dict_set_fresh.
Qed.

(** Contributions on pairwise distinct offsets that the local stencil does
    not have yet are appended as they are. *)
Lemma accumulate_all_fresh D cs :
  NoDup cs.*1 -> (forall lo, lo ∈ cs.*1 -> lo ∉ D.*1) ->
  accumulate_all D cs = D ++ cs.
Proof.
  revert D. induction cs as [|[lo w] cs IH]; intros D Hnd Hdisj.
  - by rewrite app_nil_r.
  - rewrite fmap_cons in Hnd. apply NoDup_cons in Hnd as [Hnin Hnd]. simpl in Hnin.
    unfold accumulate_all in *. simpl.
    rewrite dict_add_fresh by (apply Hdisj; rewrite fmap_cons; left).
    rewrite IH; [by rewrite <- app_assoc | done |].
    intros lo' Hin. rewrite fmap_app, elem_of_app. intros [Hin'|Hin'].
    + revert Hin'. apply Hdisj. rewrite fmap_cons. by right.
    + simpl in Hin'. apply list_elem_of_singleton in Hin'. by subst.
Qed.
End accumulate_facts.

Section create_view_facts.
Context {W : Type} `{Arith W}.
Implicit Types (self : Stencil.t W) (pts : list pattern)
  (R : list (pattern * list (offset * W))).

(** Over pairwise distinct patterns that the table does not have yet,
    construction appends one local stencil per pattern. *)
Lemma create_view_fresh self ct pts R :
  NoDup pts -> (forall pt, pt ∈ pts -> pt ∉ R.*1) ->
  create_view self ct pts R = R ++ map (fun pt => (pt, local_of self ct pt [])) pts.
Proof.
  revert R. induction pts as [|pt pts IH]; intros R Hnd Hdisj.
  - by rewrite app_nil_r.
  - apply NoDup_cons in Hnd as [Hnin Hnd].
    assert (Hget : dict_get R pt = None) by (apply dict_get_None, Hdisj; left).
    unfold create_view in *. simpl. rewrite Hget. simpl.
    rewrite dict_set_fresh by done.
    rewrite IH; [by rewrite <- app_assoc | done |].
    intros pt' Hin. rewrite fmap_app, elem_of_app. intros [Hin'|Hin'].
    + revert Hin'. apply Hdisj. by right.
    + simpl in Hin'. apply list_elem_of_singleton in Hin'. by subst.
Qed.
End create_view_facts.

(** ** The constructor *)

Section init_facts.
Context {W : Type} `{Arith W}.
Variable coefficients : Z -> Z -> result (coef_table W).
Implicit Types (s : heap W) (shape : list Z) (h : W).

Lemma char_pts_length shape pt :
  pt ∈ Stencil._det_characteristic_points shape -> length pt = length shape.
Proof. apply product_replicate_length. Qed.

(** C2: a construction without a seed, on an axis of the grid, with a
    generator that answers and with [c / h ** order] raising for no
    coefficient [c] of the answer, returns an instance whose table is new
    and has
    one entry per pattern of the product of [{LOW, CENTER, HIGH}] over the
    axes ([3 ^ ndim] pairwise distinct patterns, every tuple of [ndim]
    symbols among them); the local stencil of a pattern holds the offsets
    of its scheme (LOW -> forward, CENTER -> center, HIGH -> backward),
    each placed along [axis] in an otherwise zero tuple, with weight
    [coefficient / h ** order], weights on equal offsets being summed; when
    the offsets of the scheme are pairwise distinct it is the list of these
    pairs. *)
Theorem init_builds_table shape axis order h acc ct s :
  0 <= axis < Z.of_nat (length shape) ->
  coefficients order acc = inr ct ->
  weights_defined h order ct = true ->
  exists st s',
    Stencil.__init__ coefficients shape axis order h acc None s = (inr st, s')
    /\ st = Stencil.Make shape axis order h acc (Stencil.data st)
    /\ tables s !! Stencil.data st = None
    /\ table_view s' (Stencil.data st)
       = Some (map (fun pt => (pt, local_of st ct pt []))
                   (Stencil._det_characteristic_points shape))
    /\ length (Stencil._det_characteristic_points shape) = (3 ^ length shape)%nat
    /\ NoDup (Stencil._det_characteristic_points shape)
    /\ (forall pt, pt ∈ Stencil._det_characteristic_points shape
                   <-> length pt = length shape)
    /\ (forall pt,
         (forall lo, dict_get (local_of st ct pt []) lo
                     = summed lo (contributions st (scheme_of_pattern st ct pt)) None)
         /\ (forall lo, lo ∈ (local_of st ct pt []).*1
                        <-> lo ∈ (contributions st (scheme_of_pattern st ct pt)).*1)
         /\ (NoDup (contributions st (scheme_of_pattern st ct pt)).*1 ->
             local_of st ct pt [] = contributions st (scheme_of_pattern st ct pt)))
    /\ forall pt off c,
         (off, c) ∈ zip (sc_offsets (scheme_of_pattern st ct pt))
                        (sc_coefficients (scheme_of_pattern st ct pt)) ->
         Stencil.weight h order c = inr (weight_of h order c).
Proof.
  intros Hax Hct Hdef.
  set (d := fresh (dom (tables s))).
  set (st := Stencil.Make shape axis order h acc d).
  assert (Hd : tables s !! d = None) by (apply not_elem_of_dom, is_fresh).
  assert (Hpts : NoDup (Stencil._det_characteristic_points shape)).
  { apply product_replicate_NoDup, sym_NoDup. }
  destruct (create_stencil_run coefficients st ct
              (Stencil._det_characteristic_points shape)
              (Heap (<[d := []]> (tables s)) (locals s) (arrays s)) [] [])
    as (T' & L' & Hrun & HR & Hnd); try done.
  { intros pt. apply char_pts_length. }
  { simpl. apply lookup_insert_eq. }
  { apply NoDup_nil_2. }
  exists st, (Heap (<[d := T']> (tables s)) L' (arrays s)).
  split; [|split; [done | split; [done | split; [|split; [|split; [done | split;
    [|split; [|intros pt off c; by apply weights_defined_pattern]]]]]]]].
  - unfold Stencil.__init__. unfold bind at 1. unfold alloc_table at 1. fold d. fold st.
    rewrite (bind_inr _ _ _ _ _ Hrun). unfold ret. simpl.
    by rewrite insert_insert_eq.
  - unfold table_view. simpl. rewrite lookup_insert_eq, HR.
    rewrite create_view_fresh; [done | done |].
    intros pt _. apply not_elem_of_nil.
  - apply product_replicate_count.
  - intros pt. split; [apply char_pts_length|].
    intros Hlen. apply product_replicate_complete; [done|].
    intros x _. apply sym_all.
  - intros pt. unfold local_of. split; [|split].
    + intros lo. by rewrite dict_get_accumulate_all.
    + intros lo. rewrite accumulate_all_keys. split; [intros [Hin|?]; [|done] | by right].
      by apply elem_of_nil in Hin.
    + intros Hnd'. rewrite accumulate_all_fresh; [done | done |].
      intros lo _. apply not_elem_of_nil.
Qed.
End init_facts.

(** The table of the five-point example: one local stencil per pattern. *)
Lemma init_builds_table_witness :
  exists st s',
    Stencil.__init__ coefficients [5] 0 1 1%float 2 None empty_heap = (inr st, s')
    /\ table_view s' (Stencil.data st)
       = Some [([LOW], [([0], (-1.5)%float); ([1], 2%float); ([2], (-0.5)%float)]);
               ([CENTER], [([-1], (-0.5)%float); ([0], 0%float); ([1], 0.5%float)]);
               ([HIGH], [([-2], 0.5%float); ([-1], (-2)%float); ([0], 1.5%float)])].
Proof.
  destruct (init_builds_table coefficients [5] 0 1 1%float 2 coefficients_1_2 empty_heap)
    as (st & s' & Hrun & Hst & _ & Hview & _); [simpl; lia | reflexivity | reflexivity |].
  exists st, s'. split; [exact Hrun|].
  rewrite Hview, Hst. reflexivity.
Defined.

(** C2 fails as stated: on a five-point grid, axis [0], order [2] and
    accuracy [2], the positive spacing [2^600] makes [h ** order] overflow
    and the constructor raise [OverflowError]; with the positive spacing
    [2^-600] the power underflows to [0.] and [c / h ** order] raises
    [ZeroDivisionError].  No instance is returned. *)
Lemma init_valid_inputs_raise :
  PrimFloat.ltb 0%float 0x1p+600%float = true
  /\ fst (Stencil.__init__ coefficients_second [5] 0 2 0x1p+600%float 2 None empty_heap)
     = inl OverflowError
  /\ PrimFloat.ltb 0%float 0x1p-600%float = true
  /\ fst (Stencil.__init__ coefficients_second [5] 0 2 0x1p-600%float 2 None empty_heap)
     = inl ZeroDivisionError.
Proof. split; [|split; [|split]]; vm_compute; reflexivity. Qed.

(** ** Construction from a seed *)

Section seed_facts.
Context {W : Type} `{Arith W}.
Variable coefficients : Z -> Z -> result (coef_table W).
Implicit Types (s : heap W) (shape : list Z) (h : W) (old : Stencil.t W)
  (pts : list pattern) (R : list (pattern * list (offset * W))).

Lemma create_view_get (self : Stencil.t W) ct pts R pt :
  NoDup pts ->
  dict_get (create_view self ct pts R) pt
  = if decide (pt ∈ pts)
    then Some (local_of self ct pt (default [] (dict_get R pt)))
    else dict_get R pt.
Proof.
  revert R. induction pts as [|p pts IH]; intros R Hnd.
  - rewrite decide_False; [done | apply not_elem_of_nil].
  - apply NoDup_cons in Hnd as [Hnin Hnd].
    unfold create_view in *. simpl. rewrite (IH _ Hnd).
    destruct (decide (pt = p)) as [->|Hne].
    + rewrite decide_False by done. rewrite decide_True by left.
      by rewrite dict_get_set_eq.
    + rewrite dict_get_set_ne by done.
      destruct (decide (pt ∈ pts)) as [Hin|Hin].
      * rewrite decide_True; [done | by right].
      * rewrite decide_False; [done|]. by intros [?|?]%elem_of_cons.
Qed.

(** C1, as the code has it: a construction from a seed binds the seed's
    table itself.  When [c / h ** order] raises for no coefficient [c] of
    the generator's answer, the constructor returns; the new instance
    refers to the very dictionary of the seed, and after the construction
    that one dictionary holds, at every pattern of the product, the local
    stencil the seed had there with the new contributions (the values of
    [c / h ** order]) summed into it; the other patterns, the other tables
    and the arrays are as before. *)
Theorem init_with_seed_accumulates shape axis order h acc ct old s T R :
  0 <= axis < Z.of_nat (length shape) ->
  coefficients order acc = inr ct ->
  weights_defined h order ct = true ->
  tables s !! Stencil.data old = Some T ->
  resolve (locals s) T = Some R ->
  NoDup T.*2 ->
  exists st s' R',
    Stencil.__init__ coefficients shape axis order h acc (Some old) s = (inr st, s')
    /\ st = Stencil.Make shape axis order h acc (Stencil.data old)
    /\ table_view s' (Stencil.data st) = Some R'
    /\ table_view s' (Stencil.data old) = Some R'
    /\ (forall pt, pt ∈ Stencil._det_characteristic_points shape ->
          dict_get R' pt = Some (local_of st ct pt (default [] (dict_get R pt)))
          /\ forall lo,
               dict_get (local_of st ct pt (default [] (dict_get R pt))) lo
               = summed lo (contributions st (scheme_of_pattern st ct pt))
                   (dict_get (default [] (dict_get R pt)) lo))
    /\ (forall pt, pt ∉ Stencil._det_characteristic_points shape ->
          dict_get R' pt = dict_get R pt)
    /\ (forall d, d <> Stencil.data old -> tables s' !! d = tables s !! d)
    /\ arrays s' = arrays s
    /\ forall pt off c,
         (off, c) ∈ zip (sc_offsets (scheme_of_pattern st ct pt))
                        (sc_coefficients (scheme_of_pattern st ct pt)) ->
         Stencil.weight h order c = inr (weight_of h order c).
Proof.
  intros Hax Hct Hdef HT HR Hnd.
  set (st := Stencil.Make shape axis order h acc (Stencil.data old)).
  assert (Hpts : NoDup (Stencil._det_characteristic_points shape)).
  { apply product_replicate_NoDup, sym_NoDup. }
  destruct (create_stencil_run coefficients st ct
              (Stencil._det_characteristic_points shape) s T R)
    as (T' & L' & Hrun & HR' & Hnd'); try done.
  { intros pt. apply char_pts_length. }
  exists st, (Heap (<[Stencil.data old := T']> (tables s)) L' (arrays s)),
    (create_view st ct (Stencil._det_characteristic_points shape) R).
  assert (Hview : table_view (Heap (<[Stencil.data old := T']> (tables s)) L' (arrays s))
                    (Stencil.data old)
                  = Some (create_view st ct (Stencil._det_characteristic_points shape) R)).
  { unfold table_view. simpl. by rewrite lookup_insert_eq. }
  split; [|split; [done | split; [exact Hview | split; [exact Hview | split;
    [|split; [|split; [|split]]]]]]].
  - unfold Stencil.__init__. unfold bind at 1. unfold ret at 1. fold st.
    by rewrite (bind_inr _ _ _ _ _ Hrun).
  - intros pt Hin. rewrite create_view_get by done. rewrite decide_True by done.
    split; [done|]. intros lo. unfold local_of. by rewrite dict_get_accumulate_all.
  - intros pt Hnin. rewrite create_view_get by done. by rewrite decide_False.
  - intros d Hd. simpl. by rewrite lookup_insert_ne.
  - done.
  - intros pt off c. by apply weights_defined_pattern.
Qed.
End seed_facts.

(** C1 fails as stated: a second construction seeded with the three-point
    stencil doubles the weights of the seed's own table, which is also the
    table of the new instance. *)
Lemma seed_is_mutated :
  exists old s st s',
    Stencil.__init__ coefficients [3] 0 1 1%float 2 None empty_heap = (inr old, s)
    /\ Stencil.__init__ coefficients [3] 0 1 1%float 2 (Some old) s = (inr st, s')
    /\ Stencil.data st = Stencil.data old
    /\ table_view s (Stencil.data old)
       = Some [([LOW], [([0], (-1.5)%float); ([1], 2%float); ([2], (-0.5)%float)]);
               ([CENTER], [([-1], (-0.5)%float); ([0], 0%float); ([1], 0.5%float)]);
               ([HIGH], [([-2], 0.5%float); ([-1], (-2)%float); ([0], 1.5%float)])]
    /\ table_view s' (Stencil.data old)
       = Some [([LOW], [([0], (-3)%float); ([1], 4%float); ([2], (-1)%float)]);
               ([CENTER], [([-1], (-1)%float); ([0], 0%float); ([1], 1%float)]);
               ([HIGH], [([-2], 1%float); ([-1], (-4)%float); ([0], 3%float)])]
    /\ table_view s' (Stencil.data old) <> table_view s (Stencil.data old)
    /\ ~ seed_untouched s s' old st.
Proof.
  do 4 eexists.
  split; [vm_compute; reflexivity|].
  split; [vm_compute; reflexivity|].
  split; [reflexivity|].
  split; [vm_compute; reflexivity|].
  split; [vm_compute; reflexivity|].
  assert (Hdiff : table_view
            (snd (Stencil.__init__ coefficients [3] 0 1 1%float 2
                    (Some (Stencil.Make [3] 0 1 1%float 2 1%positive))
                    (snd (Stencil.__init__ coefficients [3] 0 1 1%float 2 None empty_heap))))
            1%positive
          <> table_view
               (snd (Stencil.__init__ coefficients [3] 0 1 1%float 2 None empty_heap))
               1%positive).
  { intros E.
    apply (f_equal (fun v => match v with
                             | Some ((_, (_, w) :: _) :: _) => PrimFloat.ltb w (-2)%float
                             | _ => false
                             end)) in E.
    vm_compute in E. discriminate E. }
  split; [exact Hdiff|].
  intros [Hsame _]. exact (Hdiff Hsame).
Qed.

(** Seeding a second construction with the three-point stencil: the forward
    weight at offset [0] of the shared table goes from [-1.5] to [-3]. *)
Lemma init_with_seed_accumulates_witness :
  exists st s' R',
    Stencil.__init__ coefficients [3] 0 1 1%float 2 (Some seed_stencil) seed_store
    = (inr st, s')
    /\ Stencil.data st = Stencil.data seed_stencil
    /\ table_view s' (Stencil.data seed_stencil) = Some R'
    /\ exists D, dict_get R' [LOW] = Some D /\ dict_get D [0] = Some (-3)%float.
Proof.
  destruct (init_with_seed_accumulates coefficients [3] 0 1 1%float 2 coefficients_1_2
              seed_stencil seed_store
              [([LOW], 1%positive); ([CENTER], 2%positive); ([HIGH], 3%positive)]
              [([LOW], [([0], (-1.5)%float); ([1], 2%float); ([2], (-0.5)%float)]);
               ([CENTER], [([-1], (-0.5)%float); ([0], 0%float); ([1], 0.5%float)]);
               ([HIGH], [([-2], 0.5%float); ([-1], (-2)%float); ([0], 1.5%float)])])
    as (st & s' & R' & Hrun & Hst & _ & Hview & Hpt & _).
  - simpl. lia.
  - reflexivity.
  - reflexivity.
  - vm_compute. reflexivity.
  - vm_compute. reflexivity.
  - apply (bool_decide_unpack _). vm_compute. reflexivity.
  - exists st, s', R'. split; [exact Hrun|]. split; [by rewrite Hst|].
    split; [exact Hview|].
    destruct (Hpt [LOW]) as [HD Hw].
    { apply list_elem_of_In. vm_compute. auto. }
    eexists. split; [exact HD|].
    rewrite Hw, Hst. vm_compute. reflexivity.
Defined.

(** ** Deep copies *)

Section deepcopy_facts.
Context {W : Type} `{Arith W}.
Implicit Types (self : Stencil.t W) (s : heap W) (d : loc)
  (T : list (pattern * loc)) (R : list (pattern * list (offset * W))).

(** The loop of [deepcopy] over the entries still to copy: every local
    stencil met for the first time is copied to a new reference. *)
Lemma deepcopy_loop d' Trest :
  forall Tacc (memo : gmap loc loc) s Rrest,
    tables s !! d' = Some Tacc ->
    resolve (locals s) Trest = Some Rrest ->
    NoDup Trest.*2 ->
    (forall l, l ∈ Trest.*2 -> memo !! l = None) ->
    NoDup (Tacc.*1 ++ Trest.*1) ->
    exists memo' Tnew L',
      foldM (Stencil.deepcopy_entry d') Trest memo s
      = (inr memo', Heap (<[d' := Tacc ++ Tnew]> (tables s)) L' (arrays s))
      /\ locals s ⊆ L'
      /\ Tnew.*1 = Trest.*1
      /\ resolve L' Tnew = Some Rrest
      /\ NoDup Tnew.*2
      /\ (forall l, l ∈ Tnew.*2 -> locals s !! l = None).
Proof.
  induction Trest as [|[p l] Trest IH]; intros Tacc memo s Rrest HT HR Hnd Hmemo Hkeys.
  - exists memo, [], (locals s). simpl in HR. injection HR as <-.
    split.
    { simpl. unfold ret. f_equal. rewrite app_nil_r.
      destruct s as [TT L A]. simpl in *. f_equal. by rewrite insert_id. }
    split; [done|]. split; [done|]. split; [done|]. split; [apply NoDup_nil_2|].
    intros l Hin. by apply elem_of_nil in Hin.
  - simpl in HR. destruct (locals s !! l) as [D|] eqn:HD; [|done].
    destruct (resolve (locals s) Trest) as [R'|] eqn:HR'; [|done].
    injection HR as <-.
    rewrite fmap_cons in Hnd. apply NoDup_cons in Hnd as [Hl Hnd]. simpl in Hl.
    set (l' := fresh (dom (locals s))).
    assert (Hl' : locals s !! l' = None) by (apply not_elem_of_dom, is_fresh).
    assert (Hp : dict_get Tacc p = None).
    { apply dict_get_None. intros Hin. rewrite fmap_cons in Hkeys.
      apply NoDup_app in Hkeys as (_ & Hdisj & _). apply (Hdisj p Hin). left. }
    set (s1 := Heap (<[d' := Tacc ++ [(p, l')]]> (tables s))
                 (<[l' := D]> (locals s)) (arrays s)).
    assert (Hstep : Stencil.deepcopy_entry d' memo (p, l) s = (inr (<[l := l']> memo), s1)).
    { unfold Stencil.deepcopy_entry. rewrite (Hmemo l) by (rewrite fmap_cons; left).
      unfold bind, read_local, alloc_local, read_table, write_table, ret. rewrite HD. simpl.
      fold l'. rewrite HT. simpl. by rewrite (dict_set_fresh Tacc p l' Hp). }
    destruct (IH (Tacc ++ [(p, l')]) (<[l := l']> memo) s1 R')
      as (memo' & Tnew & L' & Hrun & Hsub & Hk & HRn & Hndn & Hfresh).
    { simpl. apply lookup_insert_eq. }
    { simpl. apply (resolve_mono (locals s)); [by apply insert_subseteq | done]. }
    { done. }
    { intros l0 Hl0. rewrite lookup_insert_ne; [|by intros ->].
      apply Hmemo. rewrite fmap_cons. by right. }
    { rewrite fmap_app, <- app_assoc. by rewrite fmap_cons in Hkeys. }
    exists memo', ((p, l') :: Tnew), L'.
    assert (HL' : L' !! l' = Some D).
    { apply (lookup_weaken _ _ _ _ (lookup_insert_eq (locals s) l' D) Hsub). }
    split; [|split; [|split; [|split; [|split]]]].
    + simpl. rewrite (bind_inr _ _ _ _ _ Hstep), Hrun. simpl.
      by rewrite insert_insert_eq, <- app_assoc.
    + etrans; [|exact Hsub]. simpl. by apply insert_subseteq.
    + rewrite !fmap_cons. simpl. by rewrite Hk.
    + simpl. by rewrite HL', HRn.
    + rewrite fmap_cons. apply NoDup_cons. split; [|done]. simpl.
      intros Hin. specialize (Hfresh l' Hin). simpl in Hfresh.
      by rewrite lookup_insert_eq in Hfresh.
    + intros l0. rewrite fmap_cons. intros [->|Hin]%elem_of_cons; [done|].
      specialize (Hfresh l0 Hin). simpl in Hfresh.
      apply lookup_insert_None in Hfresh. tauto.
Qed.

(** [deepcopy]: a new outer dictionary with the same patterns, referring to
    new local stencils with the same content; nothing that existed is
    written. *)
Lemma deepcopy_run self s T R :
  tables s !! Stencil.data self = Some T ->
  resolve (locals s) T = Some R ->
  NoDup T.*1 -> NoDup T.*2 ->
  exists d' T' L',
    Stencil.deepcopy self s
    = (inr (Stencil.Make (Stencil.shape self) (Stencil.axis self) (Stencil.order self)
              (Stencil.h self) (Stencil.acc self) d'),
       Heap (<[d' := T']> (tables s)) L' (arrays s))
    /\ tables s !! d' = None
    /\ locals s ⊆ L'
    /\ T'.*1 = T.*1
    /\ resolve L' T' = Some R
    /\ NoDup T'.*2
    /\ (forall l, l ∈ T'.*2 -> locals s !! l = None).
Proof.
  intros HT HR Hk Hnd.
  set (d' := fresh (dom (tables s))).
  assert (Hd' : tables s !! d' = None) by (apply not_elem_of_dom, is_fresh).
  destruct (deepcopy_loop d' T [] ∅
              (Heap (<[d' := []]> (tables s)) (locals s) (arrays s)) R)
    as (memo' & Tnew & L' & Hrun & Hsub & Hkeys & HRn & Hndn & Hfresh); try done.
  { simpl. apply lookup_insert_eq. }
  exists d', Tnew, L'. split; [|done].
  unfold Stencil.deepcopy. unfold bind at 1. unfold read_table at 1. rewrite HT. simpl.
  unfold bind at 1. unfold alloc_table at 1. fold d'.
  rewrite (bind_inr _ _ _ _ _ Hrun). unfold ret. simpl.
  by rewrite insert_insert_eq.
Qed.
End deepcopy_facts.

(** ** Merged weights *)

Section merge_facts.
Context {W : Type} `{Arith W}.
Implicit Types (op : W -> W -> W) (D items : list (offset * W)) (o : offset).

Lemma dict_get_merge_one op D o' c o :
  dict_get (merge_one op D (o', c)) o
  = if decide (o' = o)
    then merged_weight op (dict_get D o) (Some c)
    else dict_get D o.
Proof.
  unfold merge_one. simpl. destruct (decide (o' = o)) as [->|Hne].
  - destruct (dict_get D o); by rewrite dict_get_set_eq.
  - destruct (dict_get D o'); by rewrite dict_get_set_ne.
Qed.

Lemma merge_one_NoDup op D oc : NoDup D.*1 -> NoDup (merge_one op D oc).*1.
Proof.
  intros Hnd. unfold merge_one. destruct (dict_get D oc.1); by apply dict_set_NoDup.
Qed.

Lemma merge_local_NoDup op D items : NoDup D.*1 -> NoDup (merge_local op D items).*1.
Proof.
  revert D. induction items as [|oc items IH]; intros D Hnd; [done|].
  unfold merge_local in *. simpl. by apply IH, merge_one_NoDup.
Qed.

(** The weight of the result at an offset, from the weights of the two
    operands there. *)
Lemma dict_get_merge_local op D items o :
  NoDup items.*1 ->
  dict_get (merge_local op D items) o
  = merged_weight op (dict_get D o) (dict_get items o).
Proof.
  revert D. induction items as [|[o' c] items IH]; intros D Hnd.
  - simpl. by destruct (dict_get D o).
  - rewrite fmap_cons in Hnd. apply NoDup_cons in Hnd as [Hnin Hnd]. simpl in Hnin.
    unfold merge_local in *. simpl. rewrite (IH _ Hnd), dict_get_merge_one.
    destruct (decide (o = o')) as [->|Hne].
    + rewrite decide_True by done.
      apply dict_get_None in Hnin. rewrite Hnin.
      by destruct (dict_get D o').
    + by rewrite decide_False by done.
Qed.

(** The offsets of the result are those of either operand. *)
Lemma merge_local_keys op D items o :
  NoDup items.*1 ->
  o ∈ (merge_local op D items).*1 <-> o ∈ D.*1 \/ o ∈ items.*1.
Proof.
  intros Hnd.
  rewrite <- (dict_get_is_Some (merge_local op D items)),
    <- (dict_get_is_Some D), <- (dict_get_is_Some items).
  rewrite dict_get_merge_local by done.
  destruct (dict_get D o) as [x|], (dict_get items o) as [y|]; simpl; split; intros Hx;
    first [ left; by exists x | right; by exists y | by exists (op x y) | by exists x
          | by exists (op (wofZ 0) y) | left; exact Hx
          | destruct Hx as [Hx|Hx]; exact Hx ].
Qed.

(** Where the left weights absorb a zero on the right, the result is the
    offset-wise combination with missing weights read as zero. *)
Lemma merged_weight_offsetwise op (a b : option W) :
  (forall x, a = Some x -> op x (wofZ 0) = x) ->
  merged_weight op a b = offsetwise op a b.
Proof.
  intros Hzero. destruct a as [x|], b as [y|]; simpl; try done.
  by rewrite (Hzero x).
Qed.

Lemma dict_get_merge_view op (R Ro : list (pattern * list (offset * W))) (p : pattern) :
  dict_get (merge_view op R Ro) p
  = (fun D => merge_local op D (default [] (dict_get Ro p))) <$> dict_get R p.
Proof.
  induction R as [|[p' D] R IH]; simpl; [done|].
  destruct (decide (p = p')) as [->|Hne]; [done | exact IH].
Qed.

Lemma merge_view_keys op (R Ro : list (pattern * list (offset * W))) :
  (merge_view op R Ro).*1 = R.*1.
Proof.
  unfold merge_view. rewrite <- list_fmap_compose. by apply list_fmap_ext.
Qed.
End merge_facts.

(** ** Combination *)

Section binaryop_facts.
Context {W : Type} `{Arith W}.
Implicit Types (self other : Stencil.t W) (s : heap W) (op : W -> W -> W)
  (T : list (pattern * loc)) (R : list (pattern * list (offset * W)))
  (L : gmap loc (list (offset * W))).

Lemma binaryop_one_run op l s D oc :
  locals s !! l = Some D ->
  Stencil.binaryop_one op l oc s
  = (inr tt, Heap (tables s) (<[l := merge_one op D oc]> (locals s)) (arrays s)).
Proof.
  intros HD. destruct oc as [o c].
  unfold Stencil.binaryop_one, bind, read_local. rewrite HD. simpl.
  unfold merge_one. simpl. by destruct (dict_get D o).
Qed.

Lemma binaryop_items_run op l items s D :
  locals s !! l = Some D ->
  forM_ items (Stencil.binaryop_one op l) s
  = (inr tt, Heap (tables s) (<[l := merge_local op D items]> (locals s)) (arrays s)).
Proof.
  revert s D. induction items as [|oc items IH]; intros s D HD; simpl.
  - unfold ret. f_equal. destruct s as [TT L A]. simpl in *. f_equal.
    by rewrite insert_id.
  - rewrite (bind_inr _ _ _ _ _ (binaryop_one_run op l s D oc HD)).
    rewrite (IH _ (merge_one op D oc)) by (simpl; apply lookup_insert_eq).
    simpl. by rewrite insert_insert_eq.
Qed.

(** One turn of the outer loop: the local stencil [l] of the copy takes in
    the items of the other operand's local stencil for the same pattern. *)
Lemma binaryop_pattern_run other op s To lo p l D Do :
  tables s !! Stencil.data other = Some To ->
  dict_get To p = Some lo ->
  locals s !! lo = Some Do ->
  locals s !! l = Some D ->
  Stencil.binaryop_pattern other op (p, l) s
  = (inr tt, Heap (tables s) (<[l := merge_local op D Do]> (locals s)) (arrays s)).
Proof.
  intros HTo Hp Hlo Hl. unfold Stencil.binaryop_pattern.
  unfold bind at 1. unfold read_table at 1. rewrite HTo. simpl.
  rewrite (bind_lift_inr _ _ _ lo) by (by rewrite Hp).
  unfold bind at 1. unfold read_local at 1. rewrite Hlo. simpl.
  by apply binaryop_items_run.
Qed.

(** The outer loop over the entries of the copy.  [L0] is the part of the
    store that the loop only reads: it holds the local stencils of the other
    operand and none of the copy. *)
Lemma binaryop_loop_run other op To Ro L0 Trest :
  forall s Rrest,
    L0 ⊆ locals s ->
    tables s !! Stencil.data other = Some To ->
    resolve L0 To = Some Ro ->
    resolve (locals s) Trest = Some Rrest ->
    NoDup Trest.*2 ->
    (forall l, l ∈ Trest.*2 -> L0 !! l = None) ->
    (forall p, p ∈ Trest.*1 -> is_Some (dict_get To p)) ->
    exists L',
      forM_ Trest (Stencil.binaryop_pattern other op) s
      = (inr tt, Heap (tables s) L' (arrays s))
      /\ L0 ⊆ L'
      /\ resolve L' Trest = Some (merge_view op Rrest Ro)
      /\ (forall l, l ∉ Trest.*2 -> L' !! l = locals s !! l).
Proof.
  induction Trest as [|[p l] Trest IH]; intros s Rrest Hsub HTo HRo HR Hnd Hfresh Hkeys.
  - exists (locals s). simpl in HR. injection HR as <-.
    split; [by destruct s|]. done.
  - simpl in HR. destruct (locals s !! l) as [D|] eqn:HD; [|done].
    destruct (resolve (locals s) Trest) as [R'|] eqn:HR'; [|done].
    injection HR as <-.
    rewrite fmap_cons in Hnd. apply NoDup_cons in Hnd as [Hl Hnd]. simpl in Hl.
    destruct (Hkeys p) as [lo Hlo]; [rewrite fmap_cons; left|].
    destruct (resolve_locs _ _ _ lo HRo) as [Do HDo].
    { apply dict_get_Some_elem in Hlo. apply list_elem_of_fmap. by exists (p, lo). }
    assert (HRop : dict_get Ro p = Some Do).
    { by rewrite (resolve_get_Some _ _ _ _ _ HRo Hlo). }
    pose proof (lookup_weaken _ _ _ _ HDo Hsub) as HDo'.
    assert (HL0l : L0 !! l = None) by (apply Hfresh; rewrite fmap_cons; left).
    destruct (IH (Heap (tables s) (<[l := merge_local op D Do]> (locals s)) (arrays s)) R')
      as (L' & Hrun & Hsub' & HRm & Hframe).
    { simpl. by apply insert_subseteq_r. }
    { done. }
    { done. }
    { simpl. by rewrite resolve_insert_notin. }
    { done. }
    { intros l0 Hl0. apply Hfresh. rewrite fmap_cons. by right. }
    { intros p0 Hp0. apply Hkeys. rewrite fmap_cons. by right. }
    exists L'. split; [|split; [done | split]].
    + simpl.
      rewrite (bind_inr _ _ _ _ _
                 (binaryop_pattern_run other op s To lo p l D Do HTo Hlo HDo' HD)).
      exact Hrun.
    + simpl. rewrite (Hframe l Hl). simpl. rewrite lookup_insert_eq, HRm.
      simpl. by rewrite HRop.
    + intros l0. rewrite fmap_cons. intros [Hne Hnin]%not_elem_of_cons.
      rewrite (Hframe l0 Hnin). simpl. by rewrite lookup_insert_ne.
Qed.
End binaryop_facts.

Section binaryop_result.
Context {W : Type} `{Arith W}.
Implicit Types (self other : Stencil.t W) (s : heap W) (op : W -> W -> W)
  (T : list (pattern * loc)) (R : list (pattern * list (offset * W))).

(** The run of [_binaryop] on two tables in the store. *)
Lemma binaryop_run self other op s T R To Ro :
  stencil_ok s (Stencil.data self) T R ->
  tables s !! Stencil.data other = Some To ->
  resolve (locals s) To = Some Ro ->
  Stencil.shape self = Stencil.shape other ->
  (forall p, p ∈ T.*1 -> p ∈ To.*1) ->
  exists d' T' L',
    Stencil._binaryop self other op s
    = (inr (Stencil.Make (Stencil.shape self) (Stencil.axis self) (Stencil.order self)
              (Stencil.h self) (Stencil.acc self) d'),
       Heap (<[d' := T']> (tables s)) L' (arrays s))
    /\ tables s !! d' = None
    /\ locals s ⊆ L'
    /\ T'.*1 = T.*1
    /\ resolve L' T' = Some (merge_view op R Ro)
    /\ NoDup T'.*2.
Proof.
  intros (HT & HR & Hk & Hnd & _) HTo HRo Hshape Hpat.
  destruct (deepcopy_run self s T R HT HR Hk Hnd)
    as (d' & T' & L1 & Hcopy & Hd' & Hsub1 & Hkeys & HR1 & Hnd1 & Hfresh).
  assert (Hne : Stencil.data other <> d') by congruence.
  destruct (binaryop_loop_run other op To Ro (locals s) T'
              (Heap (<[d' := T']> (tables s)) L1 (arrays s)) R)
    as (L' & Hloop & Hsub & HRm & _); try done.
  { simpl. by rewrite lookup_insert_ne. }
  { intros p Hp. apply dict_get_is_Some, Hpat. by rewrite <- Hkeys. }
  exists d', T', L'. split; [|done].
  unfold Stencil._binaryop.
  rewrite (bind_inr _ _ _ _ _ Hcopy). simpl Stencil.shape.
  rewrite bool_decide_true by done. unfold bind at 1. simpl.
  unfold bind at 1. unfold read_table at 1. simpl. rewrite lookup_insert_eq. simpl.
  by rewrite (bind_inr _ _ _ _ _ Hloop).
Qed.

Lemma dict_get_Forall {K V : Type} `{EqDecision K} (P : K * V -> Prop)
    (d : list (K * V)) (k : K) (v : V) :
  Forall P d -> dict_get d k = Some v -> P (k, v).
Proof.
  intros Hall Hget. apply dict_get_Some_elem in Hget.
  rewrite Forall_forall in Hall. by apply Hall.
Qed.

(** C5: for two stencils of the same shape whose tables are in the store,
    where every pattern of the left operand is a pattern of the right one,
    [_binaryop] (so [+] with [op = wadd] and [-] with [op = wsub]) returns a
    stencil with a new table over the patterns of the left operand; at
    every pattern the weight at an offset is [op] of the two operands'
    weights there, the left weight alone where only the left has the
    offset and [op 0 c] where only the right has it, so the offsets are the
    union of the operands' offsets, and where a zero on the right leaves
    the left weights unchanged this is the offset-wise [op] with missing
    weights read as zero.  Both operands read as before and nothing that
    existed in the store is written. *)
Theorem binaryop_combines self other op s T R To Ro :
  stencil_ok s (Stencil.data self) T R ->
  stencil_ok s (Stencil.data other) To Ro ->
  Stencil.shape self = Stencil.shape other ->
  (forall p, p ∈ T.*1 -> p ∈ To.*1) ->
  exists stl s' R',
    Stencil._binaryop self other op s = (inr stl, s')
    /\ tables s !! Stencil.data stl = None
    /\ Stencil.shape stl = Stencil.shape self
    /\ table_view s' (Stencil.data stl) = Some R'
    /\ R'.*1 = R.*1
    /\ (forall p D Do,
          dict_get R p = Some D -> dict_get Ro p = Some Do ->
          exists D',
            dict_get R' p = Some D'
            /\ (forall o, dict_get D' o
                          = merged_weight op (dict_get D o) (dict_get Do o))
            /\ (forall o, o ∈ D'.*1 <-> o ∈ D.*1 \/ o ∈ Do.*1)
            /\ ((forall o x, dict_get D o = Some x -> op x (wofZ 0) = x) ->
                forall o, dict_get D' o
                          = offsetwise op (dict_get D o) (dict_get Do o)))
    /\ table_view s' (Stencil.data self) = Some R
    /\ table_view s' (Stencil.data other) = Some Ro
    /\ tables s ⊆ tables s'
    /\ locals s ⊆ locals s'
    /\ arrays s' = arrays s.
Proof.
  intros Hok Hoko Hshape Hpat.
  pose proof Hok as (HT & HR & _). pose proof Hoko as (HTo & HRo & _ & _ & HndRo).
  destruct (binaryop_run self other op s T R To Ro Hok HTo HRo Hshape Hpat)
    as (d' & T' & L' & Hrun & Hd' & Hsub & Hkeys & HRm & _).
  eexists _, _, (merge_view op R Ro). split; [exact Hrun|]. simpl.
  split; [done|]. split; [done|].
  split; [unfold table_view; simpl; by rewrite lookup_insert_eq|].
  split; [apply merge_view_keys|].
  split; [|split; [|split; [|split; [|split; [done | done]]]]].
  - intros p D Do HD HDo.
    assert (Hnd : NoDup Do.*1) by apply (dict_get_Forall _ _ _ _ HndRo HDo).
    exists (merge_local op D Do). split; [|split; [|split]].
    + by rewrite dict_get_merge_view, HD, HDo.
    + intros o. by apply dict_get_merge_local.
    + intros o. by apply merge_local_keys.
    + intros Hzero o. rewrite dict_get_merge_local by done.
      apply merged_weight_offsetwise. intros x Hx. by apply (Hzero o).
  - unfold table_view. simpl.
    rewrite lookup_insert_ne by congruence. rewrite HT.
    by apply (resolve_mono (locals s)).
  - unfold table_view. simpl.
    rewrite lookup_insert_ne by congruence. rewrite HTo.
    by apply (resolve_mono (locals s)).
  - by apply insert_subseteq.
Qed.
End binaryop_result.

(** ** A stencil minus itself, and mismatched shapes *)

Section binaryop_corollaries.
Context {W : Type} `{Arith W}.
Implicit Types (self other : Stencil.t W) (s : heap W)
  (T : list (pattern * loc)) (R : list (pattern * list (offset * W))).

(** The weights of a combination, pattern by pattern and offset by
    offset. *)
Lemma binaryop_weights self other op s T R To Ro :
  stencil_ok s (Stencil.data self) T R ->
  stencil_ok s (Stencil.data other) To Ro ->
  Stencil.shape self = Stencil.shape other ->
  (forall p, p ∈ T.*1 -> p ∈ To.*1) ->
  exists stl s' R',
    Stencil._binaryop self other op s = (inr stl, s')
    /\ table_view s' (Stencil.data stl) = Some R'
    /\ forall p D Do,
         dict_get R p = Some D -> dict_get Ro p = Some Do ->
         exists D',
           dict_get R' p = Some D'
           /\ forall o, dict_get D' o = merged_weight op (dict_get D o) (dict_get Do o).
Proof.
  intros Hok Hoko Hshape Hpat.
  pose proof Hoko as (HTo & HRo & _ & _ & HndRo).
  destruct (binaryop_run self other op s T R To Ro Hok HTo HRo Hshape Hpat)
    as (d' & T' & L' & Hrun & Hd' & Hsub & Hkeys & HRm & _).
  eexists _, _, (merge_view op R Ro). split; [exact Hrun|].
  split; [unfold table_view; simpl; by rewrite lookup_insert_eq|].
  intros p D Do HD HDo.
  assert (Hnd : NoDup Do.*1) by apply (dict_get_Forall _ _ _ _ HndRo HDo).
  exists (merge_local op D Do). split.
  - by rewrite dict_get_merge_view, HD, HDo.
  - intros o. by apply dict_get_merge_local.
Qed.

(** C6: for a stencil whose table is in the store (every constructed
    stencil, and every result of a combination), where each weight [a] of
    the table satisfies [a - a = 0.] (as every finite float does), the
    table of [self - self] has weight exactly [0.] at every pattern and
    offset of [self]'s table. *)
Theorem sub_self_is_zero self s T R :
  stencil_ok s (Stencil.data self) T R ->
  (forall p D o a, dict_get R p = Some D -> dict_get D o = Some a -> wsub a a = wzero) ->
  exists stl s' R',
    Stencil.__sub__ self self s = (inr stl, s')
    /\ table_view s' (Stencil.data stl) = Some R'
    /\ forall p D o a,
         dict_get R p = Some D -> dict_get D o = Some a ->
         exists D', dict_get R' p = Some D' /\ dict_get D' o = Some wzero.
Proof.
  intros Hok Hcancel.
  destruct (binaryop_weights self self wsub s T R T R Hok Hok eq_refl (fun p Hp => Hp))
    as (stl & s' & R' & Hrun & Hview & Hw).
  exists stl, s', R'. split; [exact Hrun|]. split; [exact Hview|].
  intros p D o a HD Ha.
  destruct (Hw p D D HD HD) as (D' & HD' & Hget).
  exists D'. split; [exact HD'|].
  rewrite Hget, Ha. simpl. by rewrite (Hcancel p D o a).
Qed.

(** The assertion of [_binaryop] fails after the deep copy: the copy is
    unreachable and nothing that existed is written. *)
Lemma binaryop_shape_mismatch self other op s T R :
  stencil_ok s (Stencil.data self) T R ->
  Stencil.shape self <> Stencil.shape other ->
  exists s',
    Stencil._binaryop self other op s = (inl AssertionError, s')
    /\ tables s ⊆ tables s'
    /\ locals s ⊆ locals s'
    /\ arrays s' = arrays s.
Proof.
  intros (HT & HR & Hk & Hnd & _) Hne.
  destruct (deepcopy_run self s T R HT HR Hk Hnd)
    as (d' & T' & L1 & Hcopy & Hd' & Hsub1 & _).
  eexists. split; [|split; [|split]].
  - unfold Stencil._binaryop. rewrite (bind_inr _ _ _ _ _ Hcopy). simpl Stencil.shape.
    rewrite bool_decide_false by done. reflexivity.
  - simpl. by apply insert_subseteq.
  - done.
  - done.
Qed.

(** C7: [apply_all] on an array of another shape, and [+] or [-] on a
    stencil of another shape, end in [AssertionError]; [apply_all] leaves
    the store as it was, the combination leaves every object that existed
    as it was (its only trace is the unreachable deep copy), and neither
    returns an array or a stencil. *)
Theorem shape_mismatch_fails self other op u ua s T R :
  arrays s !! u = Some ua ->
  Stencil.shape self <> ashape ua ->
  stencil_ok s (Stencil.data self) T R ->
  Stencil.shape self <> Stencil.shape other ->
  Stencil.apply_all self u s = (inl AssertionError, s)
  /\ exists s',
       Stencil._binaryop self other op s = (inl AssertionError, s')
       /\ tables s ⊆ tables s'
       /\ locals s ⊆ locals s'
       /\ arrays s' = arrays s
       /\ table_view s' (Stencil.data self) = table_view s (Stencil.data self)
       /\ (forall To Ro, tables s !! Stencil.data other = Some To ->
             resolve (locals s) To = Some Ro ->
             table_view s' (Stencil.data other) = Some Ro).
Proof.
  intros Hu Hne Hok Hne'. split; [by apply (apply_all_shape_mismatch self u ua)|].
  destruct (binaryop_shape_mismatch self other op s T R Hok Hne')
    as (s' & Hrun & HsubT & HsubL & HA).
  exists s'. split; [exact Hrun|]. split; [done|]. split; [done|]. split; [done|].
  destruct Hok as (HT & HR & _). split.
  - unfold table_view. rewrite HT, (lookup_weaken _ _ _ _ HT HsubT), HR.
    by apply (resolve_mono (locals s)).
  - intros To Ro HTo HRo. unfold table_view.
    rewrite (lookup_weaken _ _ _ _ HTo HsubT).
    by apply (resolve_mono (locals s)).
Qed.
End binaryop_corollaries.

(** ** The combinations of two three-point stencils *)

Lemma seed_ok : stencil_ok pair_store (Stencil.data seed_stencil) seed_table seed_view.
Proof.
  split; [vm_compute; reflexivity|]. split; [vm_compute; reflexivity|].
  split; [apply (bool_decide_unpack _); vm_compute; reflexivity|].
  split; [apply (bool_decide_unpack _); vm_compute; reflexivity|].
  repeat (apply Forall_cons; split;
          [apply (bool_decide_unpack _); vm_compute; reflexivity|]).
  apply Forall_nil_2.
Qed.

Lemma coarse_ok :
  stencil_ok pair_store (Stencil.data coarse_stencil) coarse_table coarse_view.
Proof.
  split; [vm_compute; reflexivity|]. split; [vm_compute; reflexivity|].
  split; [apply (bool_decide_unpack _); vm_compute; reflexivity|].
  split; [apply (bool_decide_unpack _); vm_compute; reflexivity|].
  repeat (apply Forall_cons; split;
          [apply (bool_decide_unpack _); vm_compute; reflexivity|]).
  apply Forall_nil_2.
Qed.

(** The sum of the two three-point stencils: the forward weight at offset
    [0] is [-1.5 + -0.75], and the left operand reads as before. *)
Lemma binaryop_combines_witness :
  exists stl s' R',
    Stencil.__add__ seed_stencil coarse_stencil pair_store = (inr stl, s')
    /\ table_view s' (Stencil.data stl) = Some R'
    /\ (exists D', dict_get R' [LOW] = Some D' /\ dict_get D' [0] = Some (-2.25)%float)
    /\ table_view s' (Stencil.data seed_stencil) = Some seed_view.
Proof.
  destruct (binaryop_combines seed_stencil coarse_stencil PrimFloat.add pair_store
              seed_table seed_view coarse_table coarse_view seed_ok coarse_ok eq_refl)
    as (stl & s' & R' & Hrun & _ & _ & Hview & _ & Hw & Hself & _).
  { intros p Hp. exact Hp. }
  exists stl, s', R'. split; [exact Hrun|]. split; [exact Hview|]. split; [|exact Hself].
  destruct (Hw [LOW] [([0], (-1.5)%float); ([1], 2%float); ([2], (-0.5)%float)]
              [([0], (-0.75)%float); ([1], 1%float); ([2], (-0.25)%float)]
              eq_refl eq_refl) as (D' & HD' & Hget & _).
  exists D'. split; [exact HD'|]. rewrite Hget. reflexivity.
Defined.

Lemma mixed_ok : stencil_ok mixed_store (Stencil.data mixed_stencil) mixed_table mixed_view.
Proof.
  split; [vm_compute; reflexivity|]. split; [vm_compute; reflexivity|].
  split; [apply (bool_decide_unpack _); vm_compute; reflexivity|].
  split; [apply (bool_decide_unpack _); vm_compute; reflexivity|].
  apply (bool_decide_unpack _). vm_compute. reflexivity.
Qed.

Lemma plain_ok : stencil_ok mixed_store (Stencil.data plain_stencil) plain_table plain_view.
Proof.
  split; [vm_compute; reflexivity|]. split; [vm_compute; reflexivity|].
  split; [apply (bool_decide_unpack _); vm_compute; reflexivity|].
  split; [apply (bool_decide_unpack _); vm_compute; reflexivity|].
  apply (bool_decide_unpack _). vm_compute. reflexivity.
Qed.

(** C5 fails as stated: a one-axis stencil seeded with a two-axis one and a
    one-axis stencil of its own have the same shape and well-formed tables,
    yet their sum and their difference raise [KeyError], the right operand
    having no pattern [('L', 'L')]; in the other order the combination
    returns, with the three patterns of the left operand only. *)
Lemma same_shape_key_error :
  stencil_ok mixed_store (Stencil.data mixed_stencil) mixed_table mixed_view
  /\ stencil_ok mixed_store (Stencil.data plain_stencil) plain_table plain_view
  /\ Stencil.shape mixed_stencil = Stencil.shape plain_stencil
  /\ fst (Stencil.__add__ mixed_stencil plain_stencil mixed_store) = inl KeyError
  /\ fst (Stencil.__sub__ mixed_stencil plain_stencil mixed_store) = inl KeyError
  /\ length mixed_view = 12%nat
  /\ exists stl s',
       Stencil.__add__ plain_stencil mixed_stencil mixed_store = (inr stl, s')
       /\ option_map (map fst) (table_view s' (Stencil.data stl))
          = Some [[LOW]; [CENTER]; [HIGH]].
Proof.
  split; [exact mixed_ok|]. split; [exact plain_ok|].
  split; [reflexivity|].
  split; [vm_compute; reflexivity|]. split; [vm_compute; reflexivity|].
  split; [vm_compute; reflexivity|].
  eexists _, _. split; vm_compute; reflexivity.
Qed.

(** A five-point array given to the three-point stencil, and the
    three-point stencil added to a four-point one. *)
Lemma shape_mismatch_fails_witness :
  Stencil.apply_all seed_stencil 1%positive pair_store = (inl AssertionError, pair_store)
  /\ exists s',
       Stencil.__add__ seed_stencil wide_stencil pair_store = (inl AssertionError, s')
       /\ table_view s' (Stencil.data seed_stencil) = Some seed_view.
Proof.
  destruct (shape_mismatch_fails seed_stencil wide_stencil PrimFloat.add 1%positive ramp
              pair_store seed_table seed_view)
    as (Happ & s' & Hrun & _ & _ & _ & Hself & _).
  - vm_compute. reflexivity.
  - simpl. intros [=].
  - exact seed_ok.
  - simpl. intros [=].
  - split; [exact Happ|]. exists s'. split; [exact Hrun|].
    rewrite Hself. vm_compute. reflexivity.
Defined.

(** ** Cancellation in binary64 *)

(** A finite float minus itself is [+0.0]. *)
Lemma float_sub_self (x : float) : finite x = true -> PrimFloat.sub x x = 0%float.
Proof.
  intros Hfin. apply Prim2SF_inj. rewrite sub_spec. unfold finite in Hfin.
  destruct (Prim2SF x) as [s|s| |s m e]; try done.
  - by destruct s.
  - unfold SF64sub, SFsub. cbv zeta. by rewrite Z.sub_diag.
Qed.

Section sub_self_float.
Implicit Types (self : Stencil.t float) (s : heap float)
  (T : list (pattern * loc)) (R : list (pattern * list (offset * float))).

(** C6, as the code has it: for a stencil whose table is in the store
    (every constructed stencil, and every result of a combination) and
    whose weights are all finite, the table of [self - self] has weight
    exactly [0.0] at every pattern and offset of [self]'s table. *)
Theorem sub_self_finite_is_zero self s T R :
  stencil_ok s (Stencil.data self) T R ->
  (forall p D o a, dict_get R p = Some D -> dict_get D o = Some a -> finite a = true) ->
  exists stl s' R',
    Stencil.__sub__ self self s = (inr stl, s')
    /\ table_view s' (Stencil.data stl) = Some R'
    /\ forall p D o a,
         dict_get R p = Some D -> dict_get D o = Some a ->
         exists D', dict_get R' p = Some D' /\ dict_get D' o = Some 0%float.
Proof.
  intros Hok Hfin.
  destruct (sub_self_is_zero self s T R Hok) as (stl & s' & R' & Hrun & Hview & Hzero).
  { intros p D o a HD Ha. apply float_sub_self. by apply (Hfin p D o a). }
  exists stl, s', R'. split; [exact Hrun|]. split; [exact Hview|]. exact Hzero.
Qed.
End sub_self_float.

(** The three-point stencil minus itself. *)
Lemma sub_self_finite_is_zero_witness :
  exists stl s' R',
    Stencil.__sub__ seed_stencil seed_stencil pair_store = (inr stl, s')
    /\ table_view s' (Stencil.data stl) = Some R'
    /\ exists D', dict_get R' [HIGH] = Some D' /\ dict_get D' [-1] = Some 0%float.
Proof.
  destruct (sub_self_finite_is_zero seed_stencil pair_store seed_table seed_view seed_ok)
    as (stl & s' & R' & Hrun & Hview & Hzero).
  { intros p D o a HD Ha.
    apply dict_get_Some_elem in HD. apply dict_get_Some_elem in Ha.
    apply list_elem_of_In in HD. simpl in HD.
    destruct HD as [[= <- <-]|[[= <- <-]|[[= <- <-]|[]]]];
      apply list_elem_of_In in Ha; simpl in Ha;
      destruct Ha as [[= <- <-]|[[= <- <-]|[[= <- <-]|[]]]]; reflexivity. }
  exists stl, s', R'. split; [exact Hrun|]. split; [exact Hview|].
  exact (Hzero [HIGH] [([-2], 0.5%float); ([-1], (-2)%float); ([0], 1.5%float)]
           [-1] (-2)%float eq_refl eq_refl).
Defined.

(** C6 fails as stated: with the spacing [5e-324] the quotient
    [-1.5 / h ** 1] overflows to minus infinity, and the weight of
    [s - s] at that offset is [inf - inf], a NaN. *)
Lemma sub_self_not_zero :
  exists st s D stl s' D' a,
    Stencil.__init__ coefficients [3] 0 1 tiny 2 None empty_heap = (inr st, s)
    /\ for_all_view s (Stencil.data st) [LOW] = Some D
    /\ dict_get D [0] = Some neg_infinity
    /\ Stencil.__sub__ st st s = (inr stl, s')
    /\ for_all_view s' (Stencil.data stl) [LOW] = Some D'
    /\ dict_get D' [0] = Some a
    /\ a = nan
    /\ a <> 0%float.
Proof.
  do 7 eexists.
  split; [vm_compute; reflexivity|].
  split; [vm_compute; reflexivity|].
  split; [vm_compute; reflexivity|].
  split; [vm_compute; reflexivity|].
  split; [vm_compute; reflexivity|].
  split; [vm_compute; reflexivity|].
  split; [reflexivity|].
  intros E. apply (f_equal PrimFloat.is_nan) in E. vm_compute in E. discriminate E.
Qed.

(** ** Where the representation invariant comes from *)

Section invariant_facts.
Context {W : Type} `{Arith W}.
Variable coefficients : Z -> Z -> result (coef_table W).
Implicit Types (s : heap W) (shape : list Z) (h : W)
  (T : list (pattern * loc)) (R : list (pattern * list (offset * W))).

Lemma accumulate_all_NoDup (D cs : list (offset * W)) :
  NoDup D.*1 -> NoDup (accumulate_all D cs).*1.
Proof.
  revert D. induction cs as [|[lo w] cs IH]; intros D Hnd; [done|].
  unfold accumulate_all in *. simpl. apply IH. unfold dict_add.
  destruct (dict_get D lo); by apply dict_set_NoDup.
Qed.

(** A construction without a seed, where [c / h ** order] raises for no
    coefficient of the generator's answer, establishes the invariant. *)
Lemma init_establishes_ok shape axis order h acc ct s :
  0 <= axis < Z.of_nat (length shape) ->
  coefficients order acc = inr ct ->
  weights_defined h order ct = true ->
  exists st s' T' R',
    Stencil.__init__ coefficients shape axis order h acc None s = (inr st, s')
    /\ stencil_ok s' (Stencil.data st) T' R'
    /\ R'.*1 = Stencil._det_characteristic_points shape.
Proof.
  intros Hax Hct Hdef.
  set (d := fresh (dom (tables s))).
  set (st := Stencil.Make shape axis order h acc d).
  assert (Hpts : NoDup (Stencil._det_characteristic_points shape)).
  { apply product_replicate_NoDup, sym_NoDup. }
  destruct (create_stencil_run coefficients st ct
              (Stencil._det_characteristic_points shape)
              (Heap (<[d := []]> (tables s)) (locals s) (arrays s)) [] [])
    as (T' & L' & Hrun & HR & Hnd); try done.
  { intros pt. apply char_pts_length. }
  { simpl. apply lookup_insert_eq. }
  { apply NoDup_nil_2. }
  rewrite create_view_fresh in HR; [|done | intros pt _; apply not_elem_of_nil].
  simpl in HR.
  assert (Hkeys : (map (fun pt => (pt, local_of st ct pt []))
                     (Stencil._det_characteristic_points shape)).*1
                  = Stencil._det_characteristic_points shape).
  { rewrite <- list_fmap_compose. simpl. apply list_fmap_id. }
  exists st, (Heap (<[d := T']> (tables s)) L' (arrays s)), T',
    (map (fun pt => (pt, local_of st ct pt []))
       (Stencil._det_characteristic_points shape)).
  split; [|split; [|exact Hkeys]].
  - unfold Stencil.__init__. unfold bind at 1. unfold alloc_table at 1. fold d. fold st.
    rewrite (bind_inr _ _ _ _ _ Hrun). unfold ret. simpl.
    by rewrite insert_insert_eq.
  - split; [simpl; apply lookup_insert_eq|]. split; [exact HR|].
    split; [by rewrite <- (resolve_keys _ _ _ HR), Hkeys|]. split; [done|].
    apply Forall_fmap, Forall_forall. intros pt _. simpl.
    apply accumulate_all_NoDup, NoDup_nil_2.
Qed.

(** A combination establishes it for its result. *)
Lemma binaryop_establishes_ok (self other : Stencil.t W) op s T R To Ro :
  stencil_ok s (Stencil.data self) T R ->
  stencil_ok s (Stencil.data other) To Ro ->
  Stencil.shape self = Stencil.shape other ->
  (forall p, p ∈ T.*1 -> p ∈ To.*1) ->
  exists stl s' T',
    Stencil._binaryop self other op s = (inr stl, s')
    /\ stencil_ok s' (Stencil.data stl) T' (merge_view op R Ro).
Proof.
  intros Hok (HTo & HRo & _) Hshape Hpat.
  destruct (binaryop_run self other op s T R To Ro Hok HTo HRo Hshape Hpat)
    as (d' & T' & L' & Hrun & Hd' & Hsub & Hkeys & HRm & Hnd').
  destruct Hok as (_ & _ & Hk & _ & HndR).
  eexists _, _, T'. split; [exact Hrun|].
  split; [simpl; apply lookup_insert_eq|]. split; [exact HRm|].
  split; [by rewrite Hkeys|]. split; [done|].
  unfold merge_view. apply Forall_fmap. eapply Forall_impl; [exact HndR|].
  intros [p D] HD. simpl in *. by apply merge_local_NoDup.
Qed.
End invariant_facts.

(** * Further properties of the methods

    ** What [apply], [for_point] and [apply_all] never write *)

Section never_writes.
Context {W : Type} `{Arith W}.
Implicit Types (self : Stencil.t W) (s : heap W) (u du : loc).

(** [apply] and [for_point] hand back the store they were given, whether
    they return a value or raise. *)
Theorem apply_never_writes self u idx0 s :
  snd (Stencil.apply self u idx0 s) = s
  /\ snd (Stencil.for_point self idx0 s) = s.
Proof.
  split; [apply apply_readonly|].
  unfold Stencil.for_point, bind, lift, read_table.
  destruct (Stencil.type_for_point self idx0) as [e|typ]; [done|].
  by destruct (tables s !! Stencil.data self) as [T|].
Qed.

Lemma apply_store_frame self u du idx s :
  tables (snd (Stencil.apply_store self u du idx s)) = tables s
  /\ locals (snd (Stencil.apply_store self u du idx s)) = locals s
  /\ forall l, l <> du ->
       arrays (snd (Stencil.apply_store self u du idx s)) !! l = arrays s !! l.
Proof.
  unfold Stencil.apply_store, bind.
  rewrite (apply_frame self u idx s s (same_inputs_refl u s)).
  destruct (fst (Stencil.apply self u idx s)) as [e|v]; [done|].
  unfold read_array, lift, write_array.
  destruct (arrays s !! du) as [a|]; simpl; [|done].
  destruct (np_setitem a idx v) as [e|a']; simpl; [done|].
  repeat split. intros l Hl. by rewrite lookup_insert_ne.
Qed.

Lemma apply_all_loop_frame self u du indices s :
  tables (snd (forM_ indices (Stencil.apply_store self u du) s)) = tables s
  /\ locals (snd (forM_ indices (Stencil.apply_store self u du) s)) = locals s
  /\ forall l, l <> du ->
       arrays (snd (forM_ indices (Stencil.apply_store self u du) s)) !! l
       = arrays s !! l.
Proof.
  revert s. induction indices as [|idx indices IH]; intros s; simpl; [done|].
  destruct (apply_store_frame self u du idx s) as (HT & HL & HA).
  unfold bind. destruct (Stencil.apply_store self u du idx s) as [[e|[]] s1]; [done|].
  simpl in *. destruct (IH s1) as (HT' & HL' & HA').
  split; [congruence|]. split; [congruence|].
  intros l Hl. by rewrite HA', HA.
Qed.

(** [apply_all] writes nothing that existed: the dictionaries are as
    before and every array of the store, [u] among them, reads as before,
    also when the call raises midway; its only trace is the array it
    allocated. *)
Theorem apply_all_never_writes self u s :
  tables (snd (Stencil.apply_all self u s)) = tables s
  /\ locals (snd (Stencil.apply_all self u s)) = locals s
  /\ arrays s ⊆ arrays (snd (Stencil.apply_all self u s)).
Proof.
  unfold Stencil.apply_all, bind, read_array.
  destruct (arrays s !! u) as [ua|] eqn:Hu; simpl; [|done].
  destruct (bool_decide (Stencil.shape self = ashape ua)); simpl; [|done].
  set (du := fresh (dom (arrays s))).
  assert (Hfresh : arrays s !! du = None) by (apply not_elem_of_dom, is_fresh).
  destruct (apply_all_loop_frame self u du (Stencil.all_indices (ashape ua))
              (Heap (tables s) (locals s) (<[du := zeros_like ua]> (arrays s))))
    as (HT & HL & HA).
  destruct (forM_ (Stencil.all_indices (ashape ua)) (Stencil.apply_store self u du) _)
    as [[e|[]] s1]; simpl in *.
  - split; [done|]. split; [done|]. apply map_subseteq_spec. intros l a Hl.
    rewrite HA by congruence. by rewrite lookup_insert_ne by congruence.
  - split; [done|]. split; [done|]. apply map_subseteq_spec. intros l a Hl.
    rewrite HA by congruence. by rewrite lookup_insert_ne by congruence.
Qed.
End never_writes.

(** ** Targets outside the grid *)

Lemma ravel_wrap shape idx :
  length idx = length shape ->
  ravel shape idx
  = if in_range shape (wrap_index shape idx)
    then Some (flat_pos shape (wrap_index shape idx))
    else None.
Proof.
  revert idx. induction shape as [|n shape IH]; intros [|i idx]; simpl; try done.
  intros [= Hlen]. rewrite (IH idx Hlen). unfold norm_index, wrap_index. simpl.
  fold (wrap_index shape idx).
  destruct ((0 <=? (if i <? 0 then i + n else i)) && ((if i <? 0 then i + n else i) <? n));
    simpl; [|done].
  by destruct (in_range shape (wrap_index shape idx)).
Qed.

Section apply_bounds.
Context {W : Type} `{Arith W}.
Implicit Types (self : Stencil.t W) (s : heap W) (u stl : loc) (ua : ndarray W).

Lemma np_getitem_wrap ua idx :
  array_ok ua = true -> length idx = length (ashape ua) ->
  np_getitem ua idx
  = if in_range (ashape ua) (wrap_index (ashape ua) idx)
    then inr (array_elem ua (wrap_index (ashape ua) idx))
    else inl IndexError.
Proof.
  intros Hok Hlen. unfold np_getitem. rewrite Hlen, Nat.ltb_irrefl.
  rewrite ravel_wrap by done.
  destruct (in_range (ashape ua) (wrap_index (ashape ua) idx)) eqn:Hr; [|done].
  destruct (ravel_in_range _ _ Hr) as [_ Hb]. apply Nat.eqb_eq in Hok.
  unfold array_elem.
  destruct (buffer_get_lt (adata ua)
              (Z.to_nat (flat_pos (ashape ua) (wrap_index (ashape ua) idx))))
    as [x ->]; [lia | done].
Qed.

(** The loop of [apply] when every offset has one component per axis: it
    stops with [IndexError] at the first target numpy refuses. *)
Lemma apply_loop_wrap s u ua idx0 items du :
  arrays s !! u = Some ua -> array_ok ua = true ->
  length idx0 = length (ashape ua) ->
  offsets_full idx0 items = true ->
  foldM (Stencil.apply_term u idx0) items du s
  = (if offsets_accepted (ashape ua) idx0 items
     then inr (fold_left (fun du '(o, c) =>
                 wadd du (wmul c (to_weight
                   (array_elem ua (wrap_index (ashape ua) (zip_with Z.add idx0 o))))))
               items du)
     else inl IndexError, s).
Proof.
  intros Hu Hok Hlen. revert du.
  induction items as [|[o c] items IH]; intros du; simpl; [done|].
  rewrite andb_true_iff. intros [Ho Hrest]. apply Nat.eqb_eq in Ho.
  unfold bind. unfold Stencil.apply_term at 1. unfold bind, lift, read_array, ret, np_add.
  rewrite Ho, Nat.eqb_refl, Hu. simpl.
  rewrite np_getitem_wrap; [|done | rewrite length_zip_with; lia].
  destruct (in_range (ashape ua) (wrap_index (ashape ua) (zip_with Z.add idx0 o)));
    simpl; [by apply IH | done].
Qed.
End apply_bounds.

Section apply_bounds_results.
Context {W : Type} `{Arith W}.
Implicit Types (self : Stencil.t W) (s : heap W) (u stl : loc) (ua : ndarray W).

Lemma apply_run_wrap self s u ua idx0 T stl items :
  arrays s !! u = Some ua ->
  array_ok ua = true ->
  ashape ua = Stencil.shape self ->
  in_range (Stencil.shape self) (Stencil.apply_tuple idx0) = true ->
  tables s !! Stencil.data self = Some T ->
  dict_get T (pattern_of (Stencil.shape self) (Stencil.apply_tuple idx0)) = Some stl ->
  locals s !! stl = Some items ->
  offsets_full (Stencil.apply_tuple idx0) items = true ->
  Stencil.apply self u idx0 s
  = (if offsets_accepted (Stencil.shape self) (Stencil.apply_tuple idx0) items
     then inr (wrapped_sum ua (Stencil.apply_tuple idx0) items)
     else inl IndexError, s).
Proof.
  intros Hu Hok Hshape Hr HT Hstl Hitems Hfull.
  pose proof (in_range_length _ _ Hr) as Hlen.
  unfold Stencil.apply.
  rewrite (bind_lift_inr _ _ _ _ (apply_typ_run self _ Hlen)).
  unfold bind at 1. unfold read_table at 1. rewrite HT. simpl.
  rewrite (bind_lift_inr _ _ _ stl) by (by rewrite Hstl).
  unfold Stencil.apply_sum, bind at 1. unfold read_local at 1. rewrite Hitems. simpl.
  rewrite (apply_loop_wrap s u ua) by (try done; by rewrite Hshape).
  by rewrite <- Hshape.
Qed.

(** A target with a negative component is not refused: as long as every
    component of every target lies in [-n, n), [apply] succeeds and reads,
    for a negative component, the element counted from the far end of the
    axis. *)
Theorem apply_wraps_negative_targets self s u ua idx0 T stl items :
  arrays s !! u = Some ua ->
  array_ok ua = true ->
  ashape ua = Stencil.shape self ->
  in_range (Stencil.shape self) (Stencil.apply_tuple idx0) = true ->
  tables s !! Stencil.data self = Some T ->
  dict_get T (pattern_of (Stencil.shape self) (Stencil.apply_tuple idx0)) = Some stl ->
  locals s !! stl = Some items ->
  offsets_full (Stencil.apply_tuple idx0) items = true ->
  offsets_accepted (Stencil.shape self) (Stencil.apply_tuple idx0) items = true ->
  Stencil.apply self u idx0 s
  = (inr (wrapped_sum ua (Stencil.apply_tuple idx0) items), s).
Proof.
  intros Hu Hok Hshape Hr HT Hstl Hitems Hfull Hacc.
  rewrite (apply_run_wrap self s u ua idx0 T stl items) by done. by rewrite Hacc.
Qed.

(** A target with a component at or beyond the extent of its axis, or
    below minus the extent, makes [apply] raise [IndexError], and the
    store is as before. *)
Theorem apply_out_of_bounds self s u ua idx0 T stl items :
  arrays s !! u = Some ua ->
  array_ok ua = true ->
  ashape ua = Stencil.shape self ->
  in_range (Stencil.shape self) (Stencil.apply_tuple idx0) = true ->
  tables s !! Stencil.data self = Some T ->
  dict_get T (pattern_of (Stencil.shape self) (Stencil.apply_tuple idx0)) = Some stl ->
  locals s !! stl = Some items ->
  offsets_full (Stencil.apply_tuple idx0) items = true ->
  offsets_accepted (Stencil.shape self) (Stencil.apply_tuple idx0) items = false ->
  Stencil.apply self u idx0 s = (inl IndexError, s).
Proof.
  intros Hu Hok Hshape Hr HT Hstl Hitems Hfull Hacc.
  rewrite (apply_run_wrap self s u ua idx0 T stl items) by done. by rewrite Hacc.
Qed.
End apply_bounds_results.

(** On two points the backward scheme at index [1] reaches index [-1],
    which numpy reads as index [1]: [0.5 * 20 - 2 * 10 + 1.5 * 20]. *)
Lemma apply_wraps_negative_targets_witness :
  Stencil.apply short_stencil 1%positive (IdxInt 1) short_store
  = (inr 20%float, short_store).
Proof.
  rewrite (apply_wraps_negative_targets short_stencil short_store 1%positive
             short_array (IdxInt 1)
             [([LOW], 1%positive); ([CENTER], 2%positive); ([HIGH], 3%positive)]
             3%positive
             [([-2], 0.5%float); ([-1], (-2)%float); ([0], 1.5%float)]);
    vm_compute; reflexivity.
Defined.

(** On two points the forward scheme at index [0] reaches index [2]. *)
Lemma apply_out_of_bounds_witness :
  Stencil.apply short_stencil 1%positive (IdxInt 0) short_store
  = (inl IndexError, short_store).
Proof.
  apply (apply_out_of_bounds short_stencil short_store 1%positive short_array (IdxInt 0)
           [([LOW], 1%positive); ([CENTER], 2%positive); ([HIGH], 3%positive)]
           1%positive
           [([0], (-1.5)%float); ([1], 2%float); ([2], (-0.5)%float)]);
    vm_compute; reflexivity.
Defined.

(** ** [for_point] on a constructed stencil *)

Lemma dict_get_map_key {K V : Type} `{EqDecision K} (f : K -> V) (ks : list K) (k : K) :
  k ∈ ks -> dict_get (map (fun x => (x, f x)) ks) k = Some (f k).
Proof.
  induction ks as [|k' ks IH]; simpl; [by intros ?%elem_of_nil|].
  destruct (decide (k = k')) as [->|Hne]; [done|].
  intros [?|Hin]%elem_of_cons; [done | by apply IH].
Qed.

Lemma resolve_get_inv {W : Type} (L : gmap loc (list (offset * W)))
    (T : list (pattern * loc)) (R : list (pattern * list (offset * W)))
    (p : pattern) (D : list (offset * W)) :
  resolve L T = Some R -> dict_get R p = Some D ->
  exists l, dict_get T p = Some l /\ L !! l = Some D.
Proof.
  intros HR HD. destruct (dict_get T p) as [l|] eqn:HT.
  - exists l. split; [done|]. by rewrite <- (resolve_get_Some _ _ _ _ _ HR HT).
  - rewrite (resolve_get_None _ _ _ _ HR HT) in HD. done.
Qed.

Lemma pattern_of_length shape idx :
  length idx = length shape -> length (pattern_of shape idx) = length shape.
Proof. intros Hlen. unfold pattern_of. rewrite length_zip_with. lia. Qed.

Section for_point_facts.
Context {W : Type} `{Arith W}.
Variable coefficients : Z -> Z -> result (coef_table W).
Implicit Types (s : heap W) (shape idx : list Z) (h : W).

(** The run of a construction without a seed and the table it leaves. *)
Lemma init_run_view shape axis order h acc ct s :
  0 <= axis < Z.of_nat (length shape) ->
  coefficients order acc = inr ct ->
  weights_defined h order ct = true ->
  exists st s',
    Stencil.__init__ coefficients shape axis order h acc None s = (inr st, s')
    /\ st = Stencil.Make shape axis order h acc (Stencil.data st)
    /\ table_view s' (Stencil.data st)
       = Some (map (fun pt => (pt, local_of st ct pt []))
                   (Stencil._det_characteristic_points shape)).
Proof.
  intros Hax Hct Hdef.
  set (d := fresh (dom (tables s))).
  set (st := Stencil.Make shape axis order h acc d).
  assert (Hpts : NoDup (Stencil._det_characteristic_points shape)).
  { apply product_replicate_NoDup, sym_NoDup. }
  destruct (create_stencil_run coefficients st ct
              (Stencil._det_characteristic_points shape)
              (Heap (<[d := []]> (tables s)) (locals s) (arrays s)) [] [])
    as (T' & L' & Hrun & HR & Hnd); try done.
  { intros pt. apply product_replicate_length. }
  { simpl. apply lookup_insert_eq. }
  { apply NoDup_nil_2. }
  exists st, (Heap (<[d := T']> (tables s)) L' (arrays s)).
  split; [|split; [done|]].
  - unfold Stencil.__init__. unfold bind at 1. unfold alloc_table at 1. fold d. fold st.
    rewrite (bind_inr _ _ _ _ _ Hrun). unfold ret. simpl.
    by rewrite insert_insert_eq.
  - unfold table_view. simpl. rewrite lookup_insert_eq, HR.
    rewrite create_view_fresh; [done | done |].
    intros pt _. apply not_elem_of_nil.
Qed.

(** After a construction without a seed, where [c / h ** order] raises for
    no coefficient of the generator's answer, [for_point] succeeds at every
    in-range index, leaves the store as it is and returns the reference of
    a local stencil that holds the contributions of one scheme of the
    generator; the scheme is chosen by the classification of the index
    along [axis] alone, whatever the index is along the other axes. *)
Theorem for_point_after_init shape axis order h acc ct s idx :
  0 <= axis < Z.of_nat (length shape) ->
  coefficients order acc = inr ct ->
  weights_defined h order ct = true ->
  in_range shape idx = true ->
  exists st s' l,
    Stencil.__init__ coefficients shape axis order h acc None s = (inr st, s')
    /\ Stencil.for_point st (IdxTuple idx) s' = (inr l, s')
    /\ locals s' !! l = Some (local_of st ct (pattern_of shape idx) [])
    /\ forall i n,
         idx !! Z.to_nat axis = Some i -> shape !! Z.to_nat axis = Some n ->
         local_of st ct (pattern_of shape idx) []
         = accumulate_all [] (contributions st (Stencil.smap (sym_of i n) ct)).
Proof.
  intros Hax Hct Hdef Hr. pose proof (in_range_length _ _ Hr) as Hlen.
  destruct (init_run_view shape axis order h acc ct s Hax Hct Hdef)
    as (st & s' & Hrun & Hst & Hview).
  assert (Hin : pattern_of shape idx ∈ Stencil._det_characteristic_points shape).
  { apply product_replicate_complete; [by apply pattern_of_length|].
    intros x _. apply sym_all. }
  unfold table_view in Hview.
  destruct (tables s' !! Stencil.data st) as [T|] eqn:HT; [|done].
  destruct (resolve_get_inv _ _ _ (pattern_of shape idx) _ Hview
              (dict_get_map_key (fun pt => local_of st ct pt []) _ _ Hin))
    as (l & Hl & HD).
  assert (Hshape : Stencil.shape st = shape) by (by rewrite Hst).
  exists st, s', l. split; [exact Hrun|]. split; [|split; [exact HD|]].
  - unfold Stencil.for_point.
    rewrite (bind_lift_inr _ _ _ (pattern_of shape idx)).
    + unfold bind, read_table, lift. rewrite HT. simpl. by rewrite Hl.
    + rewrite type_for_point_run by (rewrite Hshape; lia).
      rewrite Hshape. by rewrite classify_map_zip.
  - intros i n Hi Hn. unfold local_of. do 2 f_equal.
    unfold scheme_of_pattern, pattern_of.
    assert (Hax' : Stencil.axis st = axis) by (by rewrite Hst).
    rewrite Hax', lookup_zip_with, Hi. simpl. rewrite Hn. simpl.
    by destruct (sym_of i n).
Qed.
End for_point_facts.

(** The middle point of the last row of a 3 x 5 grid, differentiated along
    the second axis: HIGH along the first axis, yet the central scheme. *)
Lemma for_point_after_init_witness :
  exists st s' l,
    Stencil.__init__ coefficients [3; 5] 1 1 1%float 2 None empty_heap = (inr st, s')
    /\ Stencil.for_point st (IdxTuple [2; 2]) s' = (inr l, s')
    /\ locals s' !! l
       = Some [([0; -1], (-0.5)%float); ([0; 0], 0%float); ([0; 1], 0.5%float)].
Proof.
  destruct (for_point_after_init coefficients [3; 5] 1 1 1%float 2 coefficients_1_2
              empty_heap [2; 2])
    as (st & s' & l & Hrun & Hfp & HD & Hscheme);
    [simpl; lia | reflexivity | reflexivity | reflexivity |].
  exists st, s', l. split; [exact Hrun|]. split; [exact Hfp|].
  rewrite HD, (Hscheme 2 5 eq_refl eq_refl).
  assert (Hst : st = Stencil.Make [3; 5] 1 1 1%float 2 (Stencil.data st)).
  { vm_compute in Hrun. by injection Hrun as <- _. }
  rewrite Hst. reflexivity.
Defined.

(** ** Constructions that fail *)

Lemma py_index_out_of_range {A : Type} (l : list A) (i : Z) :
  i < - Z.of_nat (length l) \/ Z.of_nat (length l) <= i ->
  py_index l i = inl IndexError.
Proof.
  intros Hi. unfold py_index.
  assert ((0 <=? i) && (i <? Z.of_nat (length l)) = false) as ->.
  { apply andb_false_iff. destruct Hi; [left; apply Z.leb_gt | right; apply Z.ltb_ge]; lia. }
  assert ((- Z.of_nat (length l) <=? i) && (i <? 0) = false) as ->; [|done].
  apply andb_false_iff. destruct Hi; [left; apply Z.leb_gt | right; apply Z.ltb_ge]; lia.
Qed.

Lemma py_index_accepts {A : Type} (l : list A) (i : Z) :
  - Z.of_nat (length l) <= i < Z.of_nat (length l) -> exists x, py_index l i = inr x.
Proof.
  intros Hi. unfold py_index.
  destruct ((0 <=? i) && (i <? Z.of_nat (length l))) eqn:E.
  - apply andb_true_iff in E as [E1%Z.leb_le E2%Z.ltb_lt].
    destruct (lookup_lt_is_Some_2 l (Z.to_nat i)) as [x ->]; [lia | by exists x].
  - assert ((- Z.of_nat (length l) <=? i) && (i <? 0) = true) as ->.
    { apply andb_false_iff in E. apply andb_true_iff.
      split; [apply Z.leb_le; lia | apply Z.ltb_lt].
      destruct E as [E%Z.leb_gt|E%Z.ltb_ge]; lia. }
    destruct (lookup_lt_is_Some_2 l (Z.to_nat (Z.of_nat (length l) + i))) as [x ->];
      [lia | by exists x].
Qed.

Lemma char_pts_head shape :
  exists pt pts, Stencil._det_characteristic_points shape = pt :: pts
                 /\ length pt = length shape.
Proof.
  destruct (Stencil._det_characteristic_points shape) as [|pt pts] eqn:E.
  - pose proof (product_replicate_count [LOW; CENTER; HIGH] (length shape)) as Hc.
    unfold Stencil._det_characteristic_points in E. rewrite E in Hc. simpl in Hc.
    pose proof (Nat.pow_nonzero 3 (length shape)). lia.
  - exists pt, pts. split; [done|]. apply char_pts_length. rewrite E. left.
Qed.

Section init_failures.
Context {W : Type} `{Arith W}.
Variable coefficients : Z -> Z -> result (coef_table W).
Implicit Types (s : heap W) (shape : list Z) (h : W) (old_stl : option (Stencil.t W)).

(** The store when [_create_stencil] is entered: with a seed the store of
    the caller, without one the same with a new empty table. *)
Lemma init_fails_early shape axis order h acc old_stl s e :
  (forall (self : Stencil.t W) pt s0,
     Stencil.axis self = axis -> Stencil.order self = order -> Stencil.acc self = acc ->
     length pt = length shape ->
     Stencil.create_one coefficients self pt s0 = (inl e, s0)) ->
  exists s',
    Stencil.__init__ coefficients shape axis order h acc old_stl s = (inl e, s')
    /\ tables s ⊆ tables s'
    /\ locals s' = locals s
    /\ arrays s' = arrays s
    /\ (forall old, old_stl = Some old -> s' = s)
    /\ (old_stl = None ->
        exists d, tables s !! d = None /\ tables s' = <[d := []]> (tables s)).
Proof.
  intros Hfail. destruct (char_pts_head shape) as (pt & pts & Hpts & Hlen).
  unfold Stencil.__init__, Stencil._create_stencil. rewrite Hpts. simpl.
  destruct old_stl as [old|].
  - exists s. split; [|done].
    unfold bind at 1. unfold ret at 1. unfold bind at 1. unfold bind at 1.
    by rewrite (Hfail _ pt s).
  - set (d := fresh (dom (tables s))).
    assert (Hd : tables s !! d = None) by (apply not_elem_of_dom, is_fresh).
    exists (Heap (<[d := []]> (tables s)) (locals s) (arrays s)).
    split; [|split; [by apply insert_subseteq | split; [done | split; [done | split]]]].
    + unfold bind at 1. unfold alloc_table at 1. fold d.
      unfold bind at 1. unfold bind at 1. by rewrite (Hfail _ pt _).
    + intros old [=].
    + intros _. by exists d.
Qed.

(** An [axis] outside [-ndim, ndim) makes the constructor raise
    [IndexError] at the first pattern: no local stencil is created, no
    existing table is written, a seed is left untouched, and without a seed
    the only trace is the new, still empty table. *)
Theorem init_axis_out_of_range shape axis order h acc old_stl s :
  axis < - Z.of_nat (length shape) \/ Z.of_nat (length shape) <= axis ->
  exists s',
    Stencil.__init__ coefficients shape axis order h acc old_stl s
    = (inl IndexError, s')
    /\ tables s ⊆ tables s'
    /\ locals s' = locals s
    /\ arrays s' = arrays s
    /\ (forall old, old_stl = Some old -> s' = s)
    /\ (old_stl = None ->
        exists d, tables s !! d = None /\ tables s' = <[d := []]> (tables s)).
Proof.
  intros Hax. apply init_fails_early.
  intros self pt s0 Haxis _ _ Hlen. unfold Stencil.create_one, bind, lift.
  rewrite Haxis, py_index_out_of_range; [done | by rewrite Hlen].
Qed.

(** When the generator refuses the request, the constructor raises the
    generator's exception at the first pattern, before anything is
    accumulated: no local stencil is created, a seed is left untouched, and
    without a seed the only trace is the new, still empty table. *)
Theorem init_generator_refuses shape axis order h acc old_stl s e :
  - Z.of_nat (length shape) <= axis < Z.of_nat (length shape) ->
  coefficients order acc = inl e ->
  exists s',
    Stencil.__init__ coefficients shape axis order h acc old_stl s = (inl e, s')
    /\ tables s ⊆ tables s'
    /\ locals s' = locals s
    /\ arrays s' = arrays s
    /\ (forall old, old_stl = Some old -> s' = s)
    /\ (old_stl = None ->
        exists d, tables s !! d = None /\ tables s' = <[d := []]> (tables s)).
Proof.
  intros Hax Hct. apply init_fails_early.
  intros self pt s0 Haxis Horder Hacc Hlen. unfold Stencil.create_one, bind, lift.
  destruct (py_index_accepts pt axis) as [sy Hsy]; [by rewrite Hlen|].
  by rewrite Haxis, Hsy, Horder, Hacc, Hct.
Qed.
End init_failures.

(** Axis [1] on a one-axis grid, seeded with the three-point stencil: the
    seed's store is returned as it was. *)
Lemma init_axis_out_of_range_witness :
  Stencil.__init__ coefficients [3] 1 1 1%float 2 (Some seed_stencil) seed_store
  = (inl IndexError, seed_store).
Proof.
  destruct (init_axis_out_of_range coefficients [3] 1 1 1%float 2 (Some seed_stencil)
              seed_store) as (s' & Hrun & _ & _ & _ & Hseed & _); [simpl; lia|].
  by rewrite Hrun, (Hseed seed_stencil eq_refl).
Defined.

(** A second derivative, which the modelled generator does not tabulate. *)
Lemma init_generator_refuses_witness :
  exists s',
    Stencil.__init__ coefficients [3] 0 2 1%float 2 None empty_heap
    = (inl CoefficientError, s')
    /\ locals s' = ∅.
Proof.
  destruct (init_generator_refuses coefficients [3] 0 2 1%float 2 None empty_heap
              CoefficientError) as (s' & Hrun & _ & HL & _);
    [simpl; lia | reflexivity |].
  exists s'. split; [exact Hrun | exact HL].
Defined.

(** ** A negative [axis] *)

Lemma forM_ext {W A : Type} (f g : A -> M W unit) (l : list A) :
  (forall x s, x ∈ l -> f x s = g x s) -> forall s, forM_ l f s = forM_ l g s.
Proof.
  induction l as [|x l IH]; intros Hfg s; simpl; [done|].
  unfold bind. rewrite (Hfg x s) by left.
  destruct (g x s) as [[e|[]] s1]; [done|].
  apply IH. intros y s0 Hy. apply Hfg. by right.
Qed.

Lemma py_index_negative {A : Type} (l : list A) (i : Z) :
  - Z.of_nat (length l) <= i < 0 -> py_index l i = py_index l (i + Z.of_nat (length l)).
Proof.
  intros Hi. unfold py_index.
  assert ((0 <=? i) && (i <? Z.of_nat (length l)) = false) as ->.
  { apply andb_false_iff. left. apply Z.leb_gt. lia. }
  assert ((- Z.of_nat (length l) <=? i) && (i <? 0) = true) as ->.
  { apply andb_true_iff. split; [apply Z.leb_le | apply Z.ltb_lt]; lia. }
  assert ((0 <=? i + Z.of_nat (length l))
          && (i + Z.of_nat (length l) <? Z.of_nat (length l)) = true) as ->.
  { apply andb_true_iff. split; [apply Z.leb_le | apply Z.ltb_lt]; lia. }
  by rewrite Z.add_comm.
Qed.

Section negative_axis.
Context {W : Type} `{Arith W}.
Variable coefficients : Z -> Z -> result (coef_table W).
Implicit Types (s : heap W) (shape : list Z) (h : W) (old_stl : option (Stencil.t W)).

Lemma long_off_negative ndim axis off :
  - Z.of_nat ndim <= axis < 0 ->
  Stencil.long_off ndim axis off = Stencil.long_off ndim (axis + Z.of_nat ndim) off.
Proof.
  intros Hax. unfold Stencil.long_off.
  destruct (axis <? 0) eqn:E1; [|apply Z.ltb_ge in E1; lia].
  destruct (axis + Z.of_nat ndim <? 0) eqn:E2; [apply Z.ltb_lt in E2; lia | done].
Qed.

Lemma create_one_negative shape axis order h acc d pt s :
  - Z.of_nat (length shape) <= axis < 0 ->
  length pt = length shape ->
  Stencil.create_one coefficients (Stencil.Make shape axis order h acc d) pt s
  = Stencil.create_one coefficients
      (Stencil.Make shape (axis + Z.of_nat (length shape)) order h acc d) pt s.
Proof.
  intros Hax Hlen. unfold Stencil.create_one. simpl.
  rewrite py_index_negative by (by rewrite Hlen). rewrite Hlen.
  unfold bind.
  destruct (lift (py_index pt (axis + Z.of_nat (length shape))) s) as [[e|sy] s1]; [done|].
  destruct (lift (coefficients order acc) s1) as [[e|ct] s2]; [done|].
  destruct (read_table d s2) as [[e|T] s3]; [done|].
  destruct (match dict_get T pt with Some l => ret l | None => alloc_local [] end s3)
    as [[e|lstl] s4]; [done|].
  rewrite (forM_ext
             (Stencil.accumulate_one (Stencil.Make shape axis order h acc d) lstl)
             (Stencil.accumulate_one
                (Stencil.Make shape (axis + Z.of_nat (length shape)) order h acc d) lstl));
    [done|].
  intros [off c] s0 _. unfold Stencil.accumulate_one. simpl.
  by rewrite long_off_negative.
Qed.

(** A negative [axis] in [-ndim, 0) counts from the last axis, as Python
    indexing does in both places the constructor uses it: the construction
    runs exactly as with [axis + ndim], on the same store and with the same
    outcome, and the instances differ in their [axis] attribute only. *)
Theorem init_negative_axis shape axis order h acc old_stl s :
  - Z.of_nat (length shape) <= axis < 0 ->
  Stencil.__init__ coefficients shape axis order h acc old_stl s
  = (match fst (Stencil.__init__ coefficients shape (axis + Z.of_nat (length shape))
                  order h acc old_stl s) with
     | inr st => inr (Stencil.Make shape axis order h acc (Stencil.data st))
     | inl e => inl e
     end,
     snd (Stencil.__init__ coefficients shape (axis + Z.of_nat (length shape))
            order h acc old_stl s)).
Proof.
  intros Hax. unfold Stencil.__init__, Stencil._create_stencil, bind.
  destruct (match old_stl with Some old => ret (Stencil.data old) | None => alloc_table [] end s)
    as [[e|d] s1]; [done|].
  rewrite (forM_ext
             (Stencil.create_one coefficients (Stencil.Make shape axis order h acc d))
             (Stencil.create_one coefficients
                (Stencil.Make shape (axis + Z.of_nat (length shape)) order h acc d))).
  - by destruct (forM_ _ _ s1) as [[e|[]] s2].
  - intros pt s0 Hpt. apply create_one_negative; [done|]. by apply char_pts_length.
Qed.
End negative_axis.

(** Axis [-1] of a 3 x 5 grid is its second axis. *)
Lemma init_negative_axis_witness :
  exists st s',
    Stencil.__init__ coefficients [3; 5] 1 1 1%float 2 None empty_heap = (inr st, s')
    /\ Stencil.__init__ coefficients [3; 5] (-1) 1 1%float 2 None empty_heap
       = (inr (Stencil.Make [3; 5] (-1) 1 1%float 2 (Stencil.data st)), s').
Proof.
  do 2 eexists. split; [vm_compute; reflexivity|].
  rewrite (init_negative_axis coefficients [3; 5] (-1) 1 1%float 2 None empty_heap)
    by (simpl; lia).
  vm_compute. reflexivity.
Defined.

(** ** What a combination never writes *)

Section binaryop_frame.
Context {W : Type} `{Arith W}.
Implicit Types (self other : Stencil.t W) (s : heap W) (op : W -> W -> W)
  (Lold : gmap loc (list (offset * W))).

Lemma binaryop_one_frame op l oc Lold s :
  Lold ⊆ locals s -> Lold !! l = None ->
  tables (snd (Stencil.binaryop_one op l oc s)) = tables s
  /\ arrays (snd (Stencil.binaryop_one op l oc s)) = arrays s
  /\ Lold ⊆ locals (snd (Stencil.binaryop_one op l oc s)).
Proof.
  intros Hsub Hl. destruct oc as [o c].
  unfold Stencil.binaryop_one, bind, read_local.
  destruct (locals s !! l) as [D|]; simpl; [|done].
  destruct (dict_get D o) as [w|]; simpl;
    (split; [done|]; split; [done|]; by apply insert_subseteq_r).
Qed.

Lemma binaryop_items_frame op l items Lold s :
  Lold ⊆ locals s -> Lold !! l = None ->
  tables (snd (forM_ items (Stencil.binaryop_one op l) s)) = tables s
  /\ arrays (snd (forM_ items (Stencil.binaryop_one op l) s)) = arrays s
  /\ Lold ⊆ locals (snd (forM_ items (Stencil.binaryop_one op l) s)).
Proof.
  intros Hsub Hl. revert s Hsub. induction items as [|oc items IH]; intros s Hsub; simpl.
  - done.
  - destruct (binaryop_one_frame op l oc Lold s Hsub Hl) as (HT & HA & HL).
    unfold bind.
    destruct (Stencil.binaryop_one op l oc s) as [[e|[]] s1]; [done|].
    simpl in *. destruct (IH s1 HL) as (HT' & HA' & HL').
    split; [congruence|]. split; [congruence | done].
Qed.

Lemma binaryop_pattern_frame other op p l Lold s :
  Lold ⊆ locals s -> Lold !! l = None ->
  tables (snd (Stencil.binaryop_pattern other op (p, l) s)) = tables s
  /\ arrays (snd (Stencil.binaryop_pattern other op (p, l) s)) = arrays s
  /\ Lold ⊆ locals (snd (Stencil.binaryop_pattern other op (p, l) s)).
Proof.
  intros Hsub Hl. unfold Stencil.binaryop_pattern, bind, read_table, lift, read_local.
  destruct (tables s !! Stencil.data other) as [To|]; simpl; [|done].
  destruct (dict_get To p) as [lo|]; simpl; [|done].
  destruct (locals s !! lo) as [items|]; simpl; [|done].
  by apply binaryop_items_frame.
Qed.

Lemma binaryop_loop_frame other op Lold (Trest : list (pattern * loc)) s :
  Lold ⊆ locals s -> (forall l, l ∈ Trest.*2 -> Lold !! l = None) ->
  tables (snd (forM_ Trest (Stencil.binaryop_pattern other op) s)) = tables s
  /\ arrays (snd (forM_ Trest (Stencil.binaryop_pattern other op) s)) = arrays s
  /\ Lold ⊆ locals (snd (forM_ Trest (Stencil.binaryop_pattern other op) s)).
Proof.
  revert s. induction Trest as [|[p l] Trest IH]; intros s Hsub Hfresh; [done|].
  cbn [forM_].
  destruct (binaryop_pattern_frame other op p l Lold s Hsub) as (HT & HA & HL).
  { apply Hfresh. rewrite fmap_cons. left. }
  unfold bind.
  destruct (Stencil.binaryop_pattern other op (p, l) s) as [[e|[]] s1];
    [simpl in *; done|].
  simpl in *. destruct (IH s1 HL) as (HT' & HA' & HL').
  { intros l0 Hl0. apply Hfresh. by right. }
  split; [congruence|]. split; [congruence | done].
Qed.

(** Whatever the other operand is and however the call ends (a result, a
    failed assertion, a [KeyError] midway), [_binaryop] on a stencil whose
    table is in the store writes only into its deep copy: every table,
    local stencil and array that existed reads as before. *)
Theorem binaryop_never_writes self other op s T R :
  stencil_ok s (Stencil.data self) T R ->
  tables s ⊆ tables (snd (Stencil._binaryop self other op s))
  /\ locals s ⊆ locals (snd (Stencil._binaryop self other op s))
  /\ arrays (snd (Stencil._binaryop self other op s)) = arrays s.
Proof.
  intros (HT & HR & Hk & Hnd & _).
  destruct (deepcopy_run self s T R HT HR Hk Hnd)
    as (d' & T' & L1 & Hcopy & Hd' & Hsub1 & _ & _ & _ & Hfresh).
  unfold Stencil._binaryop. rewrite (bind_inr _ _ _ _ _ Hcopy). simpl Stencil.shape.
  unfold bind, assert, ret, raise, read_table.
  destruct (bool_decide (Stencil.shape self = Stencil.shape other)); simpl;
    [|split; [by apply insert_subseteq | done]].
  rewrite lookup_insert_eq. simpl.
  destruct (binaryop_loop_frame other op (locals s) T'
              (Heap (<[d' := T']> (tables s)) L1 (arrays s)) Hsub1 Hfresh)
    as (HT' & HA' & HL').
  destruct (forM_ T' (Stencil.binaryop_pattern other op) _) as [[e|[]] s2];
    simpl in *; (split; [rewrite HT'; by apply insert_subseteq | done]).
Qed.
End binaryop_frame.

(** The three-point stencil plus a four-point one: the assertion fails and
    the store still holds what it held. *)
Lemma binaryop_never_writes_witness :
  locals pair_store ⊆ locals (snd (Stencil.__add__ seed_stencil wide_stencil pair_store))
  /\ arrays (snd (Stencil.__add__ seed_stencil wide_stencil pair_store))
     = arrays pair_store.
Proof.
  destruct (binaryop_never_writes seed_stencil wide_stencil PrimFloat.add pair_store
              seed_table seed_view seed_ok) as (_ & HL & HA).
  split; [exact HL | exact HA].
Defined.

(** ** A grid without points *)

Lemma range_nonpos n : n <= 0 -> range n = [].
Proof. intros Hn. unfold range. by replace (Z.to_nat n) with 0%nat by lia. Qed.

Lemma product_empty_factor {A : Type} (axes : list (list A)) :
  [] ∈ axes -> product axes = [].
Proof.
  induction axes as [|xs axes IH]; [by intros ?%elem_of_nil|].
  intros [<-|Hin]%elem_of_cons; simpl; [done|].
  rewrite (IH Hin). by induction xs.
Qed.

Lemma size_zero shape : 0 ∈ shape -> size shape = 0.
Proof.
  induction shape as [|n shape IH]; [by intros ?%elem_of_nil|].
  unfold size in *. simpl. intros [<-|Hin]%elem_of_cons; [done|].
  rewrite (IH Hin). lia.
Qed.

Lemma all_indices_empty shape : 0 ∈ shape -> Stencil.all_indices shape = [].
Proof.
  intros Hin. unfold Stencil.all_indices.
  destruct (length shape =? 1)%nat eqn:E.
  - apply Nat.eqb_eq in E. destruct shape as [|n [|? ?]]; try done.
    apply list_elem_of_singleton in Hin as <-. done.
  - rewrite product_empty_factor; [done|].
    apply list_elem_of_fmap. exists 0. split; [by rewrite range_nonpos | done].
Qed.

Section empty_grid.
Context {W : Type} `{Arith W}.
Implicit Types (self : Stencil.t W) (s : heap W) (u : loc) (ua : ndarray W).

(** When an extent of the grid is [0], [apply_all] never calls [apply] nor
    reads the stencil's table: it returns a new array of the same shape
    and element type, without any element, whatever the table holds. *)
Theorem apply_all_empty_grid self u ua s :
  arrays s !! u = Some ua ->
  Stencil.shape self = ashape ua ->
  0 ∈ ashape ua ->
  exists du,
    Stencil.apply_all self u s
    = (inr du, Heap (tables s) (locals s) (<[du := zeros_like ua]> (arrays s)))
    /\ arrays s !! du = None
    /\ ashape (zeros_like ua) = ashape ua
    /\ buffer_dtype (adata (zeros_like ua)) = buffer_dtype (adata ua)
    /\ buffer_length (adata (zeros_like ua)) = 0%nat.
Proof.
  intros Hu Hshape Hzero. exists (fresh (dom (arrays s))).
  split; [|split; [apply not_elem_of_dom, is_fresh | split; [done | split]]].
  - unfold Stencil.apply_all, bind, read_array. rewrite Hu. simpl.
    rewrite bool_decide_true by done. simpl.
    by rewrite (all_indices_empty _ Hzero).
  - unfold zeros_like. simpl. by destruct (adata ua).
  - unfold zeros_like. simpl. rewrite (size_zero _ Hzero). by destruct (adata ua).
Qed.
End empty_grid.

(** A 0 x 3 array and a stencil whose table does not even exist. *)
Lemma apply_all_empty_grid_witness :
  exists du,
    Stencil.apply_all (Stencil.Make [0; 3] 0 1 1%float 2 7%positive) 1%positive
      (Heap ∅ ∅ {[1%positive := NdArray [0; 3] (FloatData [])]})
    = (inr du,
       Heap ∅ ∅ (<[du := NdArray [0; 3] (FloatData [])]>
                   {[1%positive := NdArray [0; 3] (FloatData [])]})).
Proof.
  destruct (apply_all_empty_grid (Stencil.Make [0; 3] 0 1 1%float 2 7%positive) 1%positive
              (NdArray [0; 3] (FloatData []))
              (Heap ∅ ∅ {[1%positive := NdArray [0; 3] (FloatData [])]}))
    as (du & Hrun & _); [reflexivity | reflexivity | left |].
  exists du. exact Hrun.
Defined.

(** ** [type_for_point] on an index of another length *)

Lemma rmap_inl {A B : Type} (f : A -> result B) (e : exn) (l : list A) :
  (forall x, x ∈ l -> (exists y, f x = inr y) \/ f x = inl e) ->
  (exists x, x ∈ l /\ f x = inl e) ->
  rmap f l = inl e.
Proof.
  induction l as [|x l IH]; intros Hall (x0 & Hin & Hx0); [by apply elem_of_nil in Hin|].
  simpl. destruct (Hall x) as [[y Hy]|Hx]; [left | | by rewrite Hx].
  rewrite Hy. simpl. rewrite IH; [done | |].
  - intros z Hz. apply Hall. by right.
  - apply elem_of_cons in Hin as [->|Hin]; [congruence | by exists x0].
Qed.

Section index_length.
Context {W : Type}.
Implicit Types (self : Stencil.t W) (idx : list Z).

(** [type_for_point] does not compare the length of the index with the
    number of axes.  A shorter index is classified component by component
    and gives a shorter pattern.  A longer index is accepted when all its
    surplus components are [0] (they classify LOW before the shape is
    consulted) and raises [IndexError] as soon as one of them is not. *)
Theorem type_for_point_other_length self idx :
  ((length idx <= length (Stencil.shape self))%nat ->
   exists typ, Stencil.type_for_point self (IdxTuple idx) = inr typ
               /\ length typ = length idx)
  /\ ((length (Stencil.shape self) < length idx)%nat ->
      (forall a i, (length (Stencil.shape self) <= a)%nat -> idx !! a = Some i -> i = 0) ->
      exists typ, Stencil.type_for_point self (IdxTuple idx) = inr typ
                  /\ length typ = length idx
                  /\ forall a, (length (Stencil.shape self) <= a < length idx)%nat ->
                               typ !! a = Some LOW)
  /\ ((exists a i, (length (Stencil.shape self) <= a)%nat /\ idx !! a = Some i /\ i <> 0) ->
      Stencil.type_for_point self (IdxTuple idx) = inl IndexError).
Proof.
  split; [|split].
  - intros Hlen. eexists. split; [by apply type_for_point_run|].
    by rewrite length_map, length_seq.
  - intros Hlen Hzero.
    exists (map (fun a => sym_of (default 0 (idx !! a))
                            (default 0 (Stencil.shape self !! a)))
              (seq 0 (length idx))).
    split; [|split].
    + unfold Stencil.type_for_point. apply rmap_inr.
      intros a Ha. apply elem_of_seq in Ha as [_ Ha]. simpl in Ha.
      destruct (lookup_lt_is_Some_2 idx a) as [i Hi]; [lia|]. rewrite Hi. simpl.
      unfold sym_of. destruct (i =? 0) eqn:E; [done|]. apply Z.eqb_neq in E.
      destruct (Stencil.shape self !! a) as [n|] eqn:Hn; simpl.
      * by destruct (i =? n - 1).
      * apply lookup_ge_None in Hn. by specialize (Hzero a i Hn Hi).
    + by rewrite length_map, length_seq.
    + intros a [Ha1 Ha2]. rewrite list_lookup_fmap, lookup_seq_lt by done. simpl.
      destruct (lookup_lt_is_Some_2 idx a) as [i Hi]; [lia|].
      rewrite Hi, (Hzero a i Ha1 Hi). done.
  - intros (a & i & Ha & Hi & Hne). unfold Stencil.type_for_point.
    apply rmap_inl.
    + intros b Hb. apply elem_of_seq in Hb as [_ Hb]. simpl in Hb.
      destruct (lookup_lt_is_Some_2 idx b) as [j Hj]; [lia|]. rewrite Hj. simpl.
      destruct (j =? 0); [left; by eexists|].
      destruct (Stencil.shape self !! b) as [n|]; simpl; [|by right].
      left. destruct (j =? n - 1); by eexists.
    + exists a. split.
      * apply elem_of_seq. apply lookup_lt_Some in Hi. lia.
      * rewrite Hi. simpl. apply Z.eqb_neq in Hne. rewrite Hne.
        by rewrite (lookup_ge_None_2 (Stencil.shape self) a).
Qed.
End index_length.

(** On a three-point grid: the index [(1, 0)] is classified, [(1, 2)] is
    refused. *)
Lemma type_for_point_other_length_witness :
  (exists typ, Stencil.type_for_point seed_stencil (IdxTuple [1; 0]) = inr typ
               /\ typ !! 1%nat = Some LOW)
  /\ Stencil.type_for_point seed_stencil (IdxTuple [1; 2]) = inl IndexError.
Proof.
  split.
  - destruct (type_for_point_other_length seed_stencil [1; 0]) as (_ & Hlong & _).
    destruct Hlong as (typ & Hrun & _ & Hlow); [simpl; lia | |].
    { intros [|[|a]] i Ha; simpl in *; try lia; [by intros [= <-] | done]. }
    exists typ. split; [exact Hrun|]. apply Hlow. simpl. lia.
  - destruct (type_for_point_other_length seed_stencil [1; 2]) as (_ & _ & Herr).
    apply Herr. exists 1%nat, 2. simpl. repeat split; [lia | lia].
Defined.

(** ** What a construction without a seed never writes *)

Section keeps_facts.
Context {W : Type}.
Implicit Types (P : heap W -> Prop) (s : heap W).

Lemma keeps_bind {A B : Type} P (Q : A -> Prop) (Q' : B -> Prop)
    (m : M W A) (f : A -> M W B) :
  keeps P Q m -> (forall a, Q a -> keeps P Q' (f a)) -> keeps P Q' (bind m f).
Proof.
  intros Hm Hf s Hs. destruct (Hm s Hs) as [HP HQ]. unfold bind.
  destruct (m s) as [[e|a] s1]; simpl in *; [by split|].
  apply (Hf a (HQ a eq_refl) s1 HP).
Qed.

Lemma keeps_lift {A : Type} P (Q : A -> Prop) (r : result A) :
  (forall a, r = inr a -> Q a) -> keeps P Q (lift r).
Proof. intros HQ s Hs. by split. Qed.

Lemma keeps_ret {A : Type} P (Q : A -> Prop) (a : A) : Q a -> keeps P Q (ret a).
Proof. intros HQ s Hs. split; [done|]. by intros ? [= <-]. Qed.

Lemma keeps_forM {A : Type} P (l : list A) (body : A -> M W unit) :
  (forall x, x ∈ l -> keeps P (fun _ => True) (body x)) ->
  keeps P (fun _ => True) (forM_ l body).
Proof.
  induction l as [|x l IH]; intros Hbody; simpl.
  - by apply keeps_ret.
  - apply (keeps_bind P (fun _ => True)); [apply Hbody; left|].
    intros _ _. apply IH. intros y Hy. apply Hbody. by right.
Qed.
End keeps_facts.

Lemma dict_set_values {K V : Type} `{EqDecision K} (d : list (K * V)) k v x :
  x ∈ (dict_set d k v).*2 -> x = v \/ x ∈ d.*2.
Proof.
  induction d as [|[k' v'] d IH]; simpl.
  - rewrite list_elem_of_singleton. by left.
  - destruct (decide (k = k')); rewrite !fmap_cons, !elem_of_cons; simpl.
    + intros [->|Hx]; [by left | right; by right].
    + intros [->|Hx]; [right; by left|].
      destruct (IH Hx) as [->|Hd]; [by left | right; by right].
Qed.

Section init_no_seed.
Context {W : Type} `{Arith W}.
Variable coefficients : Z -> Z -> result (coef_table W).
Implicit Types (s old : heap W) (d l : loc).

Lemma write_local_keeps old d l D :
  locals old !! l = None -> keeps (building old d) (fun _ => True) (write_local l D).
Proof.
  intros Hl s (Ht & Ha & Hsub & T & HT & Hgood). split; [|done]. simpl.
  split; [done | split; [done | split; [by apply insert_subseteq_r | by exists T]]].
Qed.

Lemma accumulate_one_keeps self old d l oc :
  locals old !! l = None ->
  keeps (building old d) (fun _ => True) (Stencil.accumulate_one self l oc).
Proof.
  intros Hl. destruct oc as [off c]. unfold Stencil.accumulate_one.
  apply (keeps_bind _ (fun _ => True)); [by apply keeps_lift|]. intros lo _.
  apply (keeps_bind _ (fun _ => True)); [by intros s Hs|]. intros D _.
  destruct (dict_get D lo);
    (apply (keeps_bind _ (fun _ => True));
     [by apply keeps_lift | intros x _; by apply write_local_keeps]).
Qed.

Lemma read_table_keeps old d :
  keeps (building old d) (fun T => forall l, l ∈ T.*2 -> locals old !! l = None)
    (read_table d).
Proof.
  intros s Hs. split; [done|]. destruct Hs as (_ & _ & _ & T & HT & Hgood).
  unfold read_table. simpl. rewrite HT. simpl. by intros ? [= <-].
Qed.

Lemma create_one_keeps self old pt :
  keeps (building old (Stencil.data self)) (fun _ => True)
    (Stencil.create_one coefficients self pt).
Proof.
  unfold Stencil.create_one.
  apply (keeps_bind _ (fun _ => True)); [by apply keeps_lift|]. intros sy _.
  apply (keeps_bind _ (fun _ => True)); [by apply keeps_lift|]. intros ct _.
  apply (keeps_bind _ _ _ _ _ (read_table_keeps old _)). intros T HT.
  apply (keeps_bind _ (fun l => locals old !! l = None)).
  { destruct (dict_get T pt) as [l|] eqn:Hget.
    - apply keeps_ret, HT. apply list_elem_of_fmap. exists (pt, l).
      split; [done | by apply dict_get_Some_elem].
    - intros s (Ht & Ha & Hsub & T1 & HT1 & Hgood).
      assert (Hfresh : locals s !! fresh (dom (locals s)) = None)
        by apply not_elem_of_dom, is_fresh.
      assert (Hnew : locals old !! fresh (dom (locals s)) = None)
        by apply (lookup_weaken_None _ _ _ Hfresh Hsub).
      split.
      + simpl. split; [done | split; [done | split; [by apply insert_subseteq_r | by exists T1]]].
      + simpl. by intros ? [= <-]. }
  intros l Hl.
  apply (keeps_bind _ (fun _ => True)).
  { apply keeps_forM. intros oc _. by apply accumulate_one_keeps. }
  intros _ _.
  apply (keeps_bind _ _ _ _ _ (read_table_keeps old _)). intros T' HT'.
  intros s (Ht & Ha & Hsub & T1 & HT1 & Hgood). split; [|done].
  unfold building. simpl.
  split; [|split; [done | split; [done|]]].
  - intros d0 Hd0. by rewrite lookup_insert_ne; [apply Ht|].
  - exists (dict_set T' pt l). rewrite lookup_insert_eq. split; [done|].
    intros l0 Hl0. destruct (dict_set_values _ _ _ _ Hl0) as [->|Hin]; [done|].
    by apply HT'.
Qed.

(** A stencil constructed without a seed shares nothing with what existed
    before: however the constructor ends, every table, local stencil and
    array of the caller's store is still there and unchanged; and when it
    returns, the stencil's table is a new one whose local stencils are all
    new. *)
Theorem init_without_seed_never_writes shape axis order h acc s :
  let out := Stencil.__init__ coefficients shape axis order h acc None s in
  tables s ⊆ tables (snd out)
  /\ locals s ⊆ locals (snd out)
  /\ arrays (snd out) = arrays s
  /\ forall self, fst out = inr self ->
       tables s !! Stencil.data self = None
       /\ exists T, tables (snd out) !! Stencil.data self = Some T
            /\ forall l, l ∈ T.*2 -> locals s !! l = None.
Proof.
  set (d := fresh (dom (tables s))).
  assert (Hd : tables s !! d = None) by apply not_elem_of_dom, is_fresh.
  set (self := Stencil.Make shape axis order h acc d).
  set (s1 := Heap (<[d := []]> (tables s)) (locals s) (arrays s)).
  assert (Hs1 : building s d s1).
  { split; [|split; [done | split; [done|]]].
    - intros d0 Hd0. simpl. by rewrite lookup_insert_ne.
    - exists []. simpl. rewrite lookup_insert_eq. split; [done|].
      intros l Hl. by apply elem_of_nil in Hl. }
  assert (Hk : keeps (building s d) (fun r => r = self)
                 (bind (Stencil._create_stencil coefficients self
                          (Stencil._det_characteristic_points shape))
                       (fun _ => ret self))).
  { apply (keeps_bind _ (fun _ => True)); [|intros _ _; by apply keeps_ret].
    apply keeps_forM. intros pt _. apply (create_one_keeps self). }
  destruct (Hk s1 Hs1) as [(Ht & Ha & Hsub & T & HT & Hgood) Hval].
  assert (Hout : Stencil.__init__ coefficients shape axis order h acc None s
                 = bind (Stencil._create_stencil coefficients self
                          (Stencil._det_characteristic_points shape))
                       (fun _ => ret self) s1) by done.
  simpl. rewrite Hout.
  split; [|split; [done | split; [done|]]].
  - apply map_subseteq_spec. intros d0 T0 Hd0.
    rewrite Ht; [done|]. intros ->. by rewrite Hd in Hd0.
  - intros self' Hself. rewrite (Hval _ Hself). simpl. split; [done | by exists T].
Qed.
End init_no_seed.

(** ** A pattern the right operand does not have *)

Section binaryop_key_error.
Context {W : Type} `{Arith W}.
Implicit Types (self other : Stencil.t W) (s : heap W) (op : W -> W -> W)
  (T : list (pattern * loc)) (R : list (pattern * list (offset * W))).

(** The outer loop of [_binaryop] stops at the first pattern that the other
    operand's table does not have; the turns before it have written local
    stencils of the copy only. *)
Lemma binaryop_loop_missing other op To Ro (Lold : gmap loc (list (offset * W))) Trest p :
  forall s Rrest,
    Lold ⊆ locals s ->
    tables s !! Stencil.data other = Some To ->
    resolve Lold To = Some Ro ->
    resolve (locals s) Trest = Some Rrest ->
    NoDup Trest.*2 ->
    (forall l, l ∈ Trest.*2 -> Lold !! l = None) ->
    p ∈ Trest.*1 ->
    dict_get To p = None ->
    exists L',
      forM_ Trest (Stencil.binaryop_pattern other op) s
      = (inl KeyError, Heap (tables s) L' (arrays s))
      /\ Lold ⊆ L'.
Proof.
  induction Trest as [|[p0 l] Trest IH]; intros s Rrest Hsub HTo HRo HR Hnd Hfresh Hp Hmiss.
  - by apply elem_of_nil in Hp.
  - simpl in HR. destruct (locals s !! l) as [D|] eqn:HD; [|done].
    destruct (resolve (locals s) Trest) as [R'|] eqn:HR'; [|done].
    rewrite fmap_cons in Hnd. apply NoDup_cons in Hnd as [Hl Hnd]. simpl in Hl.
    destruct (dict_get To p0) as [lo|] eqn:Hlo.
    + destruct (resolve_locs _ _ _ lo HRo) as [Do HDo].
      { apply dict_get_Some_elem in Hlo. apply list_elem_of_fmap. by exists (p0, lo). }
      pose proof (lookup_weaken _ _ _ _ HDo Hsub) as HDo'.
      assert (HLl : Lold !! l = None) by (apply Hfresh; rewrite fmap_cons; left).
      assert (Hp' : p ∈ Trest.*1).
      { rewrite fmap_cons in Hp. apply elem_of_cons in Hp as [->|Hp]; [|done].
        simpl in Hmiss. congruence. }
      destruct (IH (Heap (tables s) (<[l := merge_local op D Do]> (locals s)) (arrays s)) R')
        as (L' & Hrun & Hsub').
      { simpl. by apply insert_subseteq_r. }
      { done. }
      { done. }
      { simpl. by rewrite resolve_insert_notin. }
      { done. }
      { intros l0 Hl0. apply Hfresh. rewrite fmap_cons. by right. }
      { done. }
      { done. }
      exists L'. split; [|done]. cbn [forM_].
      rewrite (bind_inr _ _ _ _ _
                 (binaryop_pattern_run other op s To lo p0 l D Do HTo Hlo HDo' HD)).
      exact Hrun.
    + exists (locals s). split; [|done]. cbn [forM_].
      unfold bind at 1. unfold Stencil.binaryop_pattern.
      unfold bind at 1. unfold read_table at 1. rewrite HTo. simpl.
      unfold bind at 1. unfold lift at 1. rewrite Hlo. simpl. by destruct s.
Qed.

(** [+] and [-] look every pattern of the left operand up in the right
    operand's table: when the right operand lacks one of them, the
    combination of two stencils of the same shape raises [KeyError], and
    every table, local stencil and array that existed is left as it was. *)
Theorem binaryop_missing_pattern self other op s T R To Ro p :
  stencil_ok s (Stencil.data self) T R ->
  tables s !! Stencil.data other = Some To ->
  resolve (locals s) To = Some Ro ->
  Stencil.shape self = Stencil.shape other ->
  p ∈ T.*1 -> p ∉ To.*1 ->
  exists s',
    Stencil._binaryop self other op s = (inl KeyError, s')
    /\ tables s ⊆ tables s'
    /\ locals s ⊆ locals s'
    /\ arrays s' = arrays s.
Proof.
  intros (HT & HR & Hk & Hnd & _) HTo HRo Hshape Hp Hmiss.
  destruct (deepcopy_run self s T R HT HR Hk Hnd)
    as (d' & T' & L1 & Hcopy & Hd' & Hsub1 & Hkeys & HR1 & Hnd1 & Hfresh).
  assert (Hne : Stencil.data other <> d') by congruence.
  destruct (binaryop_loop_missing other op To Ro (locals s) T' p
              (Heap (<[d' := T']> (tables s)) L1 (arrays s)) R)
    as (L' & Hloop & Hsub); try done.
  { simpl. by rewrite lookup_insert_ne. }
  { by rewrite Hkeys. }
  { by apply dict_get_None. }
  exists (Heap (<[d' := T']> (tables s)) L' (arrays s)).
  split; [|split; [by apply insert_subseteq | done]].
  unfold Stencil._binaryop.
  rewrite (bind_inr _ _ _ _ _ Hcopy). simpl Stencil.shape.
  rewrite bool_decide_true by done. unfold bind at 1. simpl.
  unfold bind at 1. unfold read_table at 1. simpl. rewrite lookup_insert_eq. simpl.
  unfold bind at 1. by rewrite Hloop.
Qed.
End binaryop_key_error.

(** The one-axis stencil seeded with a two-axis one, plus a one-axis
    stencil: the pattern [('L', 'L')] is missing on the right. *)
Lemma binaryop_missing_pattern_witness :
  fst (Stencil.__add__ mixed_stencil plain_stencil mixed_store) = inl KeyError.
Proof.
  destruct (binaryop_missing_pattern mixed_stencil plain_stencil PrimFloat.add mixed_store
              mixed_table mixed_view plain_table plain_view [LOW; LOW] mixed_ok)
    as (s' & Hrun & _).
  - vm_compute. reflexivity.
  - vm_compute. reflexivity.
  - reflexivity.
  - apply (bool_decide_unpack _). vm_compute. reflexivity.
  - apply (bool_decide_unpack _). vm_compute. reflexivity.
  - unfold Stencil.__add__. simpl wadd. by rewrite Hrun.
Defined.

(** ** The invariant on examples *)

(** The three-point stencil on a three-point grid is constructed with its
    invariant. *)
Lemma init_establishes_ok_witness :
  exists st s' T' R',
    Stencil.__init__ coefficients [3] 0 1 1%float 2 None empty_heap = (inr st, s')
    /\ stencil_ok s' (Stencil.data st) T' R'
    /\ R'.*1 = Stencil._det_characteristic_points [3].
Proof.
  apply (init_establishes_ok coefficients [3] 0 1 1%float 2 coefficients_1_2 empty_heap);
    [simpl; lia | reflexivity | reflexivity].
Defined.

(** The sum of the stencils with spacing [1.0] and [2.0] has the
    invariant. *)
Lemma binaryop_establishes_ok_witness :
  exists stl s' T',
    Stencil._binaryop seed_stencil coarse_stencil PrimFloat.add pair_store = (inr stl, s')
    /\ stencil_ok s' (Stencil.data stl) T' (merge_view PrimFloat.add seed_view coarse_view).
Proof.
  apply (binaryop_establishes_ok seed_stencil coarse_stencil PrimFloat.add pair_store
           seed_table seed_view coarse_table coarse_view seed_ok coarse_ok);
    [reflexivity | intros p Hp; exact Hp].
Defined.

(** ** The side condition on floats *)

(** On floats [c / h ** order] raises for no coefficient exactly when the
    power does not raise and is not zero (given that the table has a
    coefficient at all). *)
Lemma float_weights_defined (h : float) order (ct : coef_table float) :
  ((exists q, float_pow h order = inr q /\ PrimFloat.is_zero q = false) ->
   weights_defined h order ct = true)
  /\ (sc_coefficients (forward ct) ++ sc_coefficients (center ct)
      ++ sc_coefficients (backward ct) <> [] ->
      weights_defined h order ct = true ->
      exists q, float_pow h order = inr q /\ PrimFloat.is_zero q = false).
Proof.
  unfold weights_defined, Stencil.weight.
  change (wpow h order) with (float_pow h order).
  split.
  - intros (q & Hq & Hz). apply forallb_forall. intros c _.
    rewrite Hq. cbn [rbind]. change (wdiv c q) with (float_div c q).
    unfold float_div. by rewrite Hz.
  - destruct (sc_coefficients (forward ct) ++ sc_coefficients (center ct)
              ++ sc_coefficients (backward ct)) as [|c cs]; [done|].
    intros _ Hdef. cbn [forallb] in Hdef. apply andb_true_iff in Hdef as [Hc _].
    destruct (float_pow h order) as [e|q]; [done|].
    cbn [rbind] in Hc. change (wdiv c q) with (float_div c q) in Hc.
    unfold float_div in Hc. exists q. split; [done|].
    by destruct (PrimFloat.is_zero q).
Qed.

(** ** A power that raises *)

Section init_power.
Context {W : Type} `{Arith W}.
Variable coefficients : Z -> Z -> result (coef_table W).
Implicit Types (self : Stencil.t W) (s : heap W) (pt : pattern).

Lemma accumulate_one_power_raises self l s D off c e :
  0 <= Stencil.axis self < Z.of_nat (length (Stencil.shape self)) ->
  wpow (Stencil.h self) (Stencil.order self) = inl e ->
  locals s !! l = Some D ->
  Stencil.accumulate_one self l (off, c) s = (inl e, s).
Proof.
  intros Hax Hpow HD. unfold Stencil.accumulate_one.
  rewrite (bind_lift_inr _ _ _ _ (long_off_run _ _ off Hax)).
  unfold bind at 1. unfold read_local at 1. rewrite HD. simpl.
  destruct (dict_get D _); unfold bind, lift, Stencil.weight; by rewrite Hpow.
Qed.

(** The first weight of the first pattern is never computed: the turn
    ends in the exception of the power, after at most the creation of an
    empty local stencil. *)
Lemma create_one_power_raises self ct s T R pt e :
  0 <= Stencil.axis self < Z.of_nat (length (Stencil.shape self)) ->
  length pt = length (Stencil.shape self) ->
  coefficients (Stencil.order self) (Stencil.acc self) = inr ct ->
  wpow (Stencil.h self) (Stencil.order self) = inl e ->
  (forall sy, zip (sc_offsets (Stencil.smap sy ct)) (sc_coefficients (Stencil.smap sy ct))
              <> []) ->
  tables s !! Stencil.data self = Some T ->
  resolve (locals s) T = Some R ->
  exists L',
    Stencil.create_one coefficients self pt s = (inl e, Heap (tables s) L' (arrays s))
    /\ (is_Some (dict_get T pt) -> L' = locals s)
    /\ (L' = locals s
        \/ exists l, locals s !! l = None /\ L' = <[l := []]> (locals s)).
Proof.
  intros Hax Hlen Hct Hpow Hne HT HR.
  destruct (lookup_lt_is_Some_2 pt (Z.to_nat (Stencil.axis self))) as [sy Hsy]; [lia|].
  specialize (Hne sy).
  unfold Stencil.create_one.
  rewrite (bind_lift_inr _ _ _ sy) by (apply py_index_in_range; [lia | done]).
  rewrite (bind_lift_inr _ _ _ ct) by done.
  unfold bind at 1. unfold read_table at 1. rewrite HT. simpl.
  destruct (zip (sc_offsets (Stencil.smap sy ct)) (sc_coefficients (Stencil.smap sy ct)))
    as [|[off c] rest]; [done|].
  destruct (dict_get T pt) as [l|] eqn:Hget.
  - destruct (resolve_locs _ _ _ l HR) as [D HD].
    { apply dict_get_Some_elem in Hget. apply list_elem_of_fmap. by exists (pt, l). }
    exists (locals s). split; [|split; [done | by left]].
    unfold bind at 1. unfold ret at 1. cbn [forM_].
    unfold bind at 1. unfold bind at 1.
    rewrite (accumulate_one_power_raises self l s D off c e Hax Hpow HD).
    by destruct s.
  - set (l := fresh (dom (locals s))).
    assert (Hl : locals s !! l = None) by (apply not_elem_of_dom, is_fresh).
    exists (<[l := []]> (locals s)). split; [|split; [by intros [? ?] | right; by exists l]].
    unfold bind at 1. unfold alloc_local at 1. fold l. cbn [forM_].
    unfold bind at 1. unfold bind at 1.
    by rewrite (accumulate_one_power_raises self l _ [] off c e Hax Hpow
                  (lookup_insert_eq _ _ _)).
Qed.

(** When [h ** order] raises (for floats: [OverflowError] when the power
    overflows, [ZeroDivisionError] for a zero [h] and a negative [order]),
    the constructor raises the same exception before any weight is stored:
    every table, local stencil and array of the caller's store is as
    before, a seed's table included; the only traces are the new empty
    table of a construction without a seed and, when the first pattern is
    not in the table, one new empty local stencil that no table refers to.
    When the seed's table has the first pattern the store is returned as it
    was. *)
Theorem init_power_raises shape axis order (h : W) acc ct old_stl s e :
  0 <= axis < Z.of_nat (length shape) ->
  coefficients order acc = inr ct ->
  wpow h order = inl e ->
  (forall sy, zip (sc_offsets (Stencil.smap sy ct)) (sc_coefficients (Stencil.smap sy ct))
              <> []) ->
  (forall old, old_stl = Some old ->
     exists T R, tables s !! Stencil.data old = Some T /\ resolve (locals s) T = Some R) ->
  exists s',
    Stencil.__init__ coefficients shape axis order h acc old_stl s = (inl e, s')
    /\ arrays s' = arrays s
    /\ locals s ⊆ locals s'
    /\ (forall l D, locals s' !! l = Some D -> locals s !! l = Some D \/ D = [])
    /\ (forall old, old_stl = Some old -> tables s' = tables s)
    /\ (old_stl = None ->
        exists d, tables s !! d = None /\ tables s' = <[d := []]> (tables s))
    /\ (forall old T pt,
          old_stl = Some old -> tables s !! Stencil.data old = Some T ->
          head (Stencil._det_characteristic_points shape) = Some pt ->
          is_Some (dict_get T pt) -> s' = s).
Proof.
  intros Hax Hct Hpow Hne Hseed.
  destruct (char_pts_head shape) as (pt & pts & Hpts & Hlen).
  assert (Hlocals : forall (L' : gmap loc (list (offset * W))),
            (L' = locals s \/ exists l, locals s !! l = None /\ L' = <[l := []]> (locals s)) ->
            locals s ⊆ L'
            /\ forall l D, L' !! l = Some D -> locals s !! l = Some D \/ D = []).
  { intros L' [->|(l & Hl & ->)].
    - split; [done|]. intros l D HD. by left.
    - split; [by apply insert_subseteq|]. intros l0 D HD.
      destruct (decide (l0 = l)) as [->|Hneq].
      + rewrite lookup_insert_eq in HD. right. congruence.
      + rewrite lookup_insert_ne in HD by done. by left. }
  unfold Stencil.__init__, Stencil._create_stencil. rewrite Hpts. cbn [forM_].
  destruct old_stl as [old|].
  - destruct (Hseed old eq_refl) as (T & R & HT & HR).
    destruct (create_one_power_raises
                (Stencil.Make shape axis order h acc (Stencil.data old))
                ct s T R pt e Hax Hlen Hct Hpow Hne HT HR) as (L' & Hrun & Hsame & HL').
    destruct (Hlocals L' HL') as [Hsub Hnew].
    exists (Heap (tables s) L' (arrays s)).
    split; [|split; [done | split; [done | split; [done | split; [done | split; [done|]]]]]].
    + unfold bind at 1. unfold ret at 1. unfold bind at 1. unfold bind at 1.
      by rewrite Hrun.
    + intros old' T' pt' [= <-] HT' Hhead Hin.
      simpl in Hhead. injection Hhead as <-.
      rewrite HT in HT'. injection HT' as <-.
      rewrite (Hsame Hin). by destruct s.
  - set (d := fresh (dom (tables s))).
    assert (Hd : tables s !! d = None) by (apply not_elem_of_dom, is_fresh).
    destruct (create_one_power_raises (Stencil.Make shape axis order h acc d) ct
                (Heap (<[d := []]> (tables s)) (locals s) (arrays s)) [] [] pt e
                Hax Hlen Hct Hpow Hne (lookup_insert_eq _ _ _) eq_refl)
      as (L' & Hrun & _ & HL').
    destruct (Hlocals L' HL') as [Hsub Hnew].
    exists (Heap (<[d := []]> (tables s)) L' (arrays s)).
    split; [|split; [done | split; [done | split; [done | split; [|split]]]]].
    + unfold bind at 1. unfold alloc_table at 1. fold d.
      unfold bind at 1. unfold bind at 1. by rewrite Hrun.
    + intros old [=].
    + intros _. by exists d.
    + intros old T pt' [=].
Qed.
End init_power.

(** The second derivative with spacing [2^600], seeded with the three-point
    stencil: the seed's store is returned as it was. *)
Lemma init_power_raises_witness :
  Stencil.__init__ coefficients_second [3] 0 2 0x1p+600%float 2 (Some seed_stencil) seed_store
  = (inl OverflowError, seed_store).
Proof.
  destruct (init_power_raises coefficients_second [3] 0 2 0x1p+600%float 2 coefficients_2_2
              (Some seed_stencil) seed_store OverflowError)
    as (s' & Hrun & _ & _ & _ & _ & _ & Hsame).
  - simpl. lia.
  - reflexivity.
  - reflexivity.
  - intros sy. by destruct sy.
  - intros old [= <-]. eexists _, _. split; vm_compute; reflexivity.
  - rewrite Hrun. f_equal. apply (Hsame seed_stencil seed_table [LOW] eq_refl).
    + vm_compute. reflexivity.
    + reflexivity.
    + vm_compute. by eexists.
Defined.
